(** * toolkit: a shallow embedding of the request/response helpers

    The Go package [toolkit] (type [Tools] and its methods) is embedded as
    Rocq functions.  Go strings are byte sequences and are modelled by
    [string]; Go's [int], [int64] and [uint64] are modelled by [Z] with the
    wrap-around written where the code has one.  Methods that touch the
    receiver, the file system or the random source run in the monad [Go],
    which threads a [State] and distinguishes a normal return from
    [log.Fatal] (process exit) and from a run-time panic. *)

From Stdlib Require Import ZArith List Ascii String Bool Lia.
From Stdlib Require Import DecimalString.
From stdpp Require Import gmap strings.

Local Open Scope string_scope.

(** ** Errors *)

(** The [error] values the package produces or receives from the standard
    library.  [errors.New] and [fmt.Errorf] give [errorString]. *)
Inductive error : Type :=
| errorString (s : string)
| io_EOF
| io_ErrUnexpectedEOF
| json_SyntaxError (c : ascii) (context : string) (Offset : Z)
| json_UnmarshalTypeError (Value Type_ Struct Field : string) (Offset : Z)
| json_InvalidUnmarshalError (Type_ : string)
| json_MarshalError (msg : string)
| http_MaxBytesError
| os_PathError (Op Path Err : string).

(** ** Configuration and state *)

Record Tools : Type := mkTools {
  MaxFileSize : Z;
  AllowedTypes : list string;
  MaxJSONSize : Z;
  AllowUnknownFields : bool
}.

(** [UploadedFile] as in the source. *)
Record UploadedFile : Type := mkUploadedFile {
  NewFileName : string;
  OriginalFileName : string;
  FileSize : Z
}.

(** What a call can see and change: the receiver [t *Tools], the stream
    behind [rand.Reader] (each element is the big-endian value of the bytes
    one [io.ReadFull] inside [rand.Prime] delivers; the empty list is a
    reader that fails), and the file system (directories and regular files
    with their contents). *)
Record State : Type := mkState {
  this : Tools;
  rand_Reader : list Z;
  fs_dirs : gset string;
  fs_files : gmap string string
}.

Definition set_this (t : Tools) (st : State) : State :=
  mkState t (rand_Reader st) (fs_dirs st) (fs_files st).
Definition set_rand_Reader (r : list Z) (st : State) : State :=
  mkState (this st) r (fs_dirs st) (fs_files st).
Definition set_fs_dirs (d : gset string) (st : State) : State :=
  mkState (this st) (rand_Reader st) d (fs_files st).
Definition set_fs_files (f : gmap string string) (st : State) : State :=
  mkState (this st) (rand_Reader st) (fs_dirs st) f.

(** ** The monad of Go calls *)

(** A call returns, ends the process ([log.Fatal]) or panics. *)
Inductive Result (A : Type) : Type :=
| Ok (a : A)
| Fatal (msg : string)
| Panic (msg : string).
Arguments Ok {A} a.
Arguments Fatal {A} msg.
Arguments Panic {A} msg.

Definition Go (A : Type) : Type := State -> Result A * State.

Definition ret {A} (a : A) : Go A := fun st => (Ok a, st).
Definition bind {A B} (m : Go A) (k : A -> Go B) : Go B :=
  fun st =>
    match m st with
    | (Ok a, st') => k a st'
    | (Fatal msg, st') => (Fatal msg, st')
    | (Panic msg, st') => (Panic msg, st')
    end.
Definition log_Fatal {A} (msg : string) : Go A := fun st => (Fatal msg, st).
Definition panic {A} (msg : string) : Go A := fun st => (Panic msg, st).
Definition get : Go State := fun st => (Ok st, st).
Definition modify (f : State -> State) : Go unit := fun st => (Ok tt, f st).

Notation "x <- m ;; k" := (bind m (fun x => k))
  (at level 100, m at next level, right associativity).

(** ** Small string helpers *)

(** The double quote character. *)
Definition dquote : ascii := ascii_of_nat 34.

(** [%d] of an integer. *)
Definition Sprint_d (z : Z) : string := NilZero.string_of_int (Z.to_int z).

Fixpoint HasPrefix (s prefix : string) : bool :=
  match prefix, s with
  | EmptyString, _ => true
  | String p prefix', String c s' => Ascii.eqb p c && HasPrefix s' prefix'
  | String _ _, EmptyString => false
  end.

Fixpoint TrimPrefix_aux (s prefix : string) : string :=
  match prefix, s with
  | EmptyString, _ => s
  | String _ prefix', String _ s' => TrimPrefix_aux s' prefix'
  | String _ _, EmptyString => EmptyString
  end.
Definition TrimPrefix (s prefix : string) : string :=
  if HasPrefix s prefix then TrimPrefix_aux s prefix else s.

(** ** Slugify *)

Definition lowerASCII (c : ascii) : ascii :=
  let n := nat_of_ascii c in
  if (65 <=? n)%nat && (n <=? 90)%nat then ascii_of_nat (n + 32) else c.

(** [strings.ToLower] on the bytes of a string.  ASCII capitals are lowered.
    Two runes outside ASCII have an ASCII lower case: U+0130 (bytes C4 B0,
    lower case i) and U+212A (bytes E2 84 AA, lower case k).  Every other rune
    outside ASCII, and every invalid byte, is mapped by Go to a rune outside
    ASCII; its bytes are left in place here, which is all the regular
    expression of [Slugify] can see of them. *)
Fixpoint ToLower (s : string) : string :=
  match s with
  | EmptyString => EmptyString
  | String c rest =>
      match rest with
      | String c1 rest1 =>
          if Ascii.eqb c (ascii_of_nat 196) && Ascii.eqb c1 (ascii_of_nat 176)
          then String "i" (ToLower rest1)
          else
            match rest1 with
            | String c2 rest2 =>
                if Ascii.eqb c (ascii_of_nat 226)
                   && Ascii.eqb c1 (ascii_of_nat 132)
                   && Ascii.eqb c2 (ascii_of_nat 170)
                then String "k" (ToLower rest2)
                else String (lowerASCII c) (ToLower rest)
            | EmptyString => String (lowerASCII c) (ToLower rest)
            end
      | EmptyString => String (lowerASCII c) EmptyString
      end
  end.

Definition inRange (lo hi c : ascii) : bool :=
  (nat_of_ascii lo <=? nat_of_ascii c)%nat && (nat_of_ascii c <=? nat_of_ascii hi)%nat.

(** The set of the character class of the source, [[^a-z/d]]: the letters
    [a] to [z], the slash and the letter [d]; the class matches every rune
    outside the set. *)
Definition class_a_z_slash_d (c : ascii) : bool :=
  inRange "a" "z" c || Ascii.eqb c "/" || Ascii.eqb c "d".

(** [re.ReplaceAllString(src, repl)] for a regular expression of the form
    [[^set]+]: each maximal run of bytes outside [set] becomes one [repl].
    [inRun] tells that the byte before was in a run.  Bytes outside ASCII
    are never in [set], so a run of runes is a run of bytes. *)
Fixpoint ReplaceAllString (set : ascii -> bool) (inRun : bool)
    (src repl : string) : string :=
  match src with
  | EmptyString => EmptyString
  | String c rest =>
      if set c then String c (ReplaceAllString set false rest repl)
      else if inRun then ReplaceAllString set true rest repl
      else repl ++ ReplaceAllString set true rest repl
  end.

Fixpoint TrimLeft (s : string) (cut : ascii) : string :=
  match s with
  | EmptyString => EmptyString
  | String c rest => if Ascii.eqb c cut then TrimLeft rest cut else s
  end.

Fixpoint TrimRight (s : string) (cut : ascii) : string :=
  match s with
  | EmptyString => EmptyString
  | String c rest =>
      match TrimRight rest cut with
      | EmptyString => if Ascii.eqb c cut then EmptyString else String c EmptyString
      | kept => String c kept
      end
  end.

(** [strings.Trim(s, cutset)] for a cutset of one character. *)
Definition Trim (s : string) (cut : ascii) : string :=
  TrimRight (TrimLeft s cut) cut.

Definition Slugify (s : string) : string * option error :=
  if (Z.of_nat (String.length s) <? 1)%Z
  then ("", Some (errorString "empty strings are not permitted"))
  else
    let slug :=
      Trim (ReplaceAllString class_a_z_slash_d false (ToLower s) "-") "-" in
    if (Z.of_nat (String.length slug) <=? 0)%Z
    then ("", Some (errorString
                      "after removing characters, slug is of zero length"))
    else (slug, None).

(** The transformation in the words of the specification: lowercase, replace
    every maximal run of characters outside the ASCII ranges [a]-[z] and
    [0]-[9] with a single hyphen, trim leading and trailing hyphens. *)
Definition class_a_z_0_9 (c : ascii) : bool :=
  inRange "a" "z" c || inRange "0" "9" c.

Definition Slugify_spec (s : string) : string :=
  Trim (ReplaceAllString class_a_z_0_9 false (ToLower s) "-") "-".

(** ** The JSON scanner of [encoding/json]

    [ReadJSON] decodes with a [json.Decoder], whose [Decode] finds the end of
    the next value with the byte-by-byte state machine of [scanner.go].  The
    machine is transcribed state by state; [parseState] is kept with its top
    at the head of the list. *)
Module scanner.

Inductive code : Type :=
| scanContinue | scanBeginLiteral | scanBeginObject | scanObjectKey
| scanObjectValue | scanEndObject | scanBeginArray | scanArrayValue
| scanEndArray | scanSkipSpace | scanEnd | scanError.

Inductive parse : Type := parseObjectKey | parseObjectValue | parseArrayValue.

Inductive state : Type :=
| stateBeginValue | stateBeginValueOrEmpty | stateBeginStringOrEmpty
| stateBeginString | stateEndValue | stateEndTop
| stateInString | stateInStringEsc | stateInStringEscU | stateInStringEscU1
| stateInStringEscU12 | stateInStringEscU123
| stateNeg | state1 | state0 | stateDot | stateDot0 | stateE | stateESign
| stateE0
| stateT | stateTr | stateTru | stateF | stateFa | stateFal | stateFals
| stateN | stateNu | stateNul
| stateError.

(** The scanner only ever records a [*SyntaxError]: the offending byte, the
    context of the message and the offset. *)
Record SyntaxError : Type := mkSyntaxError {
  bad : ascii;
  context : string;
  Offset : Z
}.

Definition to_error (e : SyntaxError) : error :=
  json_SyntaxError (bad e) (context e) (Offset e).

Record t : Type := mk {
  step : state;
  endTop : bool;
  parseState : list parse;
  err : option SyntaxError;
  bytes : Z
}.

Definition maxNestingDepth : Z := 10000.

Definition reset (s : t) : t := mk stateBeginValue false [] None (bytes s).

Definition set_step (st : state) (s : t) : t :=
  mk st (endTop s) (parseState s) (err s) (bytes s).

Definition isSpace (c : ascii) : bool :=
  Ascii.eqb c " " || Ascii.eqb c (ascii_of_nat 9)
  || Ascii.eqb c (ascii_of_nat 13) || Ascii.eqb c (ascii_of_nat 10).

Definition isDigit (c : ascii) : bool := inRange "0" "9" c.
Definition isHex (c : ascii) : bool :=
  inRange "0" "9" c || inRange "a" "f" c || inRange "A" "F" c.

(** [s.error(c, context)] *)
Definition error_ (s : t) (c : ascii) (context : string) : t * code :=
  (mk stateError (endTop s) (parseState s)
      (Some (mkSyntaxError c context (bytes s))) (bytes s),
   scanError).

Definition pushParseState (s : t) (c : ascii) (newParseState : parse)
    (successState : code) : t * code :=
  let s' := mk (step s) (endTop s) (newParseState :: parseState s)
               (err s) (bytes s) in
  if (Z.of_nat (length (parseState s')) <=? maxNestingDepth)%Z
  then (s', successState)
  else error_ s' c "exceeded max depth".

Definition popParseState (s : t) : t :=
  match parseState s with
  | [] => s
  | _ :: [] => mk stateEndTop true [] (err s) (bytes s)
  | _ :: rest => mk stateEndValue (endTop s) rest (err s) (bytes s)
  end.

Definition replaceTop (p : parse) (s : t) : t :=
  mk (step s) (endTop s)
     (match parseState s with [] => [] | _ :: rest => p :: rest end)
     (err s) (bytes s).

Definition stateEndTop_ (s : t) (c : ascii) : t * code :=
  if negb (isSpace c)
  then (fst (error_ s c "after top-level value"), scanEnd)
  else (s, scanEnd).

Definition stateEndValue_ (s : t) (c : ascii) : t * code :=
  match parseState s with
  | [] => stateEndTop_ (mk stateEndTop true [] (err s) (bytes s)) c
  | ps :: _ =>
      if isSpace c then (set_step stateEndValue s, scanSkipSpace)
      else
        match ps with
        | parseObjectKey =>
            if Ascii.eqb c ":"
            then (set_step stateBeginValue (replaceTop parseObjectValue s),
                  scanObjectKey)
            else error_ s c "after object key"
        | parseObjectValue =>
            if Ascii.eqb c ","
            then (set_step stateBeginString (replaceTop parseObjectKey s),
                  scanObjectValue)
            else if Ascii.eqb c "}" then (popParseState s, scanEndObject)
            else error_ s c "after object key:value pair"
        | parseArrayValue =>
            if Ascii.eqb c ","
            then (set_step stateBeginValue s, scanArrayValue)
            else if Ascii.eqb c "]" then (popParseState s, scanEndArray)
            else error_ s c "after array element"
        end
  end.

Definition stateBeginValue_ (s : t) (c : ascii) : t * code :=
  if isSpace c then (s, scanSkipSpace)
  else if Ascii.eqb c "{"
  then pushParseState (set_step stateBeginStringOrEmpty s) c
         parseObjectKey scanBeginObject
  else if Ascii.eqb c "["
  then pushParseState (set_step stateBeginValueOrEmpty s) c
         parseArrayValue scanBeginArray
  else if Ascii.eqb c dquote then (set_step stateInString s, scanBeginLiteral)
  else if Ascii.eqb c "-" then (set_step stateNeg s, scanBeginLiteral)
  else if Ascii.eqb c "0" then (set_step state0 s, scanBeginLiteral)
  else if Ascii.eqb c "t" then (set_step stateT s, scanBeginLiteral)
  else if Ascii.eqb c "f" then (set_step stateF s, scanBeginLiteral)
  else if Ascii.eqb c "n" then (set_step stateN s, scanBeginLiteral)
  else if inRange "1" "9" c then (set_step state1 s, scanBeginLiteral)
  else error_ s c "looking for beginning of value".

Definition stateBeginValueOrEmpty_ (s : t) (c : ascii) : t * code :=
  if isSpace c then (s, scanSkipSpace)
  else if Ascii.eqb c "]" then stateEndValue_ s c
  else stateBeginValue_ s c.

Definition stateBeginString_ (s : t) (c : ascii) : t * code :=
  if isSpace c then (s, scanSkipSpace)
  else if Ascii.eqb c dquote then (set_step stateInString s, scanBeginLiteral)
  else error_ s c "looking for beginning of object key string".

Definition stateBeginStringOrEmpty_ (s : t) (c : ascii) : t * code :=
  if isSpace c then (s, scanSkipSpace)
  else if Ascii.eqb c "}"
  then stateEndValue_ (replaceTop parseObjectValue s) c
  else stateBeginString_ s c.

Definition stateInString_ (s : t) (c : ascii) : t * code :=
  if Ascii.eqb c dquote then (set_step stateEndValue s, scanContinue)
  else if Ascii.eqb c "\" then (set_step stateInStringEsc s, scanContinue)
  else if (nat_of_ascii c <? 32)%nat then error_ s c "in string literal"
  else (s, scanContinue).

Definition stateInStringEsc_ (s : t) (c : ascii) : t * code :=
  if Ascii.eqb c "b" || Ascii.eqb c "f" || Ascii.eqb c "n" || Ascii.eqb c "r"
     || Ascii.eqb c "t" || Ascii.eqb c "\" || Ascii.eqb c "/"
     || Ascii.eqb c dquote
  then (set_step stateInString s, scanContinue)
  else if Ascii.eqb c "u" then (set_step stateInStringEscU s, scanContinue)
  else error_ s c "in string escape code".

Definition hexThen (next : state) (s : t) (c : ascii) : t * code :=
  if isHex c then (set_step next s, scanContinue)
  else error_ s c "in \u hexadecimal character escape".

Definition state0_ (s : t) (c : ascii) : t * code :=
  if Ascii.eqb c "." then (set_step stateDot s, scanContinue)
  else if Ascii.eqb c "e" || Ascii.eqb c "E" then (set_step stateE s, scanContinue)
  else stateEndValue_ s c.

Definition state1_ (s : t) (c : ascii) : t * code :=
  if isDigit c then (set_step state1 s, scanContinue) else state0_ s c.

Definition stateNeg_ (s : t) (c : ascii) : t * code :=
  if Ascii.eqb c "0" then (set_step state0 s, scanContinue)
  else if inRange "1" "9" c then (set_step state1 s, scanContinue)
  else error_ s c "in numeric literal".

Definition stateDot_ (s : t) (c : ascii) : t * code :=
  if isDigit c then (set_step stateDot0 s, scanContinue)
  else error_ s c "after decimal point in numeric literal".

Definition stateDot0_ (s : t) (c : ascii) : t * code :=
  if isDigit c then (s, scanContinue)
  else if Ascii.eqb c "e" || Ascii.eqb c "E" then (set_step stateE s, scanContinue)
  else stateEndValue_ s c.

Definition stateESign_ (s : t) (c : ascii) : t * code :=
  if isDigit c then (set_step stateE0 s, scanContinue)
  else error_ s c "in exponent of numeric literal".

Definition stateE_ (s : t) (c : ascii) : t * code :=
  if Ascii.eqb c "+" || Ascii.eqb c "-" then (set_step stateESign s, scanContinue)
  else stateESign_ s c.

Definition stateE0_ (s : t) (c : ascii) : t * code :=
  if isDigit c then (s, scanContinue) else stateEndValue_ s c.

(** The states of the literals [true], [false] and [null]. *)
Definition expect (want : ascii) (next : state) (context : string)
    (s : t) (c : ascii) : t * code :=
  if Ascii.eqb c want then (set_step next s, scanContinue)
  else error_ s c context.

(** [s.step(s, c)] *)
Definition step_ (s : t) (c : ascii) : t * code :=
  match step s with
  | stateBeginValue => stateBeginValue_ s c
  | stateBeginValueOrEmpty => stateBeginValueOrEmpty_ s c
  | stateBeginStringOrEmpty => stateBeginStringOrEmpty_ s c
  | stateBeginString => stateBeginString_ s c
  | stateEndValue => stateEndValue_ s c
  | stateEndTop => stateEndTop_ s c
  | stateInString => stateInString_ s c
  | stateInStringEsc => stateInStringEsc_ s c
  | stateInStringEscU => hexThen stateInStringEscU1 s c
  | stateInStringEscU1 => hexThen stateInStringEscU12 s c
  | stateInStringEscU12 => hexThen stateInStringEscU123 s c
  | stateInStringEscU123 => hexThen stateInString s c
  | stateNeg => stateNeg_ s c
  | state1 => state1_ s c
  | state0 => state0_ s c
  | stateDot => stateDot_ s c
  | stateDot0 => stateDot0_ s c
  | stateE => stateE_ s c
  | stateESign => stateESign_ s c
  | stateE0 => stateE0_ s c
  | stateT => expect "r" stateTr "in literal true (expecting 'r')" s c
  | stateTr => expect "u" stateTru "in literal true (expecting 'u')" s c
  | stateTru => expect "e" stateEndValue "in literal true (expecting 'e')" s c
  | stateF => expect "a" stateFa "in literal false (expecting 'a')" s c
  | stateFa => expect "l" stateFal "in literal false (expecting 'l')" s c
  | stateFal => expect "s" stateFals "in literal false (expecting 's')" s c
  | stateFals => expect "e" stateEndValue "in literal false (expecting 'e')" s c
  | stateN => expect "u" stateNu "in literal null (expecting 'u')" s c
  | stateNu => expect "l" stateNul "in literal null (expecting 'l')" s c
  | stateNul => expect "l" stateEndValue "in literal null (expecting 'l')" s c
  | stateError => (s, scanError)
  end.

End scanner.

(** ** The decoder of [encoding/json]

    A reader is the bytes it will deliver and the error it returns after the
    last of them ([io.EOF] for a complete stream).  The decoder buffers what
    it reads; [dec_r] is what is buffered or still to be read, which is all
    [Decode] can tell apart. *)
Definition Reader : Type := (string * error)%type.

(** The destination of a [Decode]: what unmarshalling the bytes of one
    complete JSON value into it returns; the flag is the decoder's
    [DisallowUnknownFields]. *)
Definition Dest : Type := bool -> string -> option error.

Record Decoder : Type := mkDecoder {
  dec_r : string;
  dec_r_err : error;
  dec_scan : scanner.t;
  dec_err : option error;
  dec_disallowUnknownFields : bool
}.

Definition json_NewDecoder (r : Reader) : Decoder :=
  mkDecoder (fst r) (snd r)
    (scanner.mk scanner.stateBeginValue false [] None 0) None false.

Definition DisallowUnknownFields (dec : Decoder) : Decoder :=
  mkDecoder (dec_r dec) (dec_r_err dec) (dec_scan dec) (dec_err dec) true.

Definition nonSpace (b : string) : bool :=
  existsb (fun c => negb (scanner.isSpace c)) (list_ascii_of_string b).

Definition add_bytes (d : Z) (s : scanner.t) : scanner.t :=
  scanner.mk (scanner.step s) (scanner.endTop s) (scanner.parseState s)
    (scanner.err s) (scanner.bytes s + d).

Inductive readResult : Type :=
| readOk (n : nat) (s : scanner.t)
| readErr (err : error) (s : scanner.t).

(** [dec.readValue()]: [input] is what is left to scan, [scanp] the number
    of bytes scanned, [buf] everything this call has had in its buffer.
    When the input is used up the pending read error [r_err] is looked at. *)
Fixpoint readValue_scan (s : scanner.t) (input : string) (scanp : nat)
    (r_err : error) (buf : string) : readResult :=
  match input with
  | EmptyString =>
      match r_err with
      | io_EOF =>
          let '(s', c) := scanner.step_ s " " in
          match c with
          | scanner.scanEnd => readOk scanp s'
          | _ => if nonSpace buf then readErr io_ErrUnexpectedEOF s'
                 else readErr io_EOF s'
          end
      | _ => readErr r_err s
      end
  | String c rest =>
      let '(s', code) := scanner.step_ (add_bytes 1 s) c in
      match code with
      | scanner.scanEnd => readOk scanp (add_bytes (-1) s')
      | scanner.scanEndObject | scanner.scanEndArray =>
          let '(s'', code') := scanner.stateEndValue_ s' " " in
          match code' with
          | scanner.scanEnd => readOk (S scanp) s''
          | _ => readValue_scan s'' rest (S scanp) r_err buf
          end
      | scanner.scanError =>
          (* [s.err] is set whenever the code is [scanError] *)
          match scanner.err s' with
          | Some e => readErr (scanner.to_error e) s'
          | None => readErr (json_SyntaxError c "" (scanner.bytes s')) s'
          end
      | _ => readValue_scan s' rest (S scanp) r_err buf
      end
  end.

(** [dec.Decode(v)] *)
Definition Decode (dec : Decoder) (v : Dest) : option error * Decoder :=
  match dec_err dec with
  | Some e => (Some e, dec)
  | None =>
      match readValue_scan (scanner.reset (dec_scan dec)) (dec_r dec) 0
              (dec_r_err dec) (dec_r dec) with
      | readErr e s =>
          (Some e,
           mkDecoder (dec_r dec) (dec_r_err dec) s (Some e)
             (dec_disallowUnknownFields dec))
      | readOk n s =>
          (v (dec_disallowUnknownFields dec) (substring 0 n (dec_r dec)),
           mkDecoder (substring n (String.length (dec_r dec) - n) (dec_r dec))
             (dec_r_err dec) s None (dec_disallowUnknownFields dec))
      end
  end.

(** [http.MaxBytesReader(w, r, n)]: the first [n] bytes, then the error of
    [r] if it had no more than [n] bytes and "request body too large"
    otherwise. *)
Definition http_MaxBytesReader (r : Reader) (n : Z) : Reader :=
  let n := Z.to_nat (Z.max 0 n) in
  if (String.length (fst r) <=? n)%nat then r
  else (substring 0 n (fst r), http_MaxBytesError).

(** ** Requests, responses and the platform *)

(** A [FileHeader] is one file part of a parsed multipart form; opening it
    fails or gives a [File] with its bytes and the faults its [Read] and
    [Seek] may raise. *)
Record File : Type := mkFile {
  Data : string;
  ReadFault : option error;
  SeekFault : option error
}.

Record FileHeader : Type := mkFileHeader {
  Filename : string;
  Open : error + File
}.

(** The part of [*http.Request] the package reads or builds.  [Header] is
    keyed by canonical header names; [Body] is the reader of the body. *)
Record Request : Type := mkRequest {
  Method : string;
  URL : string;
  Header : gmap string (list string);
  Body : Reader
}.

Record Response : Type := mkResponse {
  StatusCode : Z;
  Response_Body : Reader
}.

(** An [http.ResponseWriter]: the header map, the status code once
    [WriteHeader] has been called, the bytes written, and the error the
    connection answers a [Write] with. *)
Record ResponseWriter : Type := mkResponseWriter {
  rw_Header : gmap string (list string);
  rw_status : option Z;
  rw_body : string;
  rw_WriteFault : option error
}.

(** How unmarshalling a complete JSON value into a [struct{}] can fail: a
    type mismatch, or an unknown field when those are disallowed. *)
Inductive unmarshalFailure : Type :=
| failType (Value Type_ Struct Field : string) (Offset : Z)
| failUnknownField (key : string).

(** Functions of Go's standard library and faults of the environment that
    the package calls and that are not part of the repository.  [any] stands
    for the values of [interface{}] handed to the JSON functions. *)
Class Platform : Type := {
  any : Type;
  (** [ProbablyPrime(20)] of [math/big] *)
  ProbablyPrime : Z -> bool;
  strconv_Quote : string -> string;
  (** the verb [%q] applied to an [int64] *)
  Sprintf_q_int64 : Z -> string;
  http_DetectContentType : string -> string;
  strings_EqualFold : string -> string -> bool;
  strings_TrimSpace : string -> string;
  filepath_Join : string -> string -> string;
  path_Join : string -> string -> string;
  http_CanonicalHeaderKey : string -> string;
  (** [r.ParseMultipartForm(maxMemory)]: an error, or [r.MultipartForm.File]
      listed in the order the [range] statements visit it. *)
  ParseMultipartForm : Request -> Z -> error + list (string * list FileHeader);
  (** [os.Stat] failing for another reason than a missing path. *)
  os_Stat_fault : string -> option error;
  os_MkdirAll_fault : string -> option error;
  os_Create_fault : State -> string -> option error;
  (** [io.Copy] failing after some bytes were written. *)
  io_Copy_fault : string -> string -> option (nat * error);
  json_Marshal : any -> error + string;
  (** a [JSONResponse] as an [interface{}] value *)
  any_JSONResponse : bool -> string -> option any -> any;
  (** unmarshalling into [&struct{}{}] *)
  unmarshal_struct : bool -> string -> option unmarshalFailure;
  http_ServeFile : State -> ResponseWriter -> Request -> string -> ResponseWriter;
  Client : Type;
  http_Client_zero : Client;
  Client_Do : Client -> Request -> error + Response;
  (** [http.NewRequest] rejecting the URL *)
  http_NewRequest_fault : string -> option error
}.

Section Toolkit.
Context {P : Platform}.

(** [quoteChar] of [encoding/json], used in the text of a syntax error. *)
Definition quoteChar (c : ascii) : string :=
  if Ascii.eqb c "'" then "'\''"
  else if Ascii.eqb c dquote then String "'" (String dquote "'")
  else
    let s := strconv_Quote (String c EmptyString) in
    "'" ++ substring 1 (String.length s - 2) s ++ "'".

(** [err.Error()] *)
Definition Error (e : error) : string :=
  match e with
  | errorString s => s
  | io_EOF => "EOF"
  | io_ErrUnexpectedEOF => "unexpected EOF"
  | json_SyntaxError c context _ =>
      "invalid character " ++ quoteChar c ++ " " ++ context
  | json_UnmarshalTypeError v ty st f _ =>
      if negb (String.eqb st "") || negb (String.eqb f "")
      then "json: cannot unmarshal " ++ v ++ " into Go struct field "
             ++ st ++ "." ++ f ++ " of type " ++ ty
      else "json: cannot unmarshal " ++ v ++ " into Go value of type " ++ ty
  | json_InvalidUnmarshalError ty => "json: Unmarshal(" ++ ty ++ ")"
  | json_MarshalError msg => msg
  | http_MaxBytesError => "http: request body too large"
  | os_PathError op path err => op ++ " " ++ path ++ ": " ++ err
  end.

(** ** RandomString *)

Definition randomStringSource : string :=
  "abcdefghijklmnopqrstuvwxyzABCDEFGHIJKLMNOPQRSTUVWXYZ0123456789_+".

(** [crypto/rand.Prime]: the candidate built from the bytes read has at most
    [bits] bits, its two most significant bits and its lowest bit are set. *)
Definition candidate (bits raw : Z) : Z :=
  Z.lor (Z.lor (raw mod 2 ^ bits) (Z.shiftl 3 (bits - 2))) 1.

(** The loop of [rand.Prime]: read, build the candidate, return it when
    [ProbablyPrime] accepts it; a failing read is returned as the error. *)
Fixpoint Prime_loop (bits : Z) (src : list Z) : (error + Z) * list Z :=
  match src with
  | [] => (inl io_EOF, [])
  | raw :: rest =>
      let p := candidate bits raw in
      if ProbablyPrime p then (inr p, rest) else Prime_loop bits rest
  end.

Definition rand_Prime (bits : Z) : Go (error + Z) :=
  fun st =>
    if (bits <? 2)%Z
    then (Ok (inl (errorString
                     "crypto/rand: prime size must be at least 2-bit")), st)
    else
      let '(r, src') := Prime_loop bits (rand_Reader st) in
      (Ok r, set_rand_Reader src' st).

(** [p.Uint64()]: the low 64 bits of a non-negative [big.Int]. *)
Definition Uint64 (p : Z) : Z := p mod 2 ^ 64.

(** The loop [for i := range s] with [todo] iterations left; the runes these
    iterations store in [s] are returned in order. *)
Fixpoint RandomString_loop (r : list ascii) (todo : nat) : Go (list ascii) :=
  match todo with
  | O => ret []
  | S todo' =>
      res <- rand_Prime (Z.of_nat (length r)) ;;
      match res with
      | inl err => log_Fatal ("Unexpected error " ++ Error err)
      | inr p =>
          let x := Uint64 p in
          let y := Z.of_nat (length r) in
          match r !! Z.to_nat (x mod y) with
          | None => panic "index out of range"
          | Some c =>
              s <- RandomString_loop r todo' ;;
              ret (c :: s)
          end
      end
  end.

Definition RandomString (n : Z) : Go string :=
  if (n <? 0)%Z then panic "makeslice: len out of range"
  else
    let r := list_ascii_of_string randomStringSource in
    s <- RandomString_loop r (Z.to_nat n) ;;
    ret (string_of_list_ascii s).

(** ** CreateDirIfNotExists *)

(** [os.Stat]: a fault of the environment, [fs.ErrNotExist] when the path
    names neither a directory nor a file, success otherwise. *)
Inductive StatResult : Type :=
| StatOk
| StatNotExist
| StatFault (err : error).

Definition os_Stat (path : string) : Go StatResult :=
  fun st =>
    match os_Stat_fault path with
    | Some err => (Ok (StatFault err), st)
    | None =>
        if bool_decide (path ∈ fs_dirs st) || bool_decide (is_Some (fs_files st !! path))
        then (Ok StatOk, st)
        else (Ok StatNotExist, st)
    end.

(** The proper prefixes of [path] that end before a separator: the parents
    [os.MkdirAll] creates.  [seen] holds the characters read, reversed. *)
Fixpoint parents (seen : list ascii) (path : string) : list string :=
  match path with
  | EmptyString => []
  | String c rest =>
      let more := parents (c :: seen) rest in
      if Ascii.eqb c "/" && negb (forallb (Ascii.eqb "/") seen)
      then string_of_list_ascii (rev seen) :: more
      else more
  end.

Definition os_MkdirAll (path : string) : Go (option error) :=
  fun st =>
    match os_MkdirAll_fault path with
    | Some err => (Ok (Some err), st)
    | None =>
        (Ok None,
         set_fs_dirs (fs_dirs st ∪ {[ path ]} ∪ list_to_set (parents [] path)) st)
    end.

Definition CreateDirIfNotExists (path : string) : Go (option error) :=
  if (Z.of_nat (String.length (strings_TrimSpace path)) <? 1)%Z
  then ret (Some (errorString "invalid path"))
  else
    s <- os_Stat path ;;
    match s with
    | StatNotExist =>
        err <- os_MkdirAll path ;;
        match err with
        | Some e => ret (Some e)
        | None => ret None
        end
    | _ => ret None
    end.

(** ** UploadFile and UploadOneFile *)

(** [filepath.Ext]: scan backwards to the last dot of the last element. *)
Fixpoint Ext_scan (backwards : list ascii) (suffix : list ascii) : string :=
  match backwards with
  | [] => ""
  | c :: more =>
      if Ascii.eqb c "/" then ""
      else if Ascii.eqb c "." then string_of_list_ascii (c :: suffix)
      else Ext_scan more (c :: suffix)
  end.

Definition filepath_Ext (path : string) : string :=
  Ext_scan (rev (list_ascii_of_string path)) [].

(** [inFile.Read(buf)] on a fresh file with [buf] of [size] zero bytes: the
    buffer after the call, or the error.  An empty file gives [io.EOF]. *)
Definition zeros (n : nat) : string :=
  string_of_list_ascii (repeat zero n).

Definition File_Read (f : File) (size : nat) : error + string :=
  match ReadFault f with
  | Some err => inl err
  | None =>
      match Data f with
      | EmptyString => inl io_EOF
      | _ =>
          let got := substring 0 size (Data f) in
          inr (got ++ zeros (size - String.length got))
      end
  end.

(** [os.Create]: the file exists and is empty afterwards. *)
Definition os_Create (name : string) : Go (option error) :=
  fun st =>
    match os_Create_fault st name with
    | Some err => (Ok (Some err), st)
    | None => (Ok None, set_fs_files (<[ name := "" ]> (fs_files st)) st)
    end.

(** [io.Copy(outFile, inFile)] from the start of [inFile]. *)
Definition io_Copy (name : string) (data : string) : Go (error + Z) :=
  fun st =>
    match io_Copy_fault name data with
    | Some (written, err) =>
        (Ok (inl err),
         set_fs_files (<[ name := substring 0 written data ]> (fs_files st)) st)
    | None =>
        (Ok (inr (Z.of_nat (String.length data))),
         set_fs_files (<[ name := data ]> (fs_files st)) st)
    end.

Definition errNotPermitted : error :=
  errorString "the uploaded file type is not permitted".

(** The function literal called for every file header.  The deferred
    [inFile.Close()] has no effect on the state modelled here. *)
Definition upload_part (uploadDir : string) (renameFile : bool)
    (hdrs : FileHeader) (uploadedFiles : list UploadedFile)
  : Go (list UploadedFile * option error) :=
  match Open hdrs with
  | inl err => ret ([], Some err)
  | inr inFile =>
      match File_Read inFile 512 with
      | inl err => ret ([], Some err)
      | inr buf =>
          st <- get ;;
          let t := this st in
          let fileType := http_DetectContentType buf in
          let allowed :=
            if (0 <? Z.of_nat (length (AllowedTypes t)))%Z
            then existsb (fun x => strings_EqualFold x fileType) (AllowedTypes t)
            else true in
          if negb allowed then ret ([], Some errNotPermitted)
          else
            match SeekFault inFile with
            | Some err => ret ([], Some err)
            | None =>
                newName <-
                  (if renameFile
                   then s <- RandomString 25 ;;
                        ret (s ++ filepath_Ext (Filename hdrs))
                   else ret (Filename hdrs)) ;;
                let out := filepath_Join uploadDir newName in
                cerr <- os_Create out ;;
                match cerr with
                | Some err => ret ([], Some err)
                | None =>
                    copied <- io_Copy out (Data inFile) ;;
                    match copied with
                    | inl err => ret ([], Some err)
                    | inr fileSize =>
                        ret ((uploadedFiles ++
                                [mkUploadedFile newName (Filename hdrs) fileSize])%list,
                             None)
                    end
                end
            end
      end
  end.

(** [for _, hdrs := range fHeaders], leaving at the first error. *)
Fixpoint range_fHeaders (uploadDir : string) (renameFile : bool)
    (fHeaders : list FileHeader) (upLoadedFiles : list UploadedFile)
  : Go (list UploadedFile * option error) :=
  match fHeaders with
  | [] => ret (upLoadedFiles, None)
  | hdrs :: rest =>
      r <- upload_part uploadDir renameFile hdrs upLoadedFiles ;;
      match snd r with
      | Some err => ret (fst r, Some err)
      | None => range_fHeaders uploadDir renameFile rest (fst r)
      end
  end.

(** [for _, fHeaders := range r.MultipartForm.File]. *)
Fixpoint range_File (uploadDir : string) (renameFile : bool)
    (form : list (string * list FileHeader)) (upLoadedFiles : list UploadedFile)
  : Go (list UploadedFile * option error) :=
  match form with
  | [] => ret (upLoadedFiles, None)
  | (_, fHeaders) :: rest =>
      r <- range_fHeaders uploadDir renameFile fHeaders upLoadedFiles ;;
      match snd r with
      | Some err => ret (fst r, Some err)
      | None => range_File uploadDir renameFile rest (fst r)
      end
  end.

(** The default written into the receiver: 1 GiB. *)
Definition defaultMaxFileSize : Z := 1024 * 1024 * 1024.

Definition set_MaxFileSize (v : Z) (t : Tools) : Tools :=
  mkTools v (AllowedTypes t) (MaxJSONSize t) (AllowUnknownFields t).

(** [UploadFile].  The [log.Println(r)] before [log.Fatal] only writes to
    the log; the [return] after [log.Fatal] is never reached. *)
Definition UploadFile (r : Request) (uploadDir : string) (rename : list bool)
  : Go (list UploadedFile * option error) :=
  let renameFile := match rename with b :: _ => b | [] => true end in
  st <- get ;;
  _ <- (if (MaxFileSize (this st) =? 0)%Z
        then modify (fun st => set_this (set_MaxFileSize defaultMaxFileSize (this st)) st)
        else ret tt) ;;
  st <- get ;;
  match ParseMultipartForm r (MaxFileSize (this st)) with
  | inl err => log_Fatal ("Fatal:" ++ Error err)
  | inr form =>
      derr <- CreateDirIfNotExists uploadDir ;;
      match derr with
      | Some err => ret ([], Some err)
      | None => range_File uploadDir renameFile form []
      end
  end.

Definition UploadOneFile (r : Request) (uploadDir : string) (rename : list bool)
  : Go (option UploadedFile * option error) :=
  let renameFile := match rename with b :: _ => b | [] => true end in
  res <- UploadFile r uploadDir [renameFile] ;;
  match snd res with
  | Some err => ret (None, Some err)
  | None =>
      match fst res with
      | [] => panic "index out of range [0] with length 0"
      | uploadedFile :: _ => ret (Some uploadedFile, None)
      end
  end.

(** ** ReadJSON *)

(** [h.Get(key)]: the first value stored under the canonical key. *)
Definition Header_Get (h : gmap string (list string)) (key : string) : string :=
  match h !! http_CanonicalHeaderKey key with
  | Some (v :: _) => v
  | _ => ""
  end.

(** [h.Set(key, value)] *)
Definition Header_Set (key value : string) (h : gmap string (list string))
  : gmap string (list string) :=
  <[ http_CanonicalHeaderKey key := [value] ]> h.

Definition error_of_unmarshalFailure (f : unmarshalFailure) : error :=
  match f with
  | failType v ty st fld off => json_UnmarshalTypeError v ty st fld off
  | failUnknownField key =>
      errorString ("json: unknown field " ++ strconv_Quote key)
  end.

(** The destination [&struct{}{}] of the second [Decode]. *)
Definition emptyStruct : Dest :=
  fun disallow raw =>
    option_map error_of_unmarshalFailure (unmarshal_struct disallow raw).

Definition errOnlyOneValue : error :=
  errorString "body must contain only one JSON value".

(** The [switch] on the error of the first [Decode]. *)
Definition ReadJSON_classify (maxJSONSize : Z) (err : error) : error :=
  match err with
  | json_SyntaxError _ _ Offset =>
      errorString ("body contains badly formed JSON (at character "
                     ++ Sprintf_q_int64 Offset ++ ") ")
  | io_ErrUnexpectedEOF => errorString "body contains badly formed JSON"
  | json_UnmarshalTypeError _ _ _ Field Offset =>
      if negb (String.eqb Field "")
      then errorString ("body contains incorrect JSON type for field :"
                          ++ strconv_Quote Field)
      else errorString ("body contains invalid JSON at " ++ Sprint_d Offset)
  | io_EOF => errorString "body must not be empty"
  | _ =>
      if HasPrefix (Error err) "json: unknown field"
      then
        let field := TrimPrefix (Error err) "json: unknown field" in
        errorString ("body contains unknown field " ++ strconv_Quote field)
      else if String.eqb (Error err) "http: request body too large"
      then errorString ("body must not be larger than "
                          ++ Sprint_d maxJSONSize ++ " bytes")
      else
        match err with
        | json_InvalidUnmarshalError _ =>
            errorString ("error unnmarshalling JSON " ++ Error err)
        | _ => err
        end
  end.

Definition ReadJSON (t : Tools) (w : ResponseWriter) (r : Request) (data : Dest)
  : option error :=
  let maxJSONSize :=
    if (MaxJSONSize t >? 0)%Z then MaxJSONSize t else (1024 * 1024)%Z in
  if negb (String.eqb (Header_Get (Header r) "content-type") "application/json")
  then Some (errorString ("unexpected content type of " ++ String dquote
                            (Header_Get (Header r) "content-type"
                               ++ String dquote "")))
  else
    let body := http_MaxBytesReader (Body r) maxJSONSize in
    let dec := json_NewDecoder body in
    let dec := if negb (AllowUnknownFields t)
               then DisallowUnknownFields dec else dec in
    let '(err, dec) := Decode dec data in
    match err with
    | Some err => Some (ReadJSON_classify maxJSONSize err)
    | None =>
        let '(err, _) := Decode dec emptyStruct in
        match err with
        | Some io_EOF => None
        | _ => Some errOnlyOneValue
        end
    end.

(** ** WriteJSON and ErrorJSON *)

Definition rw_Set (key value : string) (w : ResponseWriter) : ResponseWriter :=
  mkResponseWriter (Header_Set key value (rw_Header w)) (rw_status w)
    (rw_body w) (rw_WriteFault w).

(** [w.WriteHeader(status)]: only the first call counts. *)
Definition rw_WriteHeader (status : Z) (w : ResponseWriter) : ResponseWriter :=
  match rw_status w with
  | Some _ => w
  | None => mkResponseWriter (rw_Header w) (Some status) (rw_body w)
              (rw_WriteFault w)
  end.

(** [w.Write(out)]: the status defaults to 200 when none was written. *)
Definition rw_Write (out : string) (w : ResponseWriter)
  : ResponseWriter * option error :=
  let w := rw_WriteHeader 200 w in
  match rw_WriteFault w with
  | Some err => (w, Some err)
  | None =>
      (mkResponseWriter (rw_Header w) (rw_status w) (rw_body w ++ out)
         (rw_WriteFault w), None)
  end.

(** [for k, vs := range headers[0] { for _, v := range vs { ... } }], the
    map listed in the order the [range] visits it. *)
Definition set_all (hs : list (string * list string)) (w : ResponseWriter)
  : ResponseWriter :=
  fold_left (fun w kvs => fold_left (fun w v => rw_Set (fst kvs) v w) (snd kvs) w)
    hs w.

Definition WriteJSON (w : ResponseWriter) (status : Z) (data : any)
    (headers : list (list (string * list string)))
  : ResponseWriter * option error :=
  match json_Marshal data with
  | inl err => (w, Some err)
  | inr out =>
      let w := match headers with
               | h :: _ => set_all h w
               | [] => w
               end in
      let w := rw_Set "content-type" "application/json" w in
      let w := rw_WriteHeader status w in
      match rw_Write out w with
      | (w, Some err) => (w, Some err)
      | (w, None) => (w, None)
      end
  end.

Record JSONResponse : Type := mkJSONResponse {
  JSONResponse_Error : bool;
  JSONResponse_Message : string;
  JSONResponse_Data : option any
}.

Definition any_of (jr : JSONResponse) : any :=
  any_JSONResponse (JSONResponse_Error jr) (JSONResponse_Message jr)
    (JSONResponse_Data jr).

Definition http_StatusBadRequest : Z := 400.
Definition http_StatusInternalServerError : Z := 500.

Definition ErrorJSON (w : ResponseWriter) (err : error) (status : list Z)
  : ResponseWriter * option error :=
  let jr := mkJSONResponse true (Error err) None in
  let statusCode := match status with
                    | c :: _ => c
                    | [] => http_StatusBadRequest
                    end in
  WriteJSON w statusCode (any_of jr) [].

(** ** DownLoadStaticFile and PushJSONToRemote *)

Definition DownLoadStaticFile (st : State) (w : ResponseWriter) (r : Request)
    (p file displayName : string) : ResponseWriter :=
  let f := path_Join p file in
  let w := rw_Set "content-disposition"
             ("attachment; filename=" ++ String dquote
                (displayName ++ String dquote "")) w in
  http_ServeFile st w r f.

Definition http_NewRequest (method url : string) (body : string)
  : error + Request :=
  match http_NewRequest_fault url with
  | Some err => inl err
  | None => inr (mkRequest method url ∅ (body, io_EOF))
  end.

Definition PushJSONToRemote (uri : string) (data : any) (client : list Client)
  : option Response * Z * option error :=
  match json_Marshal data with
  | inl err => (None, http_StatusBadRequest, Some err)
  | inr jd =>
      let httpClient := match client with
                        | c :: _ => c
                        | [] => http_Client_zero
                        end in
      match http_NewRequest "POST" uri jd with
      | inl err => (None, http_StatusInternalServerError, Some err)
      | inr req =>
          let req := mkRequest (Method req) (URL req)
                       (Header_Set "content-type" "application/json" (Header req))
                       (Body req) in
          match Client_Do httpClient req with
          | inl err => (None, 0%Z, Some err)
          | inr resp => (Some resp, StatusCode resp, None)
          end
      end
  end.

(** ** Every operation of the package

    One constructor for each method of [*Tools] with its arguments; [call]
    runs it on the receiver held in the state and drops the results. *)
Inductive Call : Type :=
| Call_RandomString (n : Z)
| Call_UploadOneFile (r : Request) (uploadDir : string) (rename : list bool)
| Call_UploadFile (r : Request) (uploadDir : string) (rename : list bool)
| Call_CreateDirIfNotExists (path : string)
| Call_Slugify (s : string)
| Call_DownLoadStaticFile (w : ResponseWriter) (r : Request)
    (p file displayName : string)
| Call_ReadJSON (w : ResponseWriter) (r : Request) (data : Dest)
| Call_WriteJSON (w : ResponseWriter) (status : Z) (data : any)
    (headers : list (list (string * list string)))
| Call_ErrorJSON (w : ResponseWriter) (err : error) (status : list Z)
| Call_PushJSONToRemote (uri : string) (data : any) (client : list Client).

Definition discard {A} (m : Go A) : Go unit := _ <- m ;; ret tt.

Definition call (c : Call) : Go unit :=
  match c with
  | Call_RandomString n => discard (RandomString n)
  | Call_UploadOneFile r uploadDir rename =>
      discard (UploadOneFile r uploadDir rename)
  | Call_UploadFile r uploadDir rename =>
      discard (UploadFile r uploadDir rename)
  | Call_CreateDirIfNotExists path => discard (CreateDirIfNotExists path)
  | Call_Slugify s => discard (ret (Slugify s))
  | Call_DownLoadStaticFile w r p file displayName =>
      st <- get ;; discard (ret (DownLoadStaticFile st w r p file displayName))
  | Call_ReadJSON w r data =>
      st <- get ;; discard (ret (ReadJSON (this st) w r data))
  | Call_WriteJSON w status data headers =>
      discard (ret (WriteJSON w status data headers))
  | Call_ErrorJSON w err status => discard (ret (ErrorJSON w err status))
  | Call_PushJSONToRemote uri data client =>
      discard (ret (PushJSONToRemote uri data client))
  end.

Definition is_upload (c : Call) : bool :=
  match c with
  | Call_UploadOneFile _ _ _ | Call_UploadFile _ _ _ => true
  | _ => false
  end.

End Toolkit.

(** ** Notions used in the statements *)

(** The primes [rand.Prime] returns from a source, in order: the candidates
    that [ProbablyPrime] accepts. *)
Definition draws `{P : Platform} (bits : Z) (src : list Z) : list Z :=
  filter (fun p => ProbablyPrime p = true) (map (candidate bits) src).

Definition alphabet : list ascii := list_ascii_of_string randomStringSource.

(** The index [RandomString] computes from a prime. *)
Definition index_of (p : Z) : nat := Z.to_nat (Uint64 p mod 64).

(** [keeps f m]: the call [m] does not change the component [f] of the
    state, whatever its outcome. *)
Definition keeps {A X} (f : State -> X) (m : Go A) : Prop :=
  forall st, f (snd (m st)) = f st.

(** The state after the first statement of [UploadFile]. *)
Definition defaulted (st : State) : State :=
  if (MaxFileSize (this st) =? 0)%Z
  then set_this (set_MaxFileSize defaultMaxFileSize (this st)) st
  else st.

(** The value of [renameFile] for the variadic argument [rename]. *)
Definition renameFile_of (rename : list bool) : bool :=
  match rename with b :: _ => b | [] => true end.

Definition is_EOF (e : error) : bool :=
  match e with io_EOF => true | _ => false end.

(** The decoder [ReadJSON] builds for a request. *)
Definition ReadJSON_decoder (t : Tools) (r : Request) : Decoder :=
  let maxJSONSize :=
    if (MaxJSONSize t >? 0)%Z then MaxJSONSize t else (1024 * 1024)%Z in
  let dec := json_NewDecoder (http_MaxBytesReader (Body r) maxJSONSize) in
  if negb (AllowUnknownFields t) then DisallowUnknownFields dec else dec.

(** [relates R m]: the states before and after the call [m] are related by
    [R], whatever its outcome. *)
Definition relates {A} (R : State -> State -> Prop) (m : Go A) : Prop :=
  forall st, R st (snd (m st)).

(** The file system only grows: the directories stay, and so do the names
    of the files. *)
Definition fs_grows (st st' : State) : Prop :=
  fs_dirs st ⊆ fs_dirs st'
  /\ forall name, is_Some (fs_files st !! name) -> is_Some (fs_files st' !! name).

(** A path [os.Stat] finds: a directory or a file. *)
Definition exists_path (st : State) (path : string) : Prop :=
  path ∈ fs_dirs st \/ is_Some (fs_files st !! path).

(** The shape of a string: its first and last character, two equal
    neighbours. *)
Definition starts_with (cut : ascii) (s : string) : bool :=
  match s with
  | String c _ => Ascii.eqb c cut
  | EmptyString => false
  end.

Fixpoint ends_with (cut : ascii) (s : string) : bool :=
  match s with
  | EmptyString => false
  | String c EmptyString => Ascii.eqb c cut
  | String _ rest => ends_with cut rest
  end.

Fixpoint has_double (cut : ascii) (s : string) : bool :=
  match s with
  | EmptyString => false
  | String c rest => (Ascii.eqb c cut && starts_with cut rest) || has_double cut rest
  end.

(** [record_of renameFile hdrs rec]: [rec] is the record of the file part
    [hdrs]: its original name, the number of its bytes, and its stored name,
    which is the original one or 25 characters of the alphabet followed by
    the extension of the original one. *)
Definition record_of `{P : Platform} (renameFile : bool) (hdrs : FileHeader)
    (rec : UploadedFile) : Prop :=
  OriginalFileName rec = Filename hdrs
  /\ (exists f, Open hdrs = inr f
                /\ FileSize rec = Z.of_nat (String.length (Data f))
                /\ (1 <= FileSize rec)%Z)
  /\ (if renameFile
      then exists s, NewFileName rec = s ++ filepath_Ext (Filename hdrs)
                     /\ String.length s = 25%nat
                     /\ Forall (fun c => In c alphabet) (list_ascii_of_string s)
      else NewFileName rec = Filename hdrs).

(** The statement of the function literal that computes the stored name. *)
Definition newName_of `{P : Platform} (renameFile : bool) (hdrs : FileHeader)
  : Go string :=
  if renameFile
  then s <- RandomString 25 ;; ret (s ++ filepath_Ext (Filename hdrs))
  else ret (Filename hdrs).

(** The file of a record is there. *)
Definition stored `{P : Platform} (uploadDir : string) (st : State)
    (rec : UploadedFile) : Prop :=
  is_Some (fs_files st !! filepath_Join uploadDir (NewFileName rec)).

(** The errors of the decoder and of the capped body reader, which
    [ReadJSON] turns into messages of its own. *)
Definition is_raw_decoder_error (e : error) : bool :=
  match e with
  | io_EOF | io_ErrUnexpectedEOF | json_SyntaxError _ _ _
  | json_UnmarshalTypeError _ _ _ _ _ | json_InvalidUnmarshalError _
  | http_MaxBytesError => true
  | _ => false
  end.

(** The writer after the headers of the caller that [WriteJSON] uses, those
    of the first argument, are set. *)
Definition first_headers `{P : Platform}
    (headers : list (list (string * list string))) (w : ResponseWriter)
  : ResponseWriter :=
  match headers with
  | h :: _ => set_all h w
  | [] => w
  end.

(** The limit [ReadJSON] puts on the body. *)
Definition maxJSONSize_of (t : Tools) : Z :=
  if (MaxJSONSize t >? 0)%Z then MaxJSONSize t else (1024 * 1024)%Z.

(** ** A concrete platform

    An instance of [Platform] on which the definitions above can be run: a
    Miller-Rabin test for [ProbablyPrime], signature sniffing for two image
    types, ASCII case folding, no faults of the environment, and a toy
    multipart encoding (every file part is closed by a semicolon).  It is
    used to run the model on concrete requests. *)
Module Example.

Fixpoint pow_mod (a : Z) (e : positive) (n : Z) : Z :=
  match e with
  | xH => a mod n
  | xO e' => let r := pow_mod a e' n in (r * r) mod n
  | xI e' => let r := pow_mod a e' n in ((r * r) mod n * a) mod n
  end%Z.

(** [n - 1 = d * 2 ^ s] with [d] odd. *)
Fixpoint split2 (m : positive) : nat * positive :=
  match m with
  | xO m' => let '(s, d) := split2 m' in (S s, d)
  | _ => (O, m)
  end.

Fixpoint squares (s : nat) (x n : Z) : bool :=
  match s with
  | O => false
  | S s' =>
      let x' := (x * x mod n)%Z in
      if (x' =? n - 1)%Z then true else squares s' x' n
  end.

Definition strong_probable_prime (n a : Z) : bool :=
  match (n - 1)%Z with
  | Zpos m =>
      let '(s, d) := split2 m in
      if (a mod n =? 0)%Z then true
      else
        let x := pow_mod a d n in
        (x =? 1)%Z || (x =? n - 1)%Z || squares (Nat.pred s) x n
  | _ => false
  end.

Definition millerRabin (n : Z) : bool :=
  if (n <? 2)%Z then false
  else if (n <? 4)%Z then true
  else if Z.even n then false
  else forallb (strong_probable_prime n)
         [2; 3; 5; 7; 11; 13; 17; 19; 23; 29; 31; 37]%Z.

Definition Quote (s : string) : string := String dquote (s ++ String dquote "").

Definition jpegMagic : string :=
  String (ascii_of_nat 255) (String (ascii_of_nat 216) (String (ascii_of_nat 255) "")).
Definition pngMagic : string := String (ascii_of_nat 137) "PNG".

Definition DetectContentType (buf : string) : string :=
  if HasPrefix buf jpegMagic then "image/jpeg"
  else if HasPrefix buf pngMagic then "image/png"
  else "application/octet-stream".

Fixpoint map_string (f : ascii -> ascii) (s : string) : string :=
  match s with
  | EmptyString => EmptyString
  | String c rest => String (f c) (map_string f rest)
  end.

Definition EqualFold (a b : string) : bool :=
  String.eqb (map_string lowerASCII a) (map_string lowerASCII b).

Definition upperASCII (c : ascii) : ascii :=
  if inRange "a" "z" c then ascii_of_nat (nat_of_ascii c - 32) else c.

Fixpoint canonical (upper : bool) (s : string) : string :=
  match s with
  | EmptyString => EmptyString
  | String c rest =>
      String (if upper then upperASCII c else lowerASCII c)
        (canonical (Ascii.eqb c "-") rest)
  end.

(** The toy multipart encoding: the content of each part up to its closing
    semicolon. *)
Fixpoint split_parts (cur : list ascii) (body : string) : list string :=
  match body with
  | EmptyString => []
  | String c rest =>
      if Ascii.eqb c ";"
      then string_of_list_ascii (rev cur) :: split_parts [] rest
      else split_parts (c :: cur) rest
  end.

Definition errNotMultipart : error :=
  errorString "request Content-Type isn't multipart/form-data".

Definition parse (r : Request) (maxMemory : Z)
  : error + list (string * list FileHeader) :=
  match Header r !! "Content-Type" with
  | Some ("multipart/form-data" :: _) =>
      inr (map (fun data =>
                  ("file", [mkFileHeader "upload.bin" (inr (mkFile data None None))]))
             (split_parts [] (fst (Body r))))
  | _ => inl errNotMultipart
  end.

(** Values handed to [json.Marshal]: a string, or a value it cannot
    serialise (a channel). *)
Inductive value : Type :=
| VString (s : string)
| VChan.

Definition Marshal (v : value) : error + string :=
  match v with
  | VString s => inr (Quote s)
  | VChan => inl (json_MarshalError "json: unsupported type: chan int")
  end.

Definition firstNonSpace (raw : string) : option ascii :=
  match TrimLeft (TrimLeft raw " ") (ascii_of_nat 10) with
  | String c _ => Some c
  | EmptyString => None
  end.

Definition unmarshalStruct (disallow : bool) (raw : string)
  : option unmarshalFailure :=
  match firstNonSpace raw with
  | Some "{"%char | Some "n"%char | None => None
  | Some _ => Some (failType "value" "struct {}" "" "" 0)
  end.

Definition ServeFile (st : State) (w : ResponseWriter) (r : Request)
    (name : string) : ResponseWriter :=
  match fs_files st !! name with
  | Some data =>
      mkResponseWriter (rw_Header w) (Some 200%Z) (rw_body w ++ data)
        (rw_WriteFault w)
  | None =>
      mkResponseWriter (rw_Header w) (Some 404%Z) (rw_body w) (rw_WriteFault w)
  end.

Definition platform : Platform := {|
  any := value;
  ProbablyPrime := millerRabin;
  strconv_Quote := Quote;
  Sprintf_q_int64 := fun z => "'" ++ String (ascii_of_nat (Z.to_nat z)) "'";
  http_DetectContentType := DetectContentType;
  strings_EqualFold := EqualFold;
  strings_TrimSpace := fun s => Trim s " ";
  filepath_Join := fun dir name => dir ++ "/" ++ name;
  path_Join := fun dir name => dir ++ "/" ++ name;
  http_CanonicalHeaderKey := canonical true;
  ParseMultipartForm := parse;
  os_Stat_fault := fun _ => None;
  os_MkdirAll_fault := fun _ => None;
  os_Create_fault := fun _ _ => None;
  io_Copy_fault := fun _ _ => None;
  json_Marshal := Marshal;
  any_JSONResponse := fun _ msg _ => VString msg;
  unmarshal_struct := unmarshalStruct;
  http_ServeFile := ServeFile;
  Client := unit;
  http_Client_zero := tt;
  Client_Do := fun _ _ => inr (mkResponse 200 ("", io_EOF));
  http_NewRequest_fault := fun _ => None
|}.

Definition t0 : Tools := mkTools 0 [] 0 false.
Definition st0 : State := mkState t0 [] ∅ ∅.

Definition w0 : ResponseWriter := mkResponseWriter ∅ None "" None.

(** Requests with a JSON body. *)
Definition newline : string := String (ascii_of_nat 10) "".
Definition foo_bar : string := "{" ++ Quote "foo" ++ ": " ++ Quote "bar" ++ "}".
Definition jsonRequest (body : string) : Request :=
  mkRequest "POST" "/" {[ "Content-Type" := ["application/json"] ]}
    (body, io_EOF).
(** A destination every JSON value decodes into, such as [*interface{}]. *)
Definition anyDest : Dest := fun _ _ => None.

(** Requests with a multipart body. *)
Definition uploadRequest (body : string) : Request :=
  mkRequest "POST" "/" {[ "Content-Type" := ["multipart/form-data"] ]}
    (body, io_EOF).
Definition jpegData : string := jpegMagic ++ "JFIF".
Definition part (data : string) : FileHeader :=
  mkFileHeader "upload.bin" (inr (mkFile data None None)).

(** A random source on which [rand.Prime] finds four primes. *)
Definition source : list Z := [16; 40; 76; 18446744073709551557; 90]%Z.
Definition st_source : State := mkState t0 source ∅ ∅.

(** An upload of three parts, a JPEG image, a text and a JPEG image, to a
    receiver that allows JPEG images only. *)
Definition tJPEG : Tools := mkTools 0 ["IMAGE/JPEG"] 0 false.
Definition stJPEG : State := mkState tJPEG [] ∅ ∅.
Definition threeParts : string := jpegData ++ ";hello;" ++ jpegData ++ ";".
Definition stJPEG_dir : State :=
  mkState (mkTools defaultMaxFileSize ["IMAGE/JPEG"] 0 false) [] {[ "up" ]} ∅.
Definition stJPEG_stored : State :=
  mkState (mkTools defaultMaxFileSize ["IMAGE/JPEG"] 0 false) [] {[ "up" ]}
    {[ "up/upload.bin" := jpegData ]}.

(** The same for a receiver that allows every type. *)
Definition st0_dir : State :=
  mkState (mkTools defaultMaxFileSize [] 0 false) [] {[ "up" ]} ∅.
Definition st0_stored : State :=
  mkState (mkTools defaultMaxFileSize [] 0 false) [] {[ "up" ]}
    {[ "up/upload.bin" := jpegData ]}.

Definition tJSON : Tools := mkTools 0 [] 1024 false.

(** A state in which [up] is a regular file. *)
Definition st_file : State := mkState t0 [] ∅ {[ "up" := "data" ]}.

(** A random source with 25 primes, enough for one stored name. *)
Definition source25 : list Z := repeat 16%Z 25.
Definition st_source25 : State := mkState t0 source25 ∅ ∅.
Definition name25 : string := "rrrrrrrrrrrrrrrrrrrrrrrrr".

(** A destination without the field [fooXYZ]. *)
Definition fooDest : Dest :=
  fun disallow _ =>
    if disallow
    then Some (errorString ("json: unknown field " ++ Quote "fooXYZ"))
    else None.

(** A writer whose connection is closed. *)
Definition errClosed : error := errorString "connection closed".
Definition w_closed : ResponseWriter :=
  mkResponseWriter ∅ None "" (Some errClosed).

(** An upload of two parts with one name, an image and then a text, and
    the state after it. *)
Definition twoParts : string := jpegData ++ ";hello;".
Definition twoParts_form : list (string * list FileHeader) :=
  [("file", [part jpegData]); ("file", [part "hello"])].
Definition twoParts_files : list UploadedFile :=
  [mkUploadedFile "upload.bin" "upload.bin" 7;
   mkUploadedFile "upload.bin" "upload.bin" 5].
Definition st0_hello : State :=
  mkState (mkTools defaultMaxFileSize [] 0 false) [] {[ "up" ]}
    {[ "up/upload.bin" := "hello" ]}.

(** An upload of one image under a random name, and the state after it. *)
Definition onePart : string := jpegData ++ ";".
Definition onePart_form : list (string * list FileHeader) :=
  [("file", [part jpegData])].
Definition renamed : UploadedFile :=
  mkUploadedFile (name25 ++ ".bin") "upload.bin" 7.
Definition st25_stored : State :=
  mkState (mkTools defaultMaxFileSize [] 0 false) [] {[ "up" ]}
    {[ "up/" ++ name25 ++ ".bin" := jpegData ]}.

(** Headers of a caller who sets a content type of their own. *)
Definition callerHeaders : list (string * list string) :=
  [("content-type", ["text/plain"]); ("x-trace", ["1"; "2"]);
   ("x-other", ["a"])].

End Example.

(** * Properties *)

(** ** The random source *)

Section RandomStringFacts.
Context {P : Platform}.

Lemma candidate_odd bits raw : Z.odd (candidate bits raw) = true.
Proof.
  unfold candidate. rewrite <- Z.bit0_odd, Z.lor_spec.
  apply orb_true_r.
Qed.

Lemma Prime_loop_odd bits src p rest :
  Prime_loop bits src = (inr p, rest) -> Z.odd p = true.
Proof.
  induction src as [|raw src IH]; simpl; [discriminate|].
  destruct (ProbablyPrime (candidate bits raw)); [|exact IH].
  intros [= <- _]. apply candidate_odd.
Qed.

(** A prime larger than two is odd: the oddness of what [rand.Prime]
    returns does not hinge on how candidates are built. *)
Lemma prime_gt_2_odd p : Z.prime p -> (2 < p)%Z -> Z.odd p = true.
Proof.
  intros [_ Hp] Hlt. destruct (Z.odd p) eqn:E; [reflexivity|].
  exfalso. rewrite <- Z.negb_even in E. apply negb_false_iff in E.
  apply Z.even_spec in E. destruct E as [k ->].
  apply (Hp 2%Z); [lia|]. exists k. lia.
Qed.

Lemma Nat_odd_Z_odd n : Nat.odd n = Z.odd (Z.of_nat n).
Proof.
  induction n as [n IH] using (well_founded_induction lt_wf).
  destruct n as [|[|n]]; try reflexivity.
  rewrite !Nat2Z.inj_succ, Z.odd_succ_succ, <- IH by lia. reflexivity.
Qed.

Lemma index_of_odd p : Z.odd p = true -> Nat.odd (index_of p) = true.
Proof.
  intros Hp. unfold index_of, Uint64.
  assert (H64 : (0 <= (p mod 2 ^ 64) mod 64 < 64)%Z)
    by (apply Z.mod_pos_bound; lia).
  assert (Hodd : Z.odd ((p mod 2 ^ 64) mod 64) = true).
  { rewrite <- Z.bit0_odd in *.
    change 64%Z with (2 ^ 6)%Z at 2.
    rewrite !Z.mod_pow2_bits_low by lia. exact Hp. }
  rewrite Nat_odd_Z_odd, Z2Nat.id by lia. exact Hodd.
Qed.

Lemma index_of_lt p : (index_of p < 64)%nat.
Proof.
  unfold index_of, Uint64.
  assert ((0 <= (p mod 2 ^ 64) mod 64 < 64)%Z) by (apply Z.mod_pos_bound; lia).
  lia.
Qed.

Lemma length_string_of_list_ascii (l : list ascii) :
  String.length (string_of_list_ascii l) = length l.
Proof. induction l as [|c l IH]; simpl; [reflexivity|now rewrite IH]. Qed.

Lemma alphabet_length : length alphabet = 64%nat.
Proof. reflexivity. Qed.

(** One iteration of the loop of [RandomString]. *)
Lemma RandomString_loop_S k st :
  RandomString_loop alphabet (S k) st =
  match Prime_loop 64 (rand_Reader st) with
  | (inl err, src') =>
      (Fatal ("Unexpected error " ++ Error err), set_rand_Reader src' st)
  | (inr p, src') =>
      match alphabet !! index_of p with
      | None => (Panic "index out of range", set_rand_Reader src' st)
      | Some c =>
          match RandomString_loop alphabet k (set_rand_Reader src' st) with
          | (Ok s, st') => (Ok (c :: s), st')
          | (Fatal msg, st') => (Fatal msg, st')
          | (Panic msg, st') => (Panic msg, st')
          end
      end
  end.
Proof.
  cbn [RandomString_loop]. unfold bind at 1, rand_Prime.
  rewrite alphabet_length. change (Z.of_nat 64) with 64%Z.
  change (64 <? 2)%Z with false. cbv iota.
  destruct (Prime_loop 64 (rand_Reader st)) as [[err|p] src']; [reflexivity|].
  fold (index_of p).
  destruct (alphabet !! index_of p) as [c|]; [|reflexivity].
  unfold bind, ret.
  destruct (RandomString_loop alphabet k (set_rand_Reader src' st)) as [[s|m|m] st'];
    reflexivity.
Qed.

Lemma alphabet_lookup p : exists c, alphabet !! index_of p = Some c.
Proof.
  apply lookup_lt_is_Some. rewrite alphabet_length. apply index_of_lt.
Qed.

Lemma Prime_loop_draws bits src p ds :
  draws bits src = p :: ds ->
  exists rest, Prime_loop bits src = (inr p, rest) /\ draws bits rest = ds.
Proof.
  unfold draws. induction src as [|raw src IH]; simpl; [discriminate|].
  rewrite filter_cons.
  destruct (decide (ProbablyPrime (candidate bits raw) = true)) as [E|E].
  - rewrite E. intros [= <- <-]. eauto.
  - apply not_true_is_false in E. rewrite E. exact IH.
Qed.

Lemma RandomString_loop_returns k : forall st,
  (k <= length (draws 64 (rand_Reader st)))%nat ->
  exists s st',
    RandomString_loop alphabet k st = (Ok s, st')
    /\ length s = k
    /\ Forall (fun c => In c alphabet) s.
Proof.
  induction k as [|k IH]; intros st Hk.
  - exists [], st. repeat split. constructor.
  - destruct (draws 64 (rand_Reader st)) as [|p ds] eqn:E; [simpl in Hk; lia|].
    destruct (Prime_loop_draws _ _ _ _ E) as (rest & HP & Hds).
    destruct (alphabet_lookup p) as [c Hc].
    destruct (IH (set_rand_Reader rest st)) as (s & st' & Hs & Hlen & Hall).
    { simpl. rewrite Hds. simpl in Hk. lia. }
    exists (c :: s), st'. rewrite RandomString_loop_S, HP, Hc, Hs.
    repeat split; [simpl; lia|].
    constructor; [|exact Hall].
    apply list_elem_of_In. eapply list_elem_of_lookup_2. exact Hc.
Qed.

(** A source that runs dry: the process ends. *)
Lemma Prime_loop_dry bits src :
  draws bits src = [] -> Prime_loop bits src = (inl io_EOF, []).
Proof.
  unfold draws. induction src as [|raw src IH]; simpl; [reflexivity|].
  rewrite filter_cons.
  destruct (decide (ProbablyPrime (candidate bits raw) = true)) as [E|E];
    [discriminate|].
  apply not_true_is_false in E. rewrite E. exact IH.
Qed.

Lemma RandomString_loop_fatal k : forall st,
  (length (draws 64 (rand_Reader st)) < k)%nat ->
  exists st', RandomString_loop alphabet k st
              = (Fatal ("Unexpected error " ++ Error io_EOF), st').
Proof.
  induction k as [|k IH]; intros st Hk; [lia|].
  rewrite RandomString_loop_S.
  destruct (draws 64 (rand_Reader st)) as [|p ds] eqn:E.
  - rewrite (Prime_loop_dry _ _ E). eauto.
  - destruct (Prime_loop_draws _ _ _ _ E) as (rest & HP & Hds).
    destruct (alphabet_lookup p) as [c Hc]. rewrite HP, Hc.
    destruct (IH (set_rand_Reader rest st)) as [st' ->]; [|eauto].
    simpl. rewrite Hds. simpl in Hk. lia.
Qed.

Lemma RandomString_loop_odd k : forall st s st',
  RandomString_loop alphabet k st = (Ok s, st') ->
  Forall (fun c => exists i, alphabet !! i = Some c /\ Nat.odd i = true) s.
Proof.
  induction k as [|k IH]; intros st s st'.
  - intros [= <- _]. constructor.
  - rewrite RandomString_loop_S.
    destruct (Prime_loop 64 (rand_Reader st)) as [[err|p] src'] eqn:HP;
      [discriminate|].
    destruct (alphabet !! index_of p) as [c|] eqn:Hc; [|discriminate].
    destruct (RandomString_loop alphabet k (set_rand_Reader src' st))
      as [[s0|m|m] st0] eqn:Hs; try discriminate.
    intros [= <- <-]. constructor; [|eapply IH; exact Hs].
    exists (index_of p). split; [exact Hc|].
    apply index_of_odd. eapply Prime_loop_odd. exact HP.
Qed.

(** The loop leaves the receiver and the file system alone. *)
Lemma RandomString_loop_frame k : forall st,
  let st' := snd (RandomString_loop alphabet k st) in
  this st' = this st /\ fs_dirs st' = fs_dirs st /\ fs_files st' = fs_files st.
Proof.
  induction k as [|k IH]; intros st; [simpl; auto|].
  cbv zeta. rewrite RandomString_loop_S.
  destruct (Prime_loop 64 (rand_Reader st)) as [[err|p] src']; [simpl; auto|].
  destruct (alphabet !! index_of p) as [c|]; [|simpl; auto].
  specialize (IH (set_rand_Reader src' st)). cbv zeta in IH.
  destruct (RandomString_loop alphabet k (set_rand_Reader src' st))
    as [[s0|m|m] st0]; simpl in *; exact IH.
Qed.

Lemma RandomString_frame n st :
  let st' := snd (RandomString n st) in
  this st' = this st /\ fs_dirs st' = fs_dirs st /\ fs_files st' = fs_files st.
Proof.
  cbv zeta. unfold RandomString.
  destruct (n <? 0)%Z; [simpl; auto|].
  fold alphabet. unfold bind, ret.
  pose proof (RandomString_loop_frame (Z.to_nat n) st) as H. cbv zeta in H.
  destruct (RandomString_loop alphabet (Z.to_nat n) st) as [[s|m|m] st'];
    simpl in *; exact H.
Qed.

End RandomStringFacts.

(** ** What a call leaves unchanged *)

Section Frames.
Context {P : Platform} {X : Type} (f : State -> X).

Lemma keeps_ret {A} (a : A) : keeps f (ret a).
Proof. intros st. reflexivity. Qed.

Lemma keeps_get : keeps f get.
Proof. intros st. reflexivity. Qed.

Lemma keeps_log_Fatal {A} msg : keeps f (@log_Fatal A msg).
Proof. intros st. reflexivity. Qed.

Lemma keeps_panic {A} msg : keeps f (@panic A msg).
Proof. intros st. reflexivity. Qed.

Lemma keeps_bind {A B} (m : Go A) (k : A -> Go B) :
  keeps f m -> (forall a, keeps f (k a)) -> keeps f (bind m k).
Proof.
  intros Hm Hk st. unfold bind. specialize (Hm st).
  destruct (m st) as [[a|msg|msg] st1]; simpl in *; try exact Hm.
  rewrite Hk. exact Hm.
Qed.

Lemma keeps_discard {A} (m : Go A) : keeps f m -> keeps f (discard m).
Proof. intros Hm. apply keeps_bind; [exact Hm|]. intros a. apply keeps_ret. Qed.

End Frames.

Create HintDb frame.
#[export] Hint Resolve keeps_ret keeps_get keeps_log_Fatal keeps_panic
  keeps_discard : frame.

Ltac frame_step :=
  first [ solve [auto with frame]
        | apply keeps_bind; [|intros ?]
        | match goal with
          | |- keeps _ (match ?x with _ => _ end) => destruct x
          | |- keeps _ (if ?b then _ else _) => destruct b
          end ].

Ltac frame := repeat frame_step.

Section UploadFacts.
Context {P : Platform}.

Lemma RandomString_keeps_this n : keeps this (RandomString n).
Proof. intros st. apply RandomString_frame. Qed.

Lemma RandomString_keeps_files n : keeps fs_files (RandomString n).
Proof. intros st. apply RandomString_frame. Qed.

Lemma os_Stat_keeps {X} (f : State -> X) path : keeps f (os_Stat path).
Proof.
  intros st. unfold os_Stat. destruct (os_Stat_fault path); [reflexivity|].
  destruct (_ || _); reflexivity.
Qed.

Lemma os_MkdirAll_keeps_this path : keeps this (os_MkdirAll path).
Proof. intros st. unfold os_MkdirAll. destruct (os_MkdirAll_fault path); reflexivity. Qed.

Lemma os_MkdirAll_keeps_files path : keeps fs_files (os_MkdirAll path).
Proof. intros st. unfold os_MkdirAll. destruct (os_MkdirAll_fault path); reflexivity. Qed.

Lemma os_MkdirAll_keeps_rand path : keeps rand_Reader (os_MkdirAll path).
Proof. intros st. unfold os_MkdirAll. destruct (os_MkdirAll_fault path); reflexivity. Qed.

Lemma os_Create_keeps_this name : keeps this (os_Create name).
Proof. intros st. unfold os_Create. destruct (os_Create_fault st name); reflexivity. Qed.

Lemma io_Copy_keeps_this name data : keeps this (io_Copy name data).
Proof.
  intros st. unfold io_Copy.
  destruct (io_Copy_fault name data) as [[k e]|]; reflexivity.
Qed.

#[local] Hint Resolve RandomString_keeps_this RandomString_keeps_files
  os_Stat_keeps os_MkdirAll_keeps_this os_MkdirAll_keeps_files
  os_MkdirAll_keeps_rand os_Create_keeps_this io_Copy_keeps_this : frame.

Lemma CreateDirIfNotExists_keeps_this path : keeps this (CreateDirIfNotExists path).
Proof. unfold CreateDirIfNotExists. frame. Qed.

Lemma CreateDirIfNotExists_keeps_files path :
  keeps fs_files (CreateDirIfNotExists path).
Proof. unfold CreateDirIfNotExists. frame. Qed.

Lemma CreateDirIfNotExists_keeps_rand path :
  keeps rand_Reader (CreateDirIfNotExists path).
Proof. unfold CreateDirIfNotExists. frame. Qed.

Lemma upload_part_keeps_this dir b hdrs up : keeps this (upload_part dir b hdrs up).
Proof. unfold upload_part. frame. Qed.

#[local] Hint Resolve CreateDirIfNotExists_keeps_this upload_part_keeps_this : frame.

Lemma range_fHeaders_keeps_this dir b fHeaders :
  forall up, keeps this (range_fHeaders dir b fHeaders up).
Proof.
  induction fHeaders as [|hdrs rest IH]; intros up; simpl; frame.
Qed.

#[local] Hint Resolve range_fHeaders_keeps_this : frame.

Lemma range_File_keeps_this dir b form :
  forall up, keeps this (range_File dir b form up).
Proof.
  induction form as [|[k fHeaders] rest IH]; intros up; simpl; frame.
Qed.

Lemma UploadFile_unfold r dir rename st :
  UploadFile r dir rename st =
  match ParseMultipartForm r (MaxFileSize (this (defaulted st))) with
  | inl err => (Fatal ("Fatal:" ++ Error err), defaulted st)
  | inr form =>
      match CreateDirIfNotExists dir (defaulted st) with
      | (Ok (Some err), st1) => (Ok ([], Some err), st1)
      | (Ok None, st1) => range_File dir (renameFile_of rename) form [] st1
      | (Fatal msg, st1) => (Fatal msg, st1)
      | (Panic msg, st1) => (Panic msg, st1)
      end
  end.
Proof.
  unfold UploadFile, defaulted, renameFile_of, bind at 1, get.
  destruct (MaxFileSize (this st) =? 0)%Z.
  - unfold bind at 1, modify. unfold bind at 1, get.
    destruct (ParseMultipartForm _ _); [reflexivity|].
    unfold bind.
    destruct (CreateDirIfNotExists dir _) as [[[e|]|m|m] st1]; reflexivity.
  - unfold bind at 1, ret. unfold bind at 1, get.
    destruct (ParseMultipartForm _ _); [reflexivity|].
    unfold bind.
    destruct (CreateDirIfNotExists dir _) as [[[e|]|m|m] st1]; reflexivity.
Qed.

Lemma UploadFile_this r dir rename st :
  this (snd (UploadFile r dir rename st)) = this (defaulted st).
Proof.
  rewrite UploadFile_unfold.
  destruct (ParseMultipartForm _ _) as [err|form]; [reflexivity|].
  pose proof (CreateDirIfNotExists_keeps_this dir (defaulted st)) as H.
  destruct (CreateDirIfNotExists dir (defaulted st)) as [[[e|]|m|m] st1];
    simpl in *; try exact H.
  rewrite range_File_keeps_this. exact H.
Qed.

Lemma UploadOneFile_this r dir rename st :
  this (snd (UploadOneFile r dir rename st)) = this (defaulted st).
Proof.
  unfold UploadOneFile, bind.
  pose proof (UploadFile_this r dir [renameFile_of rename] st) as H.
  fold (renameFile_of rename).
  destruct (UploadFile r dir [renameFile_of rename] st) as [[[up [e|]]|m|m] st1];
    simpl in *; try exact H.
  destruct up; exact H.
Qed.

(** The loops over the form visit the file headers one after the other. *)
Lemma range_fHeaders_app dir b l1 l2 : forall up st,
  range_fHeaders dir b (l1 ++ l2)%list up st =
  match range_fHeaders dir b l1 up st with
  | (Ok (up1, None), st1) => range_fHeaders dir b l2 up1 st1
  | other => other
  end.
Proof.
  induction l1 as [|hdrs l1 IH]; intros up st; [reflexivity|].
  simpl. unfold bind.
  destruct (upload_part dir b hdrs up st) as [[[up1 [e|]]|m|m] st1];
    try reflexivity.
  simpl. apply IH.
Qed.

Lemma range_File_concat dir b form : forall up st,
  range_File dir b form up st =
  range_fHeaders dir b (concat (map snd form)) up st.
Proof.
  induction form as [|[k fHeaders] rest IH]; intros up st; [reflexivity|].
  simpl. rewrite range_fHeaders_app. unfold bind.
  destruct (range_fHeaders dir b fHeaders up st) as [[[up1 [e|]]|m|m] st1];
    try reflexivity.
  simpl. apply IH.
Qed.

(** A file part whose sniffed type is in no entry of the allow-list: the
    function literal returns the error and changes nothing. *)
Lemma upload_part_not_permitted dir b hdrs up st f buf :
  Open hdrs = inr f ->
  File_Read f 512 = inr buf ->
  AllowedTypes (this st) <> [] ->
  (forall x, In x (AllowedTypes (this st)) ->
             strings_EqualFold x (http_DetectContentType buf) = false) ->
  upload_part dir b hdrs up st = (Ok ([], Some errNotPermitted), st).
Proof.
  intros HO HR Hne Hall. unfold upload_part. rewrite HO, HR.
  unfold bind at 1, get.
  assert (E : existsb (fun x => strings_EqualFold x (http_DetectContentType buf))
                (AllowedTypes (this st)) = false).
  { apply not_true_is_false. intros H. apply existsb_exists in H.
    destruct H as (x & Hx & Hf). rewrite (Hall x Hx) in Hf. discriminate. }
  rewrite E. destruct (AllowedTypes (this st)) as [|a l]; [congruence|].
  reflexivity.
Qed.

(** A file part without bytes: the first [Read] is at the end of the file. *)
Lemma upload_part_empty dir b hdrs up st f :
  Open hdrs = inr f -> Data f = "" -> ReadFault f = None ->
  upload_part dir b hdrs up st = (Ok ([], Some io_EOF), st).
Proof.
  intros HO HD HF. unfold upload_part, File_Read. rewrite HO, HF, HD.
  reflexivity.
Qed.

(** Every error of the function literal comes with a nil list. *)
Lemma upload_part_error_nil dir b hdrs up st up1 e st1 :
  upload_part dir b hdrs up st = (Ok (up1, Some e), st1) -> up1 = [].
Proof.
  unfold upload_part, bind, get, ret, os_Create, io_Copy.
  repeat match goal with
         | |- context [match ?x with _ => _ end] => destruct x eqn:?
         | |- context [if ?x then _ else _] => destruct x eqn:?
         end;
    intros [= <- ? ?]; subst; try reflexivity; try discriminate.
Qed.

(** A request with a part that the function literal rejects in every state
    of the same receiver: whenever the loop returns, it returns an error and
    no record. *)
Lemma range_fHeaders_failing_part dir b hdrs fHeaders : forall up st,
  In hdrs fHeaders ->
  (forall up' st', this st' = this st ->
     exists e, upload_part dir b hdrs up' st' = (Ok ([], Some e), st')) ->
  forall res st',
    range_fHeaders dir b fHeaders up st = (Ok res, st') ->
    fst res = [] /\ snd res <> None.
Proof.
  induction fHeaders as [|h0 rest IH]; intros up st Hin Hfail res st';
    [destruct Hin|].
  simpl. unfold bind.
  pose proof (upload_part_keeps_this dir b h0 up st) as Hthis.
  destruct (upload_part dir b h0 up st) as [[[up1 [e|]]|m|m] st1] eqn:E;
    try discriminate; simpl in *.
  - intros [= <- _]. apply upload_part_error_nil in E. subst. split;
      [reflexivity|discriminate].
  - destruct Hin as [->|Hin].
    + destruct (Hfail up st eq_refl) as [e He]. congruence.
    + apply (IH up1 st1 Hin). intros up' st2 H2. apply Hfail. congruence.
Qed.

Lemma UploadFile_failing_part r dir rename st form hdrs :
  ParseMultipartForm r (MaxFileSize (this (defaulted st))) = inr form ->
  In hdrs (concat (map snd form)) ->
  (forall up' st', this st' = this (defaulted st) ->
     exists e, upload_part dir (renameFile_of rename) hdrs up' st'
               = (Ok ([], Some e), st')) ->
  forall res st',
    UploadFile r dir rename st = (Ok res, st') ->
    fst res = [] /\ snd res <> None.
Proof.
  intros HP Hin Hfail res st'. rewrite UploadFile_unfold, HP.
  pose proof (CreateDirIfNotExists_keeps_this dir (defaulted st)) as Hthis.
  destruct (CreateDirIfNotExists dir (defaulted st)) as [[[e|]|m|m] st1];
    try discriminate; simpl in Hthis.
  - intros [= <- _]. split; [reflexivity|discriminate].
  - rewrite range_File_concat.
    apply (range_fHeaders_failing_part _ _ hdrs); [exact Hin|].
    intros up' st2 H2. apply Hfail. congruence.
Qed.

(** Wherever a file part without bytes stands in the request, a call of
    [UploadFile] that returns, returns an error and no record. *)
Lemma UploadFile_with_empty_part r dir rename st form hdrs f :
  ParseMultipartForm r (MaxFileSize (this (defaulted st))) = inr form ->
  In hdrs (concat (map snd form)) ->
  Open hdrs = inr f -> Data f = "" ->
  forall res st',
    UploadFile r dir rename st = (Ok res, st') ->
    fst res = [] /\ snd res <> None.
Proof.
  intros HP Hin HO HD. apply (UploadFile_failing_part _ _ _ _ form hdrs);
    [exact HP|exact Hin|].
  intros up' st2 _. unfold upload_part, File_Read. rewrite HO, HD.
  destruct (ReadFault f); eauto.
Qed.

(** The same for a file part whose sniffed type is not allowed. *)
Lemma UploadFile_with_rejected_part r dir rename st form hdrs f buf :
  ParseMultipartForm r (MaxFileSize (this (defaulted st))) = inr form ->
  In hdrs (concat (map snd form)) ->
  Open hdrs = inr f -> File_Read f 512 = inr buf ->
  AllowedTypes (this st) <> [] ->
  (forall x, In x (AllowedTypes (this st)) ->
             strings_EqualFold x (http_DetectContentType buf) = false) ->
  forall res st',
    UploadFile r dir rename st = (Ok res, st') ->
    fst res = [] /\ snd res <> None.
Proof.
  intros HP Hin HO HR Hne Hall.
  apply (UploadFile_failing_part _ _ _ _ form hdrs); [exact HP|exact Hin|].
  intros up' st2 H2. exists errNotPermitted.
  assert (HA : AllowedTypes (this st2) = AllowedTypes (this st)).
  { rewrite H2. unfold defaulted. destruct (_ =? _)%Z; reflexivity. }
  apply (upload_part_not_permitted _ _ _ _ _ f buf); auto; rewrite HA; auto.
Qed.

End UploadFacts.

(** ** The slug never holds a digit *)

Section SlugFacts.

Lemma In_ReplaceAllString set repl c src : forall inRun,
  In c (list_ascii_of_string (ReplaceAllString set inRun src repl)) ->
  set c = true \/ In c (list_ascii_of_string repl).
Proof.
  assert (Happ : forall a b, list_ascii_of_string (a ++ b)
                 = (list_ascii_of_string a ++ list_ascii_of_string b)%list).
  { induction a as [|x a IH]; intros b; simpl; [reflexivity|].
    now rewrite IH. }
  induction src as [|x src IH]; intros inRun; simpl; [tauto|].
  destruct (set x) eqn:E.
  - simpl. intros [<-|H]; [auto|eauto].
  - destruct inRun; [eauto|].
    rewrite Happ, in_app_iff. intros [H|H]; [auto|eauto].
Qed.

Lemma In_TrimLeft cut c s :
  In c (list_ascii_of_string (TrimLeft s cut)) -> In c (list_ascii_of_string s).
Proof.
  induction s as [|x s IH]; simpl; [tauto|].
  destruct (Ascii.eqb x cut); simpl; auto.
Qed.

Lemma In_TrimRight cut c s :
  In c (list_ascii_of_string (TrimRight s cut)) -> In c (list_ascii_of_string s).
Proof.
  induction s as [|x s IH]; simpl; [tauto|].
  destruct (TrimRight s cut) eqn:E.
  - destruct (Ascii.eqb x cut); simpl; tauto.
  - simpl in *. tauto.
Qed.

Lemma class_a_z_slash_d_no_digit c :
  class_a_z_slash_d c = true -> inRange "0" "9" c = false.
Proof.
  unfold class_a_z_slash_d, inRange. intros H.
  apply orb_true_iff in H. destruct H as [H|H].
  - apply orb_true_iff in H. destruct H as [H|H].
    + apply andb_true_iff in H. destruct H as [H _].
      apply Nat.leb_le in H. change (nat_of_ascii "a") with 97%nat in H.
      apply andb_false_iff. right. apply Nat.leb_gt.
      change (nat_of_ascii "9") with 57%nat. lia.
    + apply Ascii.eqb_eq in H. subst c. reflexivity.
  - apply Ascii.eqb_eq in H. subst c. reflexivity.
Qed.

(** Whatever the input, no ASCII digit survives in the slug. *)
Lemma Slugify_no_digit s slug c :
  Slugify s = (slug, None) ->
  In c (list_ascii_of_string slug) -> inRange "0" "9" c = false.
Proof.
  unfold Slugify. destruct (_ <? 1)%Z; [discriminate|].
  destruct (_ <=? 0)%Z; [discriminate|].
  intros [= <-] Hin. unfold Trim in Hin.
  apply In_TrimRight, In_TrimLeft, In_ReplaceAllString in Hin.
  destruct Hin as [H|[<-|[]]]; [|reflexivity].
  now apply class_a_z_slash_d_no_digit.
Qed.

End SlugFacts.

(** ** The decoder at the end of the input *)

Section DecoderFacts.
Context {P : Platform}.

Lemma to_error_not_EOF e : scanner.to_error e <> io_EOF.
Proof. discriminate. Qed.

(** [readValue] reports [io.EOF] only when the reader ended with [io.EOF] and
    nothing but white space was in the buffer. *)
Lemma readValue_scan_EOF_inv input : forall s scanp r_err buf s',
  readValue_scan s input scanp r_err buf = readErr io_EOF s' ->
  r_err = io_EOF /\ nonSpace buf = false.
Proof.
  induction input as [|c input IH]; intros s scanp r_err buf s'; simpl.
  - destruct r_err; try discriminate.
    destruct (scanner.step_ s " ") as [s1 code].
    destruct code; try discriminate;
      destruct (nonSpace buf); try discriminate; auto.
  - destruct (scanner.step_ (add_bytes 1 s) c) as [s1 code].
    destruct code; try discriminate; try (apply IH).
    + destruct (scanner.stateEndValue_ s1 " ") as [s2 code2].
      destruct code2; try discriminate; apply IH.
    + destruct (scanner.stateEndValue_ s1 " ") as [s2 code2].
      destruct code2; try discriminate; apply IH.
    + destruct (scanner.err s1); discriminate.
Qed.

Lemma nonSpace_cons c s :
  nonSpace (String c s) = negb (scanner.isSpace c) || nonSpace s.
Proof. reflexivity. Qed.

(** White space up to the end of the input: [readValue] reports [io.EOF]. *)
Lemma readValue_scan_spaces input : forall s scanp buf,
  scanner.step s = scanner.stateBeginValue ->
  nonSpace input = false -> nonSpace buf = false ->
  exists s', readValue_scan s input scanp io_EOF buf = readErr io_EOF s'.
Proof.
  induction input as [|c input IH]; intros s scanp buf Hs Hin Hbuf; simpl.
  - unfold scanner.step_. rewrite Hs. unfold scanner.stateBeginValue_.
    change (scanner.isSpace " ") with true. cbv iota. rewrite Hbuf. eauto.
  - rewrite nonSpace_cons in Hin. apply orb_false_iff in Hin.
    destruct Hin as [Hc Hin]. apply negb_false_iff in Hc.
    unfold scanner.step_. cbn [scanner.step add_bytes]. rewrite Hs.
    unfold scanner.stateBeginValue_. rewrite Hc.
    apply IH; auto.
Qed.

Lemma emptyStruct_not_EOF disallow raw : emptyStruct disallow raw <> Some io_EOF.
Proof.
  unfold emptyStruct. destruct (unmarshal_struct disallow raw) as [[]|];
    discriminate.
Qed.

(** The second [Decode] of [ReadJSON] returns [io.EOF] exactly when only
    white space is left and the reader ends with [io.EOF]. *)
Lemma Decode_emptyStruct_EOF dec :
  dec_err dec = None ->
  fst (Decode dec emptyStruct) = Some io_EOF <->
  nonSpace (dec_r dec) = false /\ is_EOF (dec_r_err dec) = true.
Proof.
  intros Herr. unfold Decode. rewrite Herr. split.
  - destruct (readValue_scan _ _ _ _ _) as [n s|e s] eqn:E; simpl.
    + intros H. now apply emptyStruct_not_EOF in H.
    + intros [= ->]. apply readValue_scan_EOF_inv in E.
      destruct E as [-> ->]. auto.
  - intros [Hsp Heof]. destruct (dec_r_err dec); try discriminate.
    destruct (readValue_scan_spaces (dec_r dec) (scanner.reset (dec_scan dec))
                0 (dec_r dec)) as [s' ->]; auto.
Qed.

Lemma Decode_ok_err dec v dec1 :
  Decode dec v = (None, dec1) -> dec_err dec1 = None.
Proof.
  unfold Decode. destruct (dec_err dec); [discriminate|].
  destruct (readValue_scan _ _ _ _ _); [|discriminate].
  intros [= _ <-]. reflexivity.
Qed.

End DecoderFacts.

(** * The claims *)

Section Claims.
Context {P : Platform}.

(** C1 (the code departs from the claim).  The claim wants every one of the
    64 positions of the alphabet to be reachable.  Whatever the random source
    delivers, each character of a string returned by [RandomString] sits at
    an odd position of the alphabet, because the prime the position is taken
    from is odd; the letter [a], at position 0, is never produced. *)
Theorem RandomString_only_odd_positions (n : Z) (st st' : State) (s : string) :
  RandomString n st = (Ok s, st') ->
  forall c, In c (list_ascii_of_string s) ->
    (exists i, alphabet !! i = Some c /\ Nat.odd i = true) /\ c <> "a"%char.
Proof.
  unfold RandomString. destruct (n <? 0)%Z; [discriminate|].
  fold alphabet. unfold bind, ret.
  destruct (RandomString_loop alphabet (Z.to_nat n) st) as [[l|m|m] st1] eqn:E;
    try discriminate.
  intros [= <- <-] c Hc. rewrite list_ascii_of_string_of_list_ascii in Hc.
  apply RandomString_loop_odd in E. rewrite List.Forall_forall in E.
  destruct (E c Hc) as (i & Hi & Hodd). split; [eauto|].
  intros ->. assert (Hlt : (i < 64)%nat).
  { apply lookup_lt_Some in Hi. exact Hi. }
  do 64 (destruct i as [|i]; [vm_compute in Hi, Hodd; congruence|]). lia.
Qed.

(** C9.  For every [n >= 0] and every random source that delivers [n]
    primes, [RandomString n] returns a string of exactly [n] characters, all
    of them members of the 64-character alphabet. *)
Theorem RandomString_length_alphabet (n : Z) (st : State) :
  (0 <= n)%Z ->
  (Z.to_nat n <= length (draws 64 (rand_Reader st)))%nat ->
  exists s st',
    RandomString n st = (Ok s, st')
    /\ Z.of_nat (String.length s) = n
    /\ Forall (fun c => In c alphabet) (list_ascii_of_string s).
Proof.
  intros Hn Hsrc.
  destruct (RandomString_loop_returns (Z.to_nat n) st Hsrc)
    as (l & st' & Hl & Hlen & Hall).
  exists (string_of_list_ascii l), st'. unfold RandomString.
  destruct (n <? 0)%Z eqn:E; [lia|].
  fold alphabet. unfold bind, ret. rewrite Hl.
  rewrite list_ascii_of_string_of_list_ascii.
  repeat split; [|exact Hall].
  rewrite length_string_of_list_ascii, Hlen. apply Z2Nat.id. exact Hn.
Qed.

(** C2 (the code departs from the claim).  The character class of the source
    is [[^a-z/d]]: the digits of the input are replaced, and a slash is
    kept.  On the input [abc123] the source returns [abc] where the claim
    wants [abc123]; on [a/b] it returns [a/b] where the claim wants [a-b]. *)
Theorem Slugify_replaces_digits_keeps_slash :
  Slugify "abc123" = ("abc", None)
  /\ Slugify_spec "abc123" = "abc123"
  /\ Slugify "a/b" = ("a/b", None)
  /\ Slugify_spec "a/b" = "a-b".
Proof. repeat split. Qed.

(** C3 (the code departs from the claim).  When [ParseMultipartForm] returns
    an error, [UploadFile] does not return: it ends the process through
    [log.Fatal]. *)
Theorem UploadFile_parse_error_is_fatal (r : Request) (uploadDir : string)
    (rename : list bool) (st : State) (err : error) :
  ParseMultipartForm r (MaxFileSize (this (defaulted st))) = inl err ->
  UploadFile r uploadDir rename st
  = (Fatal ("Fatal:" ++ Error err), defaulted st).
Proof. intros H. rewrite UploadFile_unfold, H. reflexivity. Qed.

(** C4 (the code departs from the claim).  On a request that parses and holds
    no file part, with the directory in place, [UploadFile] returns an empty
    list and no error, and [UploadOneFile] panics on its first element. *)
Theorem UploadOneFile_no_file_panics (r : Request) (uploadDir : string)
    (rename : list bool) (st st1 : State)
    (form : list (string * list FileHeader)) :
  ParseMultipartForm r (MaxFileSize (this (defaulted st))) = inr form ->
  concat (map snd form) = [] ->
  CreateDirIfNotExists uploadDir (defaulted st) = (Ok None, st1) ->
  UploadFile r uploadDir [renameFile_of rename] st = (Ok ([], None), st1)
  /\ UploadOneFile r uploadDir rename st
     = (Panic "index out of range [0] with length 0", st1).
Proof.
  intros HP Hnil HD.
  assert (HU : UploadFile r uploadDir [renameFile_of rename] st
               = (Ok ([], None), st1)).
  { rewrite UploadFile_unfold, HP, HD, range_File_concat, Hnil. reflexivity. }
  split; [exact HU|].
  unfold UploadOneFile. fold (renameFile_of rename). unfold bind.
  rewrite HU. reflexivity.
Qed.

(** C5.  With a non-empty allow-list, when the loop reaches a file part whose
    sniffed type matches no entry (the parts [pre] before it were stored
    without error), [UploadFile] returns the error "the uploaded file type is
    not permitted" and no record, in the state the parts before it left: the
    part itself and the parts [later] are not touched.  When the part is the
    first one, as in a request with this part only, the files of the file
    system are those before the call. *)
Theorem UploadFile_type_not_permitted (r : Request) (uploadDir : string)
    (rename : list bool) (st st1 st2 : State)
    (form : list (string * list FileHeader))
    (pre later : list FileHeader) (hdrs : FileHeader)
    (stored : list UploadedFile) (f : File) (buf : string) :
  AllowedTypes (this st) <> [] ->
  ParseMultipartForm r (MaxFileSize (this (defaulted st))) = inr form ->
  concat (map snd form) = (pre ++ hdrs :: later)%list ->
  CreateDirIfNotExists uploadDir (defaulted st) = (Ok None, st1) ->
  range_fHeaders uploadDir (renameFile_of rename) pre [] st1
    = (Ok (stored, None), st2) ->
  Open hdrs = inr f ->
  File_Read f 512 = inr buf ->
  (forall x, In x (AllowedTypes (this st)) ->
             strings_EqualFold x (http_DetectContentType buf) = false) ->
  UploadFile r uploadDir rename st = (Ok ([], Some errNotPermitted), st2)
  /\ (pre = [] -> fs_files st2 = fs_files st).
Proof.
  intros Hne HP Hparts HD Hpre HO HR Hall.
  assert (Ht1 : this st1 = this (defaulted st)).
  { pose proof (CreateDirIfNotExists_keeps_this uploadDir (defaulted st)) as H.
    rewrite HD in H. exact H. }
  assert (Ht2 : AllowedTypes (this st2) = AllowedTypes (this st)).
  { pose proof (range_fHeaders_keeps_this uploadDir (renameFile_of rename)
                  pre [] st1) as H.
    rewrite Hpre in H. simpl in H. rewrite H, Ht1. unfold defaulted.
    destruct (_ =? _)%Z; reflexivity. }
  split.
  - rewrite UploadFile_unfold, HP, HD, range_File_concat, Hparts.
    rewrite range_fHeaders_app, Hpre. simpl. unfold bind.
    rewrite (upload_part_not_permitted _ _ _ _ _ f buf); auto;
      rewrite Ht2; assumption.
  - intros ->. simpl in Hpre. injection Hpre as _ <-.
    pose proof (CreateDirIfNotExists_keeps_files uploadDir (defaulted st)) as H.
    rewrite HD in H. simpl in H. rewrite H. unfold defaulted.
    destruct (_ =? _)%Z; reflexivity.
Qed.

(** C7.  When the serialisation of the payload fails, [WriteJSON] returns
    that error and the response writer is the one it was given: no header
    set, no status code written, no byte of body emitted. *)
Theorem WriteJSON_marshal_error_writes_nothing (w : ResponseWriter)
    (status : Z) (data : any) (headers : list (list (string * list string)))
    (err : error) :
  json_Marshal data = inl err ->
  WriteJSON w status data headers = (w, Some err).
Proof. intros H. unfold WriteJSON. rewrite H. reflexivity. Qed.

(** C8 (amended).  No operation changes [AllowedTypes], [MaxJSONSize] or
    [AllowUnknownFields] of the receiver.  [MaxFileSize] is changed by
    [UploadFile] and [UploadOneFile] only, and only from 0 to the default of
    1 GiB; in every other case it is unchanged too. *)
Theorem call_configuration (c : Call) (st : State) :
  let t := this st in
  let t' := this (snd (call c st)) in
  AllowedTypes t' = AllowedTypes t
  /\ MaxJSONSize t' = MaxJSONSize t
  /\ AllowUnknownFields t' = AllowUnknownFields t
  /\ MaxFileSize t' =
     (if is_upload c && (MaxFileSize t =? 0)%Z
      then defaultMaxFileSize else MaxFileSize t).
Proof.
  cbv zeta.
  assert (Hup : forall A (m : Go A),
            (forall st, this (snd (m st)) = this (defaulted st)) ->
            this (snd (discard m st)) = this (defaulted st)).
  { intros A m Hm. unfold discard, bind. specialize (Hm st).
    destruct (m st) as [[a|msg|msg] st1]; exact Hm. }
  destruct c; cbn [call is_upload andb];
    try (rewrite keeps_discard by auto using RandomString_keeps_this,
           CreateDirIfNotExists_keeps_this with frame; auto);
    try (rewrite Hup by (intros; first [apply UploadOneFile_this
                                      |apply UploadFile_this]);
         unfold defaulted; destruct (_ =? _)%Z eqn:E; simpl; auto using Z.eqb_eq);
    try (unfold bind, get; rewrite keeps_discard by auto with frame; auto).
Qed.

(** C10.  When the loop reaches a file part without bytes (the parts [pre]
    before it were stored without error), the 512-byte read is at the end of
    the file: [UploadFile] returns [io.EOF] as its error and no record, in
    the state the parts before it left. *)
Theorem UploadFile_empty_part (r : Request) (uploadDir : string)
    (rename : list bool) (st st1 st2 : State)
    (form : list (string * list FileHeader))
    (pre later : list FileHeader) (hdrs : FileHeader)
    (stored : list UploadedFile) (f : File) :
  ParseMultipartForm r (MaxFileSize (this (defaulted st))) = inr form ->
  concat (map snd form) = (pre ++ hdrs :: later)%list ->
  CreateDirIfNotExists uploadDir (defaulted st) = (Ok None, st1) ->
  range_fHeaders uploadDir (renameFile_of rename) pre [] st1
    = (Ok (stored, None), st2) ->
  Open hdrs = inr f -> Data f = "" -> ReadFault f = None ->
  UploadFile r uploadDir rename st = (Ok ([], Some io_EOF), st2).
Proof.
  intros HP Hparts HD Hpre HO Hdata Hfault.
  rewrite UploadFile_unfold, HP, HD, range_File_concat, Hparts.
  rewrite range_fHeaders_app, Hpre. simpl. unfold bind.
  rewrite (upload_part_empty _ _ _ _ _ f); auto.
Qed.

(** C6 (amended).  For a request of content type [application/json] whose
    first JSON value decodes into the destination, leaving the decoder
    [dec1]: [ReadJSON] returns nil when what is left of the body is JSON
    white space only and the body ends there with [io.EOF]; in every other
    case it returns the error "body must contain only one JSON value". *)
Theorem ReadJSON_only_one_value (t : Tools) (w : ResponseWriter) (r : Request)
    (data : Dest) (dec1 : Decoder) :
  Header_Get (Header r) "content-type" = "application/json" ->
  Decode (ReadJSON_decoder t r) data = (None, dec1) ->
  ReadJSON t w r data =
  if negb (nonSpace (dec_r dec1)) && is_EOF (dec_r_err dec1)
  then None else Some errOnlyOneValue.
Proof.
  intros Hct Hdec. unfold ReadJSON. rewrite Hct. cbn [String.eqb negb].
  change (String.eqb "application/json" "application/json") with true.
  cbv iota. unfold ReadJSON_decoder in Hdec. cbv zeta in Hdec.
  rewrite Hdec.
  pose proof (Decode_emptyStruct_EOF dec1 (Decode_ok_err _ _ _ Hdec)) as H.
  destruct (Decode dec1 emptyStruct) as [e dec2]. simpl in H.
  destruct (negb (nonSpace (dec_r dec1)) && is_EOF (dec_r_err dec1)) eqn:E.
  - apply andb_true_iff in E. destruct E as [E1 E2].
    apply negb_true_iff in E1.
    destruct H as [_ H]. rewrite (H (conj E1 E2)). reflexivity.
  - destruct e as [[]|]; try reflexivity.
    destruct H as [H _]. destruct (H eq_refl) as [E1 E2].
    rewrite E1, E2 in E. discriminate.
Qed.

End Claims.

(** * The claims on concrete requests *)

Section Instances.
Import Example.
#[local] Existing Instance platform.

(** Three characters from the example source: [r], [n] and [f], at the
    positions 17, 13 and 5. *)
Lemma RandomString_only_odd_positions_witness :
  RandomString 3 st_source = (Ok "rnf", set_rand_Reader [90%Z] st_source)
  /\ In "n"%char (list_ascii_of_string "rnf")
  /\ ((exists i, alphabet !! i = Some "n"%char /\ Nat.odd i = true)
      /\ "n"%char <> "a"%char).
Proof.
  split; [vm_compute; reflexivity|].
  split; [simpl; auto|].
  apply (RandomString_only_odd_positions 3 st_source
           (set_rand_Reader [90%Z] st_source) "rnf").
  - vm_compute. reflexivity.
  - simpl. auto.
Defined.

(** The example source holds four primes, enough for three characters. *)
Lemma RandomString_length_alphabet_witness :
  (0 <= 3)%Z
  /\ (Z.to_nat 3 <= length (draws 64 (rand_Reader st_source)))%nat
  /\ exists s st',
       RandomString 3 st_source = (Ok s, st')
       /\ Z.of_nat (String.length s) = 3%Z
       /\ Forall (fun c => In c alphabet) (list_ascii_of_string s).
Proof.
  assert (H : (Z.to_nat 3 <= length (draws 64 (rand_Reader st_source)))%nat)
    by (vm_compute; lia).
  split; [lia|]. split; [exact H|].
  apply (RandomString_length_alphabet 3 st_source); [lia|exact H].
Defined.

(** A request that is not multipart: the process ends. *)
Lemma UploadFile_parse_error_is_fatal_witness :
  ParseMultipartForm (jsonRequest "") (MaxFileSize (this (defaulted st0)))
    = inl errNotMultipart
  /\ UploadFile (jsonRequest "") "up" [] st0
     = (Fatal ("Fatal:" ++ Error errNotMultipart), defaulted st0).
Proof.
  split; [reflexivity|].
  apply (UploadFile_parse_error_is_fatal (jsonRequest "") "up" [] st0
           errNotMultipart).
  reflexivity.
Defined.

(** A multipart request without any file part: the directory is created,
    then [UploadOneFile] panics. *)
Lemma UploadOneFile_no_file_panics_witness :
  ParseMultipartForm (uploadRequest "") (MaxFileSize (this (defaulted st0)))
    = inr []
  /\ CreateDirIfNotExists "up" (defaulted st0) = (Ok None, st0_dir)
  /\ UploadFile (uploadRequest "") "up" [renameFile_of []] st0
     = (Ok ([], None), st0_dir)
  /\ UploadOneFile (uploadRequest "") "up" [] st0
     = (Panic "index out of range [0] with length 0", st0_dir).
Proof.
  assert (HD : CreateDirIfNotExists "up" (defaulted st0) = (Ok None, st0_dir))
    by (vm_compute; reflexivity).
  split; [reflexivity|]. split; [exact HD|].
  apply (UploadOneFile_no_file_panics (uploadRequest "") "up" [] st0 st0_dir []);
    [reflexivity|reflexivity|exact HD].
Defined.

(** Three parts, the second one a text: the first image is stored, the text
    is rejected, the third part is never looked at. *)
Lemma UploadFile_type_not_permitted_witness :
  AllowedTypes (this stJPEG) <> []
  /\ range_fHeaders "up" false [part jpegData] [] stJPEG_dir
     = (Ok ([mkUploadedFile "upload.bin" "upload.bin" 7], None), stJPEG_stored)
  /\ UploadFile (uploadRequest threeParts) "up" [false] stJPEG
     = (Ok ([], Some errNotPermitted), stJPEG_stored)
  /\ ([part jpegData] = [] -> fs_files stJPEG_stored = fs_files stJPEG).
Proof.
  assert (Hne : AllowedTypes (this stJPEG) <> []) by discriminate.
  assert (Hpre : range_fHeaders "up" false [part jpegData] [] stJPEG_dir
            = (Ok ([mkUploadedFile "upload.bin" "upload.bin" 7], None),
               stJPEG_stored))
    by (vm_compute; reflexivity).
  split; [exact Hne|]. split; [exact Hpre|].
  apply (UploadFile_type_not_permitted (uploadRequest threeParts) "up" [false]
           stJPEG stJPEG_dir stJPEG_stored
           [("file", [part jpegData]); ("file", [part "hello"]);
            ("file", [part jpegData])]
           [part jpegData] [part jpegData] (part "hello")
           [mkUploadedFile "upload.bin" "upload.bin" 7]
           (mkFile "hello" None None) ("hello" ++ zeros 507)).
  - exact Hne.
  - vm_compute. reflexivity.
  - reflexivity.
  - vm_compute. reflexivity.
  - exact Hpre.
  - reflexivity.
  - vm_compute. reflexivity.
  - intros x [<-|[]]. vm_compute. reflexivity.
Defined.

(** A channel cannot be serialised: the writer is left as it was. *)
Lemma WriteJSON_marshal_error_writes_nothing_witness :
  @json_Marshal platform VChan
    = inl (json_MarshalError "json: unsupported type: chan int")
  /\ WriteJSON (P:=platform) w0 200 VChan [[("X-Trace", ["1"])]]
     = (w0, Some (json_MarshalError "json: unsupported type: chan int")).
Proof.
  split; [reflexivity|].
  apply (WriteJSON_marshal_error_writes_nothing (P:=platform) w0 200 VChan
           [[("X-Trace", ["1"])]]).
  reflexivity.
Defined.

(** An image followed by a part without bytes: the image is stored, then
    the call returns [io.EOF]. *)
Lemma UploadFile_empty_part_witness :
  range_fHeaders "up" false [part jpegData] [] st0_dir
    = (Ok ([mkUploadedFile "upload.bin" "upload.bin" 7], None), st0_stored)
  /\ UploadFile (uploadRequest (jpegData ++ ";;")) "up" [false] st0
     = (Ok ([], Some io_EOF), st0_stored).
Proof.
  assert (Hpre : range_fHeaders "up" false [part jpegData] [] st0_dir
            = (Ok ([mkUploadedFile "upload.bin" "upload.bin" 7], None),
               st0_stored))
    by (vm_compute; reflexivity).
  split; [exact Hpre|].
  apply (UploadFile_empty_part (uploadRequest (jpegData ++ ";;")) "up" [false]
           st0 st0_dir st0_stored
           [("file", [part jpegData]); ("file", [part ""])]
           [part jpegData] [] (part "")
           [mkUploadedFile "upload.bin" "upload.bin" 7]
           (mkFile "" None None)).
  - vm_compute. reflexivity.
  - reflexivity.
  - vm_compute. reflexivity.
  - exact Hpre.
  - reflexivity.
  - reflexivity.
  - reflexivity.
Defined.

(** Two JSON values in one body: the second [Decode] finds a value. *)
Lemma ReadJSON_only_one_value_witness :
  Header_Get (Header (jsonRequest (foo_bar ++ " " ++ foo_bar))) "content-type"
    = "application/json"
  /\ fst (Decode (ReadJSON_decoder tJSON (jsonRequest (foo_bar ++ " " ++ foo_bar)))
            anyDest) = None
  /\ ReadJSON tJSON w0 (jsonRequest (foo_bar ++ " " ++ foo_bar)) anyDest
     = Some errOnlyOneValue.
Proof.
  split; [vm_compute; reflexivity|]. split; [vm_compute; reflexivity|].
  rewrite (ReadJSON_only_one_value tJSON w0
             (jsonRequest (foo_bar ++ " " ++ foo_bar)) anyDest
             (snd (Decode (ReadJSON_decoder tJSON
                             (jsonRequest (foo_bar ++ " " ++ foo_bar)))
                     anyDest))).
  - vm_compute. reflexivity.
  - vm_compute. reflexivity.
  - vm_compute. reflexivity.
Defined.

(** C6, the claim as stated fails: the body is one JSON value followed by a
    line feed, which is not the end of the input, and [ReadJSON] returns
    nil. *)
Lemma ReadJSON_trailing_newline_accepted :
  ReadJSON tJSON w0 (jsonRequest (foo_bar ++ newline)) anyDest = None
  /\ ReadJSON tJSON w0 (jsonRequest (foo_bar ++ newline)) anyDest
     <> Some errOnlyOneValue.
Proof.
  assert (H : ReadJSON tJSON w0 (jsonRequest (foo_bar ++ newline)) anyDest
              = None) by (vm_compute; reflexivity).
  split; [exact H|]. rewrite H. discriminate.
Qed.

(** C8, the claim as stated fails: [UploadFile] on a receiver whose
    [MaxFileSize] is 0 leaves it at 1 GiB. *)
Lemma UploadFile_changes_MaxFileSize :
  this (snd (call (Call_UploadFile (uploadRequest "") "up" []) st0)) <> this st0.
Proof. vm_compute. discriminate. Qed.

(** ** The tests of the repository, run on the model *)

(** The table [slugTests]. *)
Example slugTests_valid_string :
  Slugify "Now is the time for black" = ("now-is-the-time-for-black", None).
Proof. reflexivity. Qed.

Example slugTests_empty_string : snd (Slugify "") <> None.
Proof. discriminate. Qed.

Example slugTests_complex_string :
  Slugify "NOW IS THE time&$___&$& for><><>&!!black%^%&%*&)123"
  = ("now-is-the-time-for-black", None).
Proof. reflexivity. Qed.

Example slugTests_thai_string : snd (Slugify "สวัสดีชาวโลก") <> None.
Proof. vm_compute. discriminate. Qed.

Example slugTests_thai_and_roman :
  Slugify "hello blackสวัสดีชาวโลก" = ("hello-black", None).
Proof. vm_compute. reflexivity. Qed.

(** The rows of the table [testJSON] that do not depend on the fields of the
    destination. *)
Example testJSON_good_json :
  ReadJSON tJSON w0 (jsonRequest foo_bar) anyDest = None.
Proof. vm_compute. reflexivity. Qed.

Example testJSON_badly_formatted :
  ReadJSON tJSON w0 (jsonRequest ("{" ++ Quote "foo" ++ "}")) anyDest <> None.
Proof. vm_compute. discriminate. Qed.

Example testJSON_two_json_files :
  ReadJSON tJSON w0
    (jsonRequest (foo_bar ++ " {" ++ Quote "alpha" ++ " : " ++ Quote "beta" ++ "}"))
    anyDest
  = Some errOnlyOneValue.
Proof. vm_compute. reflexivity. Qed.

Example testJSON_empty_body :
  ReadJSON tJSON w0 (jsonRequest "") anyDest
  = Some (errorString "body must not be empty").
Proof. vm_compute. reflexivity. Qed.

Example testJSON_syntax_error :
  ReadJSON tJSON w0
    (jsonRequest ("{" ++ Quote "foo" ++ ": " ++ String dquote "bar}")) anyDest
  = Some (errorString "body contains badly formed JSON").
Proof. vm_compute. reflexivity. Qed.

Example testJSON_file_too_large :
  ReadJSON (mkTools 0 [] 5 false) w0 (jsonRequest foo_bar) anyDest
  = Some (errorString "body must not be larger than 5 bytes").
Proof. vm_compute. reflexivity. Qed.

Example testJSON_not_json :
  ReadJSON tJSON w0 (jsonRequest "Hello, World") anyDest <> None.
Proof. vm_compute. discriminate. Qed.

(** [TestToolsRandomString], here with four characters: the length is the
    one asked for. *)
Example TestToolsRandomString :
  fst (RandomString 4 st_source) = Ok "rnfB".
Proof. vm_compute. reflexivity. Qed.

End Instances.

(** * Further properties of the package *)

(** ** CreateDirIfNotExists *)

Section CreateDirProperties.
Context {P : Platform}.

Lemma os_Stat_exists path st :
  os_Stat_fault path = None -> exists_path st path ->
  os_Stat path st = (Ok StatOk, st).
Proof.
  intros HF HE. unfold os_Stat. rewrite HF.
  destruct HE as [H|H].
  - rewrite (bool_decide_eq_true_2 _ H). reflexivity.
  - rewrite (bool_decide_eq_true_2 _ H), orb_true_r. reflexivity.
Qed.

Lemma os_Stat_state path st : snd (os_Stat path st) = st.
Proof.
  unfold os_Stat. destruct (os_Stat_fault path); [reflexivity|].
  destruct (_ || _); reflexivity.
Qed.

(** A second call with the same path succeeds and changes nothing. *)
Theorem CreateDirIfNotExists_idempotent (path : string) (st st1 : State) :
  CreateDirIfNotExists path st = (Ok None, st1) ->
  CreateDirIfNotExists path st1 = (Ok None, st1).
Proof.
  unfold CreateDirIfNotExists.
  destruct (_ <? 1)%Z; [discriminate|].
  unfold bind at 1 3.
  destruct (os_Stat_fault path) as [e|] eqn:HF.
  - unfold os_Stat. rewrite HF. unfold ret. intros [= <-]. reflexivity.
  - destruct (os_Stat path st) as [[s|m|m] st0] eqn:HS;
      pose proof (os_Stat_state path st) as Hst; rewrite HS in Hst;
      simpl in Hst; subst st0;
      try (revert HS; unfold os_Stat; rewrite HF; destruct (_ || _);
           discriminate).
    destruct s as [| |e].
    + unfold ret. intros [= <-]. rewrite HS. reflexivity.
    + unfold bind, os_MkdirAll.
      destruct (os_MkdirAll_fault path); [discriminate|].
      unfold ret. intros [= <-].
      rewrite os_Stat_exists; [reflexivity|exact HF|].
      left. simpl. set_solver.
    + unfold ret. intros [= <-]. rewrite HS. reflexivity.
Qed.

(** A path that exists, be it a regular file, is accepted as it is. *)
Theorem CreateDirIfNotExists_existing (path : string) (st : State) :
  String.length (strings_TrimSpace path) <> 0%nat ->
  exists_path st path ->
  CreateDirIfNotExists path st = (Ok None, st).
Proof.
  intros Hlen HE. unfold CreateDirIfNotExists.
  destruct (_ <? 1)%Z eqn:E; [apply Z.ltb_lt in E; lia|].
  unfold bind, ret.
  destruct (os_Stat_fault path) as [e|] eqn:HF.
  - unfold os_Stat. rewrite HF. reflexivity.
  - rewrite os_Stat_exists by assumption. reflexivity.
Qed.

(** After a call that returns nil, and unless [os.Stat] failed for another
    reason than a missing path, the path exists; the call has only added
    directories and has left the files, the receiver and the random source
    alone. *)
Theorem CreateDirIfNotExists_creates (path : string) (st st1 : State) :
  os_Stat_fault path = None ->
  CreateDirIfNotExists path st = (Ok None, st1) ->
  exists_path st1 path
  /\ fs_dirs st ⊆ fs_dirs st1
  /\ fs_files st1 = fs_files st
  /\ this st1 = this st
  /\ rand_Reader st1 = rand_Reader st.
Proof.
  intros HF. unfold CreateDirIfNotExists.
  destruct (_ <? 1)%Z; [discriminate|].
  unfold bind, ret, os_Stat. rewrite HF.
  destruct (_ || _) eqn:E.
  - intros [= <-]. repeat split; try reflexivity.
    apply orb_true_iff in E. destruct E as [E|E];
      apply bool_decide_eq_true_1 in E; [left|right]; exact E.
  - unfold os_MkdirAll. destruct (os_MkdirAll_fault path); [discriminate|].
    intros [= <-]. repeat split; simpl; try reflexivity; [|set_solver].
    left. simpl. set_solver.
Qed.

(** The error of [os.MkdirAll] is returned as it is, and nothing changes. *)
Theorem CreateDirIfNotExists_mkdir_error (path : string) (st : State)
    (err : error) :
  String.length (strings_TrimSpace path) <> 0%nat ->
  os_Stat_fault path = None ->
  ~ exists_path st path ->
  os_MkdirAll_fault path = Some err ->
  CreateDirIfNotExists path st = (Ok (Some err), st).
Proof.
  intros Hlen HF HE HM. unfold CreateDirIfNotExists.
  destruct (_ <? 1)%Z eqn:E; [apply Z.ltb_lt in E; lia|].
  unfold bind, ret, os_Stat. rewrite HF.
  destruct (_ || _) eqn:E2.
  - exfalso. apply HE. apply orb_true_iff in E2. destruct E2 as [E2|E2];
      apply bool_decide_eq_true_1 in E2; [left|right]; exact E2.
  - unfold os_MkdirAll. rewrite HM. reflexivity.
Qed.

End CreateDirProperties.

(** ** RandomString *)

Section RandomStringProperties.
Context {P : Platform}.

Lemma Prime_loop_suffix bits src : forall r rest,
  Prime_loop bits src = (r, rest) -> exists used, src = (used ++ rest)%list.
Proof.
  induction src as [|raw src IH]; intros r rest; simpl.
  - intros [= _ <-]. exists []. reflexivity.
  - destruct (ProbablyPrime (candidate bits raw)).
    + intros [= _ <-]. exists [raw]. reflexivity.
    + intros H. destruct (IH _ _ H) as [used ->]. exists (raw :: used).
      reflexivity.
Qed.

Lemma RandomString_loop_suffix k : forall st,
  exists used,
    rand_Reader st
    = (used ++ rand_Reader (snd (RandomString_loop alphabet k st)))%list.
Proof.
  induction k as [|k IH]; intros st; [exists []; reflexivity|].
  rewrite RandomString_loop_S.
  destruct (Prime_loop 64 (rand_Reader st)) as [[err|p] src'] eqn:HP;
    destruct (Prime_loop_suffix _ _ _ _ HP) as [used Hused].
  - exists used. exact Hused.
  - destruct (alphabet !! index_of p); [|exists used; exact Hused].
    destruct (IH (set_rand_Reader src' st)) as [used' Hused'].
    destruct (RandomString_loop alphabet k (set_rand_Reader src' st))
      as [[s0|m|m] st0]; simpl in *;
      exists (used ++ used')%list; rewrite <- app_assoc, <- Hused';
      exact Hused.
Qed.

Lemma RandomString_loop_app k1 : forall k2 st l1 st1 l2 st2,
  RandomString_loop alphabet k1 st = (Ok l1, st1) ->
  RandomString_loop alphabet k2 st1 = (Ok l2, st2) ->
  RandomString_loop alphabet (k1 + k2) st = (Ok (l1 ++ l2)%list, st2).
Proof.
  induction k1 as [|k1 IH]; intros k2 st l1 st1 l2 st2.
  - intros [= <- <-] H. exact H.
  - rewrite RandomString_loop_S. cbn [Nat.add]. rewrite RandomString_loop_S.
    destruct (Prime_loop 64 (rand_Reader st)) as [[err|p] src']; [discriminate|].
    destruct (alphabet !! index_of p) as [c|]; [|discriminate].
    destruct (RandomString_loop alphabet k1 (set_rand_Reader src' st))
      as [[s0|m|m] st0] eqn:E; try discriminate.
    intros [= <- <-] H2. rewrite (IH _ _ _ _ _ _ E H2). reflexivity.
Qed.

Lemma RandomString_Ok_inv n st s st' :
  RandomString n st = (Ok s, st') ->
  (0 <= n)%Z
  /\ RandomString_loop alphabet (Z.to_nat n) st = (Ok (list_ascii_of_string s), st').
Proof.
  unfold RandomString. destruct (n <? 0)%Z eqn:E; [discriminate|].
  fold alphabet. unfold bind, ret.
  destruct (RandomString_loop alphabet (Z.to_nat n) st) as [[l|m|m] st1];
    try discriminate.
  intros [= <- <-]. rewrite list_ascii_of_string_of_list_ascii.
  split; [apply Z.ltb_ge in E; exact E|reflexivity].
Qed.

Lemma string_of_list_ascii_app l1 l2 :
  string_of_list_ascii (l1 ++ l2) = string_of_list_ascii l1 ++ string_of_list_ascii l2.
Proof. induction l1 as [|c l1 IH]; simpl; [reflexivity|now rewrite IH]. Qed.

(** When the random source gives out before [n] primes were drawn, the
    process ends: no shorter string is returned.  The receiver and the file
    system are as they were. *)
Theorem RandomString_source_dry (n : Z) (st : State) :
  (length (draws 64 (rand_Reader st)) < Z.to_nat n)%nat ->
  exists st',
    RandomString n st = (Fatal "Unexpected error EOF", st')
    /\ this st' = this st /\ fs_dirs st' = fs_dirs st
    /\ fs_files st' = fs_files st.
Proof.
  intros Hn. pose proof (RandomString_frame n st) as HF. cbv zeta in HF.
  unfold RandomString in *. destruct (n <? 0)%Z eqn:E.
  - apply Z.ltb_lt in E. lia.
  - fold alphabet in *. unfold bind in *.
    destruct (RandomString_loop_fatal (Z.to_nat n) st Hn) as [st' H].
    rewrite H in *. exists st'. split; [reflexivity|exact HF].
Qed.

(** Drawing [n] characters and then [m] more gives the string that drawing
    [n + m] characters at once gives. *)
Theorem RandomString_append (n m : Z) (st st1 st2 : State) (s1 s2 : string) :
  RandomString n st = (Ok s1, st1) ->
  RandomString m st1 = (Ok s2, st2) ->
  RandomString (n + m) st = (Ok (s1 ++ s2), st2).
Proof.
  intros H1 H2. apply RandomString_Ok_inv in H1, H2.
  destruct H1 as [Hn H1], H2 as [Hm H2].
  unfold RandomString. destruct (n + m <? 0)%Z eqn:E;
    [apply Z.ltb_lt in E; lia|].
  fold alphabet. unfold bind, ret.
  rewrite Z2Nat.inj_add by lia.
  rewrite (RandomString_loop_app _ _ _ _ _ _ _ H1 H2).
  rewrite string_of_list_ascii_app, !string_of_list_ascii_of_string.
  reflexivity.
Qed.

(** [RandomString] only reads the random source forward: what is left of the
    source afterwards is a suffix of what was there, and the receiver and the
    file system are untouched, whatever the outcome. *)
Theorem RandomString_reads_source_only (n : Z) (st : State) :
  let st' := snd (RandomString n st) in
  (exists used, rand_Reader st = (used ++ rand_Reader st')%list)
  /\ this st' = this st /\ fs_dirs st' = fs_dirs st
  /\ fs_files st' = fs_files st.
Proof.
  cbv zeta. split; [|apply RandomString_frame].
  unfold RandomString. destruct (n <? 0)%Z; [exists []; reflexivity|].
  fold alphabet. unfold bind, ret.
  destruct (RandomString_loop_suffix (Z.to_nat n) st) as [used H].
  exists used.
  destruct (RandomString_loop alphabet (Z.to_nat n) st) as [[l|m|m] st1];
    exact H.
Qed.

End RandomStringProperties.

(** ** Slugify *)

Section SlugProperties.

Local Abbreviation chars := list_ascii_of_string.
Local Abbreviation hyphen := "-"%char.

Lemma chars_app a b : chars (a ++ b) = (chars a ++ chars b)%list.
Proof. induction a as [|x a IH]; simpl; [reflexivity|now rewrite IH]. Qed.

Lemma In_ReplaceAllString_inv set repl c src : forall inRun,
  In c (chars (ReplaceAllString set inRun src repl)) ->
  (set c = true /\ In c (chars src)) \/ In c (chars repl).
Proof.
  induction src as [|x src IH]; intros inRun; simpl; [tauto|].
  destruct (set x) eqn:E.
  - simpl. intros [<-|H]; [auto|]. destruct (IH _ H) as [[? ?]|?]; auto.
  - destruct inRun.
    + intros H. destruct (IH _ H) as [[? ?]|?]; auto.
    + rewrite chars_app, in_app_iff. intros [H|H]; [auto|].
      destruct (IH _ H) as [[? ?]|?]; auto.
Qed.

Lemma In_ReplaceAllString_keep set repl c src : forall inRun,
  set c = true -> In c (chars src) ->
  In c (chars (ReplaceAllString set inRun src repl)).
Proof.
  induction src as [|x src IH]; intros inRun Hc; simpl; [tauto|].
  intros [->|H].
  - rewrite Hc. simpl. auto.
  - destruct (set x); [simpl; auto|]. destruct inRun; [auto|].
    rewrite chars_app, in_app_iff. auto.
Qed.

Lemma In_TrimLeft_keep cut c s :
  In c (chars s) -> c <> cut -> In c (chars (TrimLeft s cut)).
Proof.
  intros H Hne. induction s as [|x s IH]; simpl in *; [tauto|].
  destruct (Ascii.eqb x cut) eqn:E; [|exact H].
  apply Ascii.eqb_eq in E. subst x. destruct H as [->|H]; [congruence|auto].
Qed.

Lemma In_TrimRight_keep cut c s :
  In c (chars s) -> c <> cut -> In c (chars (TrimRight s cut)).
Proof.
  intros H Hne. induction s as [|x s IH]; simpl in *; [tauto|].
  destruct H as [->|H].
  - destruct (TrimRight s cut); [|simpl; auto].
    destruct (Ascii.eqb c cut) eqn:E; [|simpl; auto].
    apply Ascii.eqb_eq in E. congruence.
  - specialize (IH H). destruct (TrimRight s cut); [destruct IH|].
    simpl in *. auto.
Qed.

(** The string after the replacement: no two hyphens side by side, and no
    hyphen first when a run is under way. *)
Lemma ReplaceAllString_shape set src :
  set hyphen = false ->
  forall inRun,
    has_double hyphen (ReplaceAllString set inRun src "-") = false
    /\ (inRun = true ->
        starts_with hyphen (ReplaceAllString set inRun src "-") = false).
Proof.
  intros Hh. induction src as [|x src IH]; intros inRun; simpl; [auto|].
  destruct (set x) eqn:E.
  - assert (Hx : Ascii.eqb x hyphen = false).
    { destruct (Ascii.eqb x hyphen) eqn:E2; [|reflexivity].
      apply Ascii.eqb_eq in E2. congruence. }
    simpl. rewrite Hx. simpl. split; [apply (IH false)|auto].
  - destruct inRun; [apply (IH true)|].
    destruct (IH true) as [H1 H2].
    change ("-" ++ ReplaceAllString set true src "-")
      with (String hyphen (ReplaceAllString set true src "-")).
    cbn [has_double]. rewrite H1, H2 by reflexivity.
    split; [reflexivity|discriminate].
Qed.

Lemma TrimLeft_shape cut s :
  starts_with cut (TrimLeft s cut) = false
  /\ (has_double cut s = false -> has_double cut (TrimLeft s cut) = false).
Proof.
  induction s as [|x s IH]; simpl; [auto|].
  destruct (Ascii.eqb x cut) eqn:E.
  - destruct IH as [H1 H2]. split; [exact H1|].
    intros H. apply orb_false_iff in H. apply H2, H.
  - simpl. rewrite E. auto.
Qed.

Lemma TrimRight_head cut s :
  TrimRight s cut <> "" ->
  starts_with cut (TrimRight s cut) = starts_with cut s.
Proof.
  destruct s as [|x s]; simpl; [reflexivity|].
  destruct (TrimRight s cut); [|reflexivity].
  destruct (Ascii.eqb x cut) eqn:E; [congruence|]. simpl. now rewrite E.
Qed.

Lemma TrimRight_shape cut s :
  ends_with cut (TrimRight s cut) = false
  /\ (starts_with cut s = false -> starts_with cut (TrimRight s cut) = false)
  /\ (has_double cut s = false -> has_double cut (TrimRight s cut) = false).
Proof.
  induction s as [|x s IH]; simpl; [auto|].
  destruct IH as (H1 & H2 & H3).
  pose proof (TrimRight_head cut s) as Hhead.
  destruct (TrimRight s cut) as [|k ks] eqn:E.
  - destruct (Ascii.eqb x cut) eqn:Ex; simpl; rewrite ?Ex; auto.
  - repeat split.
    + exact H1.
    + simpl. auto.
    + intros H. apply orb_false_iff in H. destruct H as [Ha Hb].
      change ((Ascii.eqb x cut && starts_with cut (String k ks))
              || has_double cut (String k ks) = false).
      rewrite (H3 Hb), Hhead by discriminate.
      rewrite Ha. reflexivity.
Qed.

Lemma class_char c :
  class_a_z_slash_d c = true -> inRange "a" "z" c = true \/ c = "/"%char.
Proof.
  unfold class_a_z_slash_d. intros H.
  apply orb_true_iff in H. destruct H as [H|H].
  - apply orb_true_iff in H. destruct H as [H|H]; [auto|].
    apply Ascii.eqb_eq in H. auto.
  - apply Ascii.eqb_eq in H. subst c. left. reflexivity.
Qed.

Lemma class_hyphen : class_a_z_slash_d hyphen = false.
Proof. reflexivity. Qed.

(** The characters of a slug are left alone by [ToLower]. *)
Lemma slug_char_lower c :
  class_a_z_slash_d c = true \/ c = hyphen ->
  lowerASCII c = c
  /\ Ascii.eqb c (ascii_of_nat 196) = false
  /\ Ascii.eqb c (ascii_of_nat 226) = false.
Proof.
  intros [H| ->]; [|repeat split].
  apply class_char in H. destruct H as [H| ->]; [|repeat split].
  unfold inRange in H. apply andb_true_iff in H. destruct H as [Ha Hz].
  apply Nat.leb_le in Ha, Hz.
  change (nat_of_ascii "a") with 97%nat in Ha.
  change (nat_of_ascii "z") with 122%nat in Hz.
  repeat split.
  - unfold lowerASCII. destruct (_ <=? 90)%nat eqn:E;
      [apply Nat.leb_le in E; lia|]. rewrite andb_false_r. reflexivity.
  - destruct (Ascii.eqb c (ascii_of_nat 196)) eqn:E; [|reflexivity].
    apply Ascii.eqb_eq in E. subst c. vm_compute in Hz. lia.
  - destruct (Ascii.eqb c (ascii_of_nat 226)) eqn:E; [|reflexivity].
    apply Ascii.eqb_eq in E. subst c. vm_compute in Hz. lia.
Qed.

Lemma ToLower_fixed s :
  (forall c, In c (chars s) -> class_a_z_slash_d c = true \/ c = hyphen) ->
  ToLower s = s.
Proof.
  induction s as [|c rest IH]; intros H; [reflexivity|].
  assert (IHr : ToLower rest = rest) by (apply IH; intros; apply H; simpl; auto).
  destruct (slug_char_lower c) as (Hl & H196 & H226); [apply H; simpl; auto|].
  cbn [ToLower]. destruct rest as [|c1 rest1]; [now rewrite Hl|].
  rewrite H196. cbn [andb]. destruct rest1 as [|c2 rest2].
  - rewrite Hl. f_equal. exact IHr.
  - rewrite H226. cbn [andb]. rewrite Hl. f_equal. exact IHr.
Qed.

Lemma ReplaceAllString_fixed set s :
  set hyphen = false ->
  (forall c, In c (chars s) -> set c = true \/ c = hyphen) ->
  has_double hyphen s = false ->
  forall inRun, (inRun = true -> starts_with hyphen s = false) ->
  ReplaceAllString set inRun s "-" = s.
Proof.
  intros Hh. induction s as [|c rest IH]; intros Hc Hd inRun Hs;
    [reflexivity|].
  simpl in Hd. apply orb_false_iff in Hd. destruct Hd as [Hd1 Hd2].
  assert (Hrest : forall c0, In c0 (chars rest) -> set c0 = true \/ c0 = hyphen)
    by (intros; apply Hc; simpl; auto).
  simpl. destruct (set c) eqn:E.
  - f_equal. apply IH; auto. discriminate.
  - destruct (Hc c) as [H| ->]; [simpl; auto|congruence|].
    destruct inRun; [specialize (Hs eq_refl); discriminate|].
    simpl. f_equal. apply IH; auto.
Qed.

Lemma TrimLeft_fixed cut s : starts_with cut s = false -> TrimLeft s cut = s.
Proof. destruct s as [|c rest]; simpl; [reflexivity|]. now intros ->. Qed.

Lemma TrimRight_fixed cut s : ends_with cut s = false -> TrimRight s cut = s.
Proof.
  induction s as [|c rest IH]; simpl; [reflexivity|].
  destruct rest as [|c1 rest1]; [simpl; now intros ->|].
  intros H. rewrite (IH H). reflexivity.
Qed.

Lemma Slugify_Ok_inv s slug :
  Slugify s = (slug, None) ->
  slug = Trim (ReplaceAllString class_a_z_slash_d false (ToLower s) "-") hyphen
  /\ slug <> "".
Proof.
  unfold Slugify. destruct (_ <? 1)%Z; [discriminate|].
  destruct (_ <=? 0)%Z eqn:E; [discriminate|].
  intros [= <-]. split; [reflexivity|]. intros H. rewrite H in E.
  discriminate.
Qed.

Lemma Trim_ReplaceAllString_shape src :
  let slug := Trim (ReplaceAllString class_a_z_slash_d false src "-") hyphen in
  starts_with hyphen slug = false
  /\ ends_with hyphen slug = false
  /\ has_double hyphen slug = false
  /\ forall c, In c (chars slug) -> class_a_z_slash_d c = true \/ c = hyphen.
Proof.
  cbv zeta. unfold Trim.
  set (y := ReplaceAllString class_a_z_slash_d false src "-").
  destruct (ReplaceAllString_shape class_a_z_slash_d src class_hyphen false)
    as [Hd _]. fold y in Hd.
  destruct (TrimLeft_shape hyphen y) as [Hl1 Hl2].
  destruct (TrimRight_shape hyphen (TrimLeft y hyphen)) as (Hr1 & Hr2 & Hr3).
  repeat split; auto.
  intros c Hc. apply In_TrimRight, In_TrimLeft in Hc. unfold y in Hc.
  apply In_ReplaceAllString_inv in Hc.
  destruct Hc as [[Hc _]|[<-|[]]]; auto.
Qed.

(** A slug is not empty, neither begins nor ends with a hyphen, has no two
    hyphens side by side, and is made of the letters [a] to [z], the slash
    and the hyphen. *)
Theorem Slugify_shape (s slug : string) :
  Slugify s = (slug, None) ->
  slug <> ""
  /\ starts_with hyphen slug = false
  /\ ends_with hyphen slug = false
  /\ has_double hyphen slug = false
  /\ forall c, In c (chars slug) ->
       inRange "a" "z" c = true \/ c = "/"%char \/ c = hyphen.
Proof.
  intros H. apply Slugify_Ok_inv in H. destruct H as [-> Hne].
  split; [exact Hne|].
  destruct (Trim_ReplaceAllString_shape (ToLower s)) as (Hs & He & Hd & Hc).
  repeat split; auto.
  intros c Hin. destruct (Hc c Hin) as [H|H]; [|auto].
  apply class_char in H. tauto.
Qed.

(** [Slugify] leaves a slug as it is. *)
Theorem Slugify_idempotent (s slug : string) :
  Slugify s = (slug, None) -> Slugify slug = (slug, None).
Proof.
  intros H. pose proof H as H0. apply Slugify_Ok_inv in H0.
  destruct H0 as [Heq Hne].
  assert (Hshape : starts_with hyphen slug = false
                   /\ ends_with hyphen slug = false
                   /\ has_double hyphen slug = false
                   /\ forall c, In c (chars slug) ->
                        class_a_z_slash_d c = true \/ c = hyphen).
  { subst slug. apply Trim_ReplaceAllString_shape. }
  clear Heq H. destruct Hshape as (Hs & He & Hd & Hc).
  unfold Slugify.
  destruct slug as [|c0 rest] eqn:Eslug; [congruence|]. rewrite <- Eslug in *.
  assert (Hlen : (Z.of_nat (String.length slug) <? 1)%Z = false).
  { rewrite Eslug. simpl String.length. apply Z.ltb_ge. lia. }
  rewrite Hlen, (ToLower_fixed slug Hc).
  rewrite (ReplaceAllString_fixed _ slug class_hyphen Hc Hd false)
    by discriminate.
  unfold Trim. rewrite (TrimLeft_fixed _ _ Hs), (TrimRight_fixed _ _ He).
  assert (Hlen2 : (Z.of_nat (String.length slug) <=? 0)%Z = false).
  { rewrite Eslug. simpl String.length. apply Z.leb_gt. lia. }
  rewrite Hlen2. reflexivity.
Qed.

(** [Slugify] succeeds exactly when the lower-cased input holds a letter
    [a] to [z] or a slash; an input of digits only, for one, is refused. *)
Theorem Slugify_succeeds_iff (s : string) :
  snd (Slugify s) = None <->
  exists c, In c (chars (ToLower s))
            /\ (inRange "a" "z" c = true \/ c = "/"%char).
Proof.
  split.
  - destruct (Slugify s) as [slug e] eqn:E. simpl. intros ->.
    pose proof (Slugify_Ok_inv _ _ E) as [Heq Hne].
    destruct (Trim_ReplaceAllString_shape (ToLower s)) as (Hs & _).
    rewrite <- Heq in Hs.
    destruct slug as [|c rest]; [congruence|].
    exists c. simpl in Hs.
    assert (Hin : In c (chars (String c rest))) by (simpl; auto).
    rewrite Heq in Hin. unfold Trim in Hin.
    apply In_TrimRight, In_TrimLeft, In_ReplaceAllString_inv in Hin.
    destruct Hin as [[Hc Hin]|[<-|[]]]; [|discriminate].
    split; [exact Hin|apply class_char; exact Hc].
  - intros (c & Hin & Hc).
    assert (Hclass : class_a_z_slash_d c = true).
    { unfold class_a_z_slash_d. destruct Hc as [->| ->]; reflexivity. }
    assert (Hne : c <> hyphen) by (intros ->; discriminate).
    unfold Slugify.
    destruct s as [|c0 rest]; [destruct Hin|].
    assert (Hlen : (Z.of_nat (String.length (String c0 rest)) <? 1)%Z = false).
    { simpl String.length. apply Z.ltb_ge. lia. }
    rewrite Hlen.
    set (slug := Trim _ _).
    assert (Hslug : In c (chars slug)).
    { unfold slug, Trim. apply In_TrimRight_keep; [|exact Hne].
      apply In_TrimLeft_keep; [|exact Hne].
      apply In_ReplaceAllString_keep; auto. }
    destruct slug as [|k ks]; [destruct Hslug|].
    assert (Hlen2 : (Z.of_nat (String.length (String k ks)) <=? 0)%Z = false).
    { simpl String.length. apply Z.leb_gt. lia. }
    rewrite Hlen2. reflexivity.
Qed.

End SlugProperties.

(** ** UploadFile and UploadOneFile *)

Section Grows.
Context {P : Platform}.

Lemma fs_grows_refl st : fs_grows st st.
Proof. split; [reflexivity|auto]. Qed.

Lemma fs_grows_trans st1 st2 st3 :
  fs_grows st1 st2 -> fs_grows st2 st3 -> fs_grows st1 st3.
Proof. intros [H1 H2] [H3 H4]. split; [set_solver|auto]. Qed.

Lemma fs_grows_same st st' :
  fs_dirs st' = fs_dirs st -> fs_files st' = fs_files st -> fs_grows st st'.
Proof. intros H1 H2. split; [rewrite H1; reflexivity|rewrite H2; auto]. Qed.

Lemma relates_ret {A} (a : A) : relates fs_grows (ret a).
Proof. intros st. apply fs_grows_refl. Qed.

Lemma relates_get : relates fs_grows get.
Proof. intros st. apply fs_grows_refl. Qed.

Lemma relates_modify_this g :
  relates fs_grows (modify (fun st => set_this (g st) st)).
Proof. intros st. apply fs_grows_same; reflexivity. Qed.

Lemma relates_log_Fatal {A} msg : relates fs_grows (@log_Fatal A msg).
Proof. intros st. apply fs_grows_refl. Qed.

Lemma relates_panic {A} msg : relates fs_grows (@panic A msg).
Proof. intros st. apply fs_grows_refl. Qed.

Lemma relates_bind {A B} (m : Go A) (k : A -> Go B) :
  relates fs_grows m -> (forall a, relates fs_grows (k a)) ->
  relates fs_grows (bind m k).
Proof.
  intros Hm Hk st. unfold bind. specialize (Hm st).
  destruct (m st) as [[a|msg|msg] st1]; simpl in *; try exact Hm.
  eapply fs_grows_trans; [exact Hm|apply Hk].
Qed.

Lemma relates_RandomString n : relates fs_grows (RandomString n).
Proof. intros st. apply fs_grows_same; apply RandomString_frame. Qed.

Lemma relates_os_Stat path : relates fs_grows (os_Stat path).
Proof. intros st. rewrite os_Stat_state. apply fs_grows_refl. Qed.

Lemma relates_os_MkdirAll path : relates fs_grows (os_MkdirAll path).
Proof.
  intros st. unfold os_MkdirAll.
  destruct (os_MkdirAll_fault path); [apply fs_grows_refl|].
  split; simpl; [set_solver|auto].
Qed.

Lemma is_Some_insert (m : gmap string string) k v name :
  is_Some (m !! name) -> is_Some (<[ k := v ]> m !! name).
Proof.
  intros H. destruct (decide (k = name)) as [->|Hne].
  - rewrite lookup_insert_eq. eauto.
  - rewrite lookup_insert_ne by exact Hne. exact H.
Qed.

Lemma relates_os_Create name : relates fs_grows (os_Create name).
Proof.
  intros st. unfold os_Create.
  destruct (os_Create_fault st name); [apply fs_grows_refl|].
  split; simpl; [reflexivity|]. intros k. apply is_Some_insert.
Qed.

Lemma relates_io_Copy name data : relates fs_grows (io_Copy name data).
Proof.
  intros st. unfold io_Copy.
  destruct (io_Copy_fault name data) as [[k e]|];
    (split; simpl; [reflexivity|]; intros k'; apply is_Some_insert).
Qed.

End Grows.

Create HintDb grows.
#[export] Hint Resolve relates_ret relates_get relates_modify_this
  relates_log_Fatal relates_panic relates_RandomString relates_os_Stat
  relates_os_MkdirAll relates_os_Create relates_io_Copy : grows.

Ltac grows_step :=
  first [ solve [auto with grows]
        | apply relates_bind; [|intros ?]
        | match goal with
          | |- relates _ (match ?x with _ => _ end) => destruct x
          | |- relates _ (if ?b then _ else _) => destruct b
          end ].

Ltac grows := repeat grows_step.

Section UploadProperties.
Context {P : Platform}.

Local Abbreviation chars := list_ascii_of_string.

Lemma relates_CreateDirIfNotExists path :
  relates fs_grows (CreateDirIfNotExists path).
Proof. unfold CreateDirIfNotExists. grows. Qed.

Lemma relates_upload_part dir b hdrs up :
  relates fs_grows (upload_part dir b hdrs up).
Proof. unfold upload_part. grows. Qed.

#[local] Hint Resolve relates_CreateDirIfNotExists relates_upload_part : grows.

Lemma relates_range_fHeaders dir b fHeaders :
  forall up, relates fs_grows (range_fHeaders dir b fHeaders up).
Proof. induction fHeaders as [|hdrs rest IH]; intros up; simpl; grows. Qed.

#[local] Hint Resolve relates_range_fHeaders : grows.

Lemma relates_range_File dir b form :
  forall up, relates fs_grows (range_File dir b form up).
Proof. induction form as [|[k fHeaders] rest IH]; intros up; simpl; grows. Qed.

#[local] Hint Resolve relates_range_File : grows.

(** Whatever its outcome, a call of [UploadFile] or [UploadOneFile] removes
    no directory and no file: every directory and every file name present
    before the call is present after it. *)
Theorem UploadFile_removes_nothing (r : Request) (uploadDir : string)
    (rename : list bool) (st : State) :
  fs_grows st (snd (UploadFile r uploadDir rename st))
  /\ fs_grows st (snd (UploadOneFile r uploadDir rename st)).
Proof.
  assert (H : forall rn, relates fs_grows (UploadFile r uploadDir rn)).
  { intros rn. unfold UploadFile. grows. }
  split; [apply H|].
  assert (H1 : relates fs_grows (UploadOneFile r uploadDir rename)).
  { unfold UploadOneFile. apply relates_bind; [apply H|]. intros a. grows. }
  apply H1.
Qed.

Lemma RandomString_loop_Ok_props k : forall st l st',
  RandomString_loop alphabet k st = (Ok l, st') ->
  length l = k /\ Forall (fun c => In c alphabet) l.
Proof.
  induction k as [|k IH]; intros st l st'.
  - intros [= <- _]. split; [reflexivity|constructor].
  - rewrite RandomString_loop_S.
    destruct (Prime_loop 64 (rand_Reader st)) as [[err|p] src'];
      [discriminate|].
    destruct (alphabet !! index_of p) as [c|] eqn:Hc; [|discriminate].
    destruct (RandomString_loop alphabet k (set_rand_Reader src' st))
      as [[s0|m|m] st0] eqn:Hs; try discriminate.
    intros [= <- <-]. destruct (IH _ _ _ Hs) as [Hlen Hall].
    split; [simpl; now rewrite Hlen|].
    constructor; [|exact Hall].
    apply list_elem_of_In. eapply list_elem_of_lookup_2. exact Hc.
Qed.

Lemma newName_of_Ok b hdrs st name st1 :
  newName_of b hdrs st = (Ok name, st1) ->
  this st1 = this st /\ fs_dirs st1 = fs_dirs st /\ fs_files st1 = fs_files st
  /\ (if b
      then exists s, name = s ++ filepath_Ext (Filename hdrs)
                     /\ String.length s = 25%nat
                     /\ Forall (fun c => In c alphabet) (chars s)
      else name = Filename hdrs).
Proof.
  unfold newName_of. destruct b.
  - unfold bind, ret.
    pose proof (RandomString_frame 25 st) as HF. cbv zeta in HF.
    destruct (RandomString 25 st) as [[s|m|m] st0] eqn:E; try discriminate.
    intros [= <- <-]. simpl in HF. destruct HF as (H1 & H2 & H3).
    repeat split; auto. exists s. split; [reflexivity|].
    apply RandomString_Ok_inv in E. destruct E as [_ E].
    apply RandomString_loop_Ok_props in E. destruct E as [Hlen Hall].
    split; [|exact Hall].
    rewrite <- (string_of_list_ascii_of_string s).
    rewrite length_string_of_list_ascii. exact Hlen.
  - unfold ret. intros [= <- <-]. auto.
Qed.

(** What the function literal has done when it returns no error. *)
Lemma upload_part_Ok_inv dir b hdrs up st up' st' :
  upload_part dir b hdrs up st = (Ok (up', None), st') ->
  exists f name rec,
    Open hdrs = inr f
    /\ Data f <> ""
    /\ rec = mkUploadedFile name (Filename hdrs)
               (Z.of_nat (String.length (Data f)))
    /\ up' = (up ++ [rec])%list
    /\ record_of b hdrs rec
    /\ this st' = this st
    /\ fs_dirs st' = fs_dirs st
    /\ fs_files st' = <[ filepath_Join dir name := Data f ]> (fs_files st).
Proof.
  unfold upload_part.
  destruct (Open hdrs) as [e|f] eqn:HO; [discriminate|].
  destruct (File_Read f 512) as [e|buf] eqn:HR; [discriminate|].
  assert (Hdata : Data f <> "").
  { unfold File_Read in HR. destruct (ReadFault f); [discriminate|].
    destruct (Data f); [discriminate|discriminate]. }
  unfold bind at 1, get. cbv zeta.
  destruct (negb _); [discriminate|].
  destruct (SeekFault f); [discriminate|].
  fold (newName_of b hdrs). unfold bind at 1.
  destruct (newName_of b hdrs st) as [[name|m|m] st1] eqn:HN;
    try discriminate.
  apply newName_of_Ok in HN. destruct HN as (Ht & Hd & Hf & Hname).
  unfold bind, os_Create, io_Copy, ret.
  destruct (os_Create_fault st1 _); [discriminate|].
  destruct (io_Copy_fault _ _) as [[k e]|]; [discriminate|].
  intros [= <- <-].
  exists f, name, (mkUploadedFile name (Filename hdrs)
                     (Z.of_nat (String.length (Data f)))).
  repeat split; simpl; auto.
  - exists f. repeat split; auto.
    destruct (Data f); [congruence|]. simpl String.length. lia.
  - rewrite insert_insert_eq, Hf. reflexivity.
Qed.

(** The records of a loop that ends without error. *)
Lemma range_fHeaders_records dir b fHeaders : forall up st files st',
  range_fHeaders dir b fHeaders up st = (Ok (files, None), st') ->
  (forall rec, In rec up -> stored dir st rec) ->
  exists recs,
    files = (up ++ recs)%list
    /\ Forall2 (record_of b) fHeaders recs
    /\ (forall rec, In rec files -> stored dir st' rec).
Proof.
  induction fHeaders as [|hdrs rest IH]; intros up st files st'.
  - intros [= <- <-] Hup. exists []. rewrite app_nil_r. auto.
  - simpl. unfold bind.
    destruct (upload_part dir b hdrs up st) as [[[up1 [e|]]|m|m] st1] eqn:E;
      try discriminate.
    simpl. intros Hrest Hup.
    destruct (upload_part_Ok_inv _ _ _ _ _ _ _ E)
      as (f & name & rec & HO & Hdata & Hrec & Hup1 & Hrecof & Ht & Hd & Hf).
    destruct (IH up1 st1 files st' Hrest) as (recs & Hfiles & Hall & Hst).
    + intros rec0 Hin. rewrite Hup1 in Hin. apply in_app_iff in Hin.
      unfold stored. rewrite Hf. destruct Hin as [Hin|[<-|[]]].
      * apply is_Some_insert. apply Hup. exact Hin.
      * rewrite Hrec. simpl. rewrite lookup_insert_eq. eauto.
    + exists (rec :: recs). rewrite Hfiles, Hup1, <- app_assoc.
      repeat split; auto.
      intros rec0 Hin. apply Hst. rewrite Hfiles, Hup1, <- app_assoc.
      exact Hin.
Qed.

Lemma UploadFile_records r dir rename st form files st' :
  ParseMultipartForm r (MaxFileSize (this (defaulted st))) = inr form ->
  UploadFile r dir rename st = (Ok (files, None), st') ->
  Forall2 (record_of (renameFile_of rename)) (concat (map snd form)) files
  /\ (forall rec, In rec files -> stored dir st' rec).
Proof.
  intros HP. rewrite UploadFile_unfold, HP.
  destruct (CreateDirIfNotExists dir (defaulted st)) as [[[e|]|m|m] st1];
    try discriminate.
  rewrite range_File_concat. intros H.
  apply range_fHeaders_records in H; [|intros rec []].
  destruct H as (recs & -> & H1 & H2). auto.
Qed.

(** A call of [UploadFile] that returns no error returns one record for each
    file part, in the order of the parts, and each record carries the file
    name the client sent. *)
Theorem UploadFile_one_record_per_part (r : Request) (uploadDir : string)
    (rename : list bool) (st st' : State)
    (form : list (string * list FileHeader)) (files : list UploadedFile) :
  ParseMultipartForm r (MaxFileSize (this (defaulted st))) = inr form ->
  UploadFile r uploadDir rename st = (Ok (files, None), st') ->
  map OriginalFileName files = map Filename (concat (map snd form)).
Proof.
  intros HP HU. destruct (UploadFile_records _ _ _ _ _ _ _ HP HU) as [H _].
  clear HP HU.
  induction H as [|hdrs rec l recs Hrec _ IH]; [reflexivity|].
  simpl. destruct Hrec as [-> _]. now rewrite IH.
Qed.

(** The size a record reports is the number of bytes of its file part, and
    it is never zero: a part without bytes makes the call fail. *)
Theorem UploadFile_record_sizes (r : Request) (uploadDir : string)
    (rename : list bool) (st st' : State)
    (form : list (string * list FileHeader)) (files : list UploadedFile) :
  ParseMultipartForm r (MaxFileSize (this (defaulted st))) = inr form ->
  UploadFile r uploadDir rename st = (Ok (files, None), st') ->
  Forall2 (fun hdrs rec =>
             exists f, Open hdrs = inr f
                       /\ FileSize rec = Z.of_nat (String.length (Data f))
                       /\ (1 <= FileSize rec)%Z)
    (concat (map snd form)) files.
Proof.
  intros HP HU. destruct (UploadFile_records _ _ _ _ _ _ _ HP HU) as [H _].
  clear HP HU.
  induction H as [|hdrs rec l recs Hrec _ IH]; constructor; [|exact IH].
  destruct Hrec as (_ & H & _). exact H.
Qed.

(** Without renaming, every file is stored under the name the client sent.
    With renaming, it is stored under 25 characters of the alphabet followed
    by the extension of that name. *)
Theorem UploadFile_stored_names (r : Request) (uploadDir : string)
    (rename : list bool) (st st' : State)
    (form : list (string * list FileHeader)) (files : list UploadedFile) :
  ParseMultipartForm r (MaxFileSize (this (defaulted st))) = inr form ->
  UploadFile r uploadDir rename st = (Ok (files, None), st') ->
  if renameFile_of rename
  then Forall2 (fun hdrs rec =>
                  exists s, NewFileName rec = s ++ filepath_Ext (Filename hdrs)
                            /\ String.length s = 25%nat
                            /\ Forall (fun c => In c alphabet) (chars s))
         (concat (map snd form)) files
  else map NewFileName files = map Filename (concat (map snd form)).
Proof.
  intros HP HU. destruct (UploadFile_records _ _ _ _ _ _ _ HP HU) as [H _].
  clear HP HU.
  destruct (renameFile_of rename).
  - induction H as [|hdrs rec l recs Hrec _ IH]; constructor; [|exact IH].
    destruct Hrec as (_ & _ & H). exact H.
  - induction H as [|hdrs rec l recs Hrec _ IH]; [reflexivity|].
    simpl. destruct Hrec as (_ & _ & ->). now rewrite IH.
Qed.

(** After a call of [UploadFile] that returns no error, the file of every
    record is in the upload directory under its stored name. *)
Theorem UploadFile_files_exist (r : Request) (uploadDir : string)
    (rename : list bool) (st st' : State) (files : list UploadedFile) :
  UploadFile r uploadDir rename st = (Ok (files, None), st') ->
  forall rec, In rec files ->
    is_Some (fs_files st' !! filepath_Join uploadDir (NewFileName rec)).
Proof.
  intros HU.
  destruct (ParseMultipartForm r (MaxFileSize (this (defaulted st))))
    as [e|form] eqn:HP.
  - rewrite UploadFile_unfold, HP in HU. discriminate.
  - destruct (UploadFile_records _ _ _ _ _ _ _ HP HU) as [_ H]. exact H.
Qed.

Lemma UploadOneFile_Ok_inv r dir rename st rec st' :
  UploadOneFile r dir rename st = (Ok (Some rec, None), st') ->
  exists rest,
    UploadFile r dir [renameFile_of rename] st = (Ok (rec :: rest, None), st').
Proof.
  unfold UploadOneFile. fold (renameFile_of rename). unfold bind.
  destruct (UploadFile r dir [renameFile_of rename] st)
    as [[[files [e|]]|m|m] st1]; try discriminate.
  simpl. destruct files as [|f rest]; [discriminate|].
  intros [= <- <-]. eauto.
Qed.

Lemma defaulted_files st : fs_files (defaulted st) = fs_files st.
Proof. unfold defaulted. destruct (_ =? _)%Z; reflexivity. Qed.

Lemma defaulted_dirs st : fs_dirs (defaulted st) = fs_dirs st.
Proof. unfold defaulted. destruct (_ =? _)%Z; reflexivity. Qed.

(** [UploadOneFile] on a request with one file part, when it returns no
    error: the record carries the name the client sent and the number of
    bytes of the part, the file stored under the new name holds exactly these
    bytes, and every other file is as it was. *)
Theorem UploadOneFile_stores_the_part (r : Request) (uploadDir : string)
    (rename : list bool) (st st' : State)
    (form : list (string * list FileHeader)) (hdrs : FileHeader)
    (rec : UploadedFile) :
  ParseMultipartForm r (MaxFileSize (this (defaulted st))) = inr form ->
  concat (map snd form) = [hdrs] ->
  UploadOneFile r uploadDir rename st = (Ok (Some rec, None), st') ->
  exists f,
    Open hdrs = inr f
    /\ OriginalFileName rec = Filename hdrs
    /\ FileSize rec = Z.of_nat (String.length (Data f))
    /\ fs_files st' !! filepath_Join uploadDir (NewFileName rec)
       = Some (Data f)
    /\ forall name, name <> filepath_Join uploadDir (NewFileName rec) ->
         fs_files st' !! name = fs_files st !! name.
Proof.
  intros HP Hparts HU. apply UploadOneFile_Ok_inv in HU.
  destruct HU as [rest HU].
  rewrite UploadFile_unfold, HP in HU.
  pose proof (CreateDirIfNotExists_keeps_files uploadDir (defaulted st)) as HF.
  destruct (CreateDirIfNotExists uploadDir (defaulted st))
    as [[[e|]|m|m] st1]; try discriminate.
  simpl in HF. rewrite defaulted_files in HF.
  rewrite range_File_concat, Hparts in HU. simpl in HU. unfold bind in HU.
  change (renameFile_of [renameFile_of rename]) with (renameFile_of rename)
    in HU.
  destruct (upload_part uploadDir (renameFile_of rename) hdrs [] st1)
    as [[[up1 [e|]]|m|m] st2] eqn:E; try discriminate.
  simpl in HU. unfold ret in HU. injection HU as Hup <-.
  destruct (upload_part_Ok_inv _ _ _ _ _ _ _ E)
    as (f & name & rec0 & HO & _ & Hrec & Hup1 & _ & _ & _ & Hfiles).
  rewrite Hup1 in Hup. simpl in Hup. injection Hup as <- _.
  exists f. rewrite Hrec, Hfiles, HF. simpl.
  repeat split; auto.
  - apply lookup_insert_eq.
  - intros other Hne. apply lookup_insert_ne. congruence.
Qed.

(** With a blank upload directory, a request that parses is answered with
    the error "invalid path" and no record; nothing is written, only the
    default of [MaxFileSize] is in place. *)
Theorem UploadFile_invalid_path (r : Request) (uploadDir : string)
    (rename : list bool) (st : State)
    (form : list (string * list FileHeader)) :
  ParseMultipartForm r (MaxFileSize (this (defaulted st))) = inr form ->
  String.length (strings_TrimSpace uploadDir) = 0%nat ->
  UploadFile r uploadDir rename st
  = (Ok ([], Some (errorString "invalid path")), defaulted st).
Proof.
  intros HP Hblank. rewrite UploadFile_unfold, HP.
  unfold CreateDirIfNotExists. rewrite Hblank. reflexivity.
Qed.

(** After a call of [UploadFile] that returns no error, the upload directory
    exists, unless [os.Stat] failed on it for another reason than a missing
    path. *)
Theorem UploadFile_directory_exists (r : Request) (uploadDir : string)
    (rename : list bool) (st st' : State) (files : list UploadedFile) :
  os_Stat_fault uploadDir = None ->
  UploadFile r uploadDir rename st = (Ok (files, None), st') ->
  exists_path st' uploadDir.
Proof.
  intros HS HU. rewrite UploadFile_unfold in HU.
  destruct (ParseMultipartForm r _) as [e|form]; [discriminate|].
  destruct (CreateDirIfNotExists uploadDir (defaulted st))
    as [[[e|]|m|m] st1] eqn:HD; try discriminate.
  assert (H1 : exists_path st1 uploadDir).
  { revert HD. unfold CreateDirIfNotExists.
    destruct (_ <? 1)%Z; [discriminate|].
    unfold bind, ret, os_Stat. rewrite HS.
    destruct (_ || _) eqn:E.
    - intros [= <-]. apply orb_true_iff in E. destruct E as [E|E];
        apply bool_decide_eq_true_1 in E; [left|right]; exact E.
    - unfold os_MkdirAll. destruct (os_MkdirAll_fault uploadDir);
        [discriminate|].
      intros [= <-]. left. simpl. set_solver. }
  pose proof (relates_range_File uploadDir (renameFile_of rename) form [] st1)
    as [Hd Hf].
  rewrite HU in Hd, Hf. simpl in Hd, Hf.
  destruct H1 as [H1|H1]; [left; set_solver|right; auto].
Qed.

Lemma range_fHeaders_norename_other dir fHeaders : forall up st files st' p,
  range_fHeaders dir false fHeaders up st = (Ok (files, None), st') ->
  (forall h, In h fHeaders -> filepath_Join dir (Filename h) <> p) ->
  fs_files st' !! p = fs_files st !! p.
Proof.
  induction fHeaders as [|hdrs rest IH]; intros up st files st' p.
  - intros [= _ <-] _. reflexivity.
  - simpl. unfold bind.
    destruct (upload_part dir false hdrs up st) as [[[up1 [e|]]|m|m] st1] eqn:E;
      try discriminate.
    simpl. intros Hrest Hne.
    destruct (upload_part_Ok_inv _ _ _ _ _ _ _ E)
      as (f & name & rec & _ & _ & Hrec & _ & (_ & _ & Hname) & _ & _ & Hf).
    rewrite Hrec in Hname. simpl in Hname. subst name.
    rewrite (IH _ _ _ _ p Hrest) by (intros; apply Hne; right; assumption).
    rewrite Hf. apply lookup_insert_ne. apply Hne. left. reflexivity.
Qed.

(** Without renaming, the file under the name of a part holds the bytes of
    that part when no later part is stored under the same path: of two parts
    with one name, the later one overwrites the earlier. *)
Theorem UploadFile_last_part_wins (r : Request) (uploadDir : string)
    (rename : list bool) (st st' : State)
    (form : list (string * list FileHeader))
    (pre post : list FileHeader) (hdrs : FileHeader)
    (files : list UploadedFile) :
  ParseMultipartForm r (MaxFileSize (this (defaulted st))) = inr form ->
  concat (map snd form) = (pre ++ hdrs :: post)%list ->
  renameFile_of rename = false ->
  (forall h, In h post ->
     filepath_Join uploadDir (Filename h)
     <> filepath_Join uploadDir (Filename hdrs)) ->
  UploadFile r uploadDir rename st = (Ok (files, None), st') ->
  exists f,
    Open hdrs = inr f
    /\ fs_files st' !! filepath_Join uploadDir (Filename hdrs) = Some (Data f).
Proof.
  intros HP Hparts Hrn Hpost HU.
  rewrite UploadFile_unfold, HP, Hrn in HU.
  destruct (CreateDirIfNotExists uploadDir (defaulted st))
    as [[[e|]|m|m] st1]; try discriminate.
  rewrite range_File_concat, Hparts, range_fHeaders_app in HU.
  destruct (range_fHeaders uploadDir false pre [] st1)
    as [[[up1 [e|]]|m|m] st2]; try discriminate.
  simpl in HU. unfold bind in HU.
  destruct (upload_part uploadDir false hdrs up1 st2)
    as [[[up2 [e|]]|m|m] st3] eqn:E; try discriminate.
  simpl in HU.
  destruct (upload_part_Ok_inv _ _ _ _ _ _ _ E)
    as (f & name & rec & HO & _ & Hrec & _ & (_ & _ & Hname) & _ & _ & Hf).
  rewrite Hrec in Hname. simpl in Hname. subst name.
  exists f. split; [exact HO|].
  rewrite (range_fHeaders_norename_other _ _ _ _ _ _ _ HU Hpost), Hf.
  apply lookup_insert_eq.
Qed.

End UploadProperties.

(** ** ReadJSON *)

Section ReadJSONProperties.
Context {P : Platform}.

Lemma ReadJSON_decoder_err t r : dec_err (ReadJSON_decoder t r) = None.
Proof. unfold ReadJSON_decoder. destruct (negb _); reflexivity. Qed.

Lemma ReadJSON_decoder_r t r :
  dec_r (ReadJSON_decoder t r)
  = fst (http_MaxBytesReader (Body r) (maxJSONSize_of t))
  /\ dec_r_err (ReadJSON_decoder t r)
     = snd (http_MaxBytesReader (Body r) (maxJSONSize_of t)).
Proof. unfold ReadJSON_decoder. destruct (negb _); split; reflexivity. Qed.

Lemma Decode_r_err dec v : dec_r_err (snd (Decode dec v)) = dec_r_err dec.
Proof.
  unfold Decode. destruct (dec_err dec); [reflexivity|].
  destruct (readValue_scan _ _ _ _ _); reflexivity.
Qed.

(** [ReadJSON] once the content type is the right one. *)
Lemma ReadJSON_unfold t w r data :
  Header_Get (Header r) "content-type" = "application/json" ->
  ReadJSON t w r data =
  match Decode (ReadJSON_decoder t r) data with
  | (Some err, _) => Some (ReadJSON_classify (maxJSONSize_of t) err)
  | (None, dec1) =>
      match fst (Decode dec1 emptyStruct) with
      | Some io_EOF => None
      | _ => Some errOnlyOneValue
      end
  end.
Proof.
  intros Hct. unfold ReadJSON, ReadJSON_decoder, maxJSONSize_of.
  rewrite Hct.
  change (String.eqb "application/json" "application/json") with true.
  cbv iota zeta. cbn [negb].
  destruct (Decode _ data) as [[e|] dec1]; [reflexivity|].
  destruct (Decode dec1 emptyStruct) as [e2 dec2]. reflexivity.
Qed.

Lemma ReadJSON_classify_not_raw n err :
  is_raw_decoder_error (ReadJSON_classify n err) = false.
Proof.
  destruct err; simpl;
    repeat match goal with
           | |- context [if ?b then _ else _] => destruct b
           end; reflexivity.
Qed.

(** [ReadJSON] returns nil only for a request of content type
    [application/json] whose body is no longer than the limit and ends
    with [io.EOF]: a body beyond the limit is never accepted, even when its
    first value lies within the limit. *)
Theorem ReadJSON_nil_only_within_limit (t : Tools) (w : ResponseWriter)
    (r : Request) (data : Dest) :
  ReadJSON t w r data = None ->
  Header_Get (Header r) "content-type" = "application/json"
  /\ (Z.of_nat (String.length (fst (Body r))) <= maxJSONSize_of t)%Z
  /\ snd (Body r) = io_EOF.
Proof.
  intros H.
  assert (Hct : Header_Get (Header r) "content-type" = "application/json").
  { unfold ReadJSON in H.
    destruct (String.eqb (Header_Get (Header r) "content-type")
                "application/json") eqn:E; [|discriminate].
    apply String.eqb_eq in E. exact E. }
  split; [exact Hct|].
  rewrite (ReadJSON_unfold _ _ _ _ Hct) in H.
  destruct (Decode (ReadJSON_decoder t r) data) as [[e|] dec1] eqn:HD;
    [discriminate|].
  assert (HE : fst (Decode dec1 emptyStruct) = Some io_EOF).
  { destruct (fst (Decode dec1 emptyStruct)) as [[]|]; try discriminate.
    reflexivity. }
  apply Decode_emptyStruct_EOF in HE; [|eapply Decode_ok_err; exact HD].
  destruct HE as [_ HE].
  pose proof (Decode_r_err (ReadJSON_decoder t r) data) as Hr.
  rewrite HD in Hr. simpl in Hr. rewrite Hr in HE.
  destruct (ReadJSON_decoder_r t r) as [_ Hr2]. rewrite Hr2 in HE.
  assert (Hpos : (0 < maxJSONSize_of t)%Z).
  { unfold maxJSONSize_of. destruct (MaxJSONSize t >? 0)%Z eqn:E; [|lia].
    apply Z.gtb_lt in E. lia. }
  unfold http_MaxBytesReader in HE.
  destruct (String.length (fst (Body r))
            <=? Z.to_nat (Z.max 0 (maxJSONSize_of t)))%nat eqn:E;
    [|discriminate].
  apply Nat.leb_le in E. split; [lia|].
  destruct (snd (Body r)); try discriminate. reflexivity.
Qed.

Lemma readValue_scan_blank input : forall s scanp r_err buf,
  scanner.step s = scanner.stateBeginValue ->
  nonSpace input = false -> nonSpace buf = false ->
  exists s', readValue_scan s input scanp r_err buf = readErr r_err s'.
Proof.
  induction input as [|c input IH]; intros s scanp r_err buf Hs Hin Hbuf;
    simpl.
  - destruct r_err; eauto.
    unfold scanner.step_. rewrite Hs. unfold scanner.stateBeginValue_.
    change (scanner.isSpace " ") with true. cbv iota. rewrite Hbuf. eauto.
  - rewrite nonSpace_cons in Hin. apply orb_false_iff in Hin.
    destruct Hin as [Hc Hin]. apply negb_false_iff in Hc.
    unfold scanner.step_. cbn [scanner.step add_bytes]. rewrite Hs.
    unfold scanner.stateBeginValue_. rewrite Hc.
    apply IH; auto.
Qed.

(** A body that is empty or holds white space only, within the limit, is
    refused with "body must not be empty", whatever the destination. *)
Theorem ReadJSON_blank_body (t : Tools) (w : ResponseWriter) (r : Request)
    (data : Dest) :
  Header_Get (Header r) "content-type" = "application/json" ->
  nonSpace (fst (Body r)) = false ->
  snd (Body r) = io_EOF ->
  (Z.of_nat (String.length (fst (Body r))) <= maxJSONSize_of t)%Z ->
  ReadJSON t w r data = Some (errorString "body must not be empty").
Proof.
  intros Hct Hblank Heof Hlen. rewrite (ReadJSON_unfold _ _ _ _ Hct).
  destruct (ReadJSON_decoder_r t r) as [Hr Hre].
  assert (HM : http_MaxBytesReader (Body r) (maxJSONSize_of t) = Body r).
  { unfold http_MaxBytesReader.
    destruct (_ <=? _)%nat eqn:E; [reflexivity|].
    apply Nat.leb_gt in E. lia. }
  rewrite HM in Hr, Hre.
  unfold Decode. rewrite ReadJSON_decoder_err, Hr, Hre, Heof.
  destruct (readValue_scan_blank (fst (Body r))
              (scanner.reset (dec_scan (ReadJSON_decoder t r))) 0 io_EOF
              (fst (Body r))) as [s' ->]; auto.
Qed.

(** [ReadJSON] never hands out an error of the decoder or of the capped
    reader as it is: [io.EOF], [io.ErrUnexpectedEOF], syntax errors, type
    errors, invalid-target errors and the "too large" error are all replaced
    by messages. *)
Theorem ReadJSON_wraps_decoder_errors (t : Tools) (w : ResponseWriter)
    (r : Request) (data : Dest) (e : error) :
  ReadJSON t w r data = Some e -> is_raw_decoder_error e = false.
Proof.
  unfold ReadJSON.
  destruct (negb _); [intros [= <-]; reflexivity|].
  destruct (Decode _ data) as [[err|] dec1].
  - intros [= <-]. apply ReadJSON_classify_not_raw.
  - destruct (Decode dec1 emptyStruct) as [[[]|] dec2];
      intros [= <-]; reflexivity.
Qed.

Lemma HasPrefix_app p x : HasPrefix (p ++ x) p = true.
Proof.
  induction p as [|c p IH]; simpl; [destruct x; reflexivity|].
  rewrite Ascii.eqb_refl. exact IH.
Qed.

Lemma TrimPrefix_app p x : TrimPrefix (p ++ x) p = x.
Proof.
  unfold TrimPrefix. rewrite HasPrefix_app.
  induction p as [|c p IH]; simpl; [destruct x; reflexivity|exact IH].
Qed.

(** When the destination refuses a field [key] as unknown, the message of
    [ReadJSON] quotes what is left after the prefix "json: unknown field":
    a space and the field name already in quotes. *)
Theorem ReadJSON_unknown_field (t : Tools) (w : ResponseWriter) (r : Request)
    (data : Dest) (key : string) :
  Header_Get (Header r) "content-type" = "application/json" ->
  fst (Decode (ReadJSON_decoder t r) data)
    = Some (errorString ("json: unknown field " ++ strconv_Quote key)) ->
  ReadJSON t w r data
  = Some (errorString ("body contains unknown field "
                         ++ strconv_Quote (" " ++ strconv_Quote key))).
Proof.
  intros Hct HD. rewrite (ReadJSON_unfold _ _ _ _ Hct).
  destruct (Decode (ReadJSON_decoder t r) data) as [e dec1].
  simpl in HD. subst e. cbn [ReadJSON_classify Error].
  change ("json: unknown field " ++ strconv_Quote key)
    with ("json: unknown field" ++ (" " ++ strconv_Quote key)).
  rewrite HasPrefix_app, TrimPrefix_app. reflexivity.
Qed.

End ReadJSONProperties.

(** ** WriteJSON, ErrorJSON and PushJSONToRemote *)

Section WriteJSONProperties.
Context {P : Platform}.

Lemma fold_rw_Set_fields k vs : forall w,
  let w' := fold_left (fun w v => rw_Set k v w) vs w in
  rw_status w' = rw_status w /\ rw_body w' = rw_body w
  /\ rw_WriteFault w' = rw_WriteFault w.
Proof.
  induction vs as [|v vs IH]; intros w; [simpl; auto|].
  cbv zeta. simpl. destruct (IH (rw_Set k v w)) as (H1 & H2 & H3). auto.
Qed.

Lemma set_all_fields hs : forall w,
  rw_status (set_all hs w) = rw_status w
  /\ rw_body (set_all hs w) = rw_body w
  /\ rw_WriteFault (set_all hs w) = rw_WriteFault w.
Proof.
  unfold set_all. induction hs as [|[k vs] hs IH]; intros w; [simpl; auto|].
  simpl. destruct (IH (fold_left (fun w v => rw_Set k v w) vs w))
    as (H1 & H2 & H3).
  destruct (fold_rw_Set_fields k vs w) as (H4 & H5 & H6).
  rewrite H1, H2, H3. auto.
Qed.

Lemma set_all_app hs1 hs2 w :
  set_all (hs1 ++ hs2) w = set_all hs2 (set_all hs1 w).
Proof. unfold set_all. apply fold_left_app. Qed.

Lemma first_headers_fields headers w :
  rw_status (first_headers headers w) = rw_status w
  /\ rw_body (first_headers headers w) = rw_body w
  /\ rw_WriteFault (first_headers headers w) = rw_WriteFault w.
Proof. destruct headers; [auto|apply set_all_fields]. Qed.

Lemma WriteJSON_Header w status data headers out :
  json_Marshal data = inr out ->
  rw_Header (fst (WriteJSON w status data headers))
  = Header_Set "content-type" "application/json"
      (rw_Header (first_headers headers w)).
Proof.
  intros HM. unfold WriteJSON. rewrite HM. fold (first_headers headers w).
  unfold rw_Write, rw_WriteHeader, rw_Set. simpl.
  destruct (rw_status (first_headers headers w)); simpl;
    destruct (rw_WriteFault (first_headers headers w)); reflexivity.
Qed.

(** Whatever headers the caller passes, a content type among them
    included, the response of [WriteJSON] carries the content type
    [application/json] alone. *)
Theorem WriteJSON_content_type_wins (w : ResponseWriter) (status : Z)
    (data : any) (headers : list (list (string * list string)))
    (out : string) :
  json_Marshal data = inr out ->
  rw_Header (fst (WriteJSON w status data headers))
    !! http_CanonicalHeaderKey "content-type"
  = Some ["application/json"].
Proof.
  intros HM. rewrite (WriteJSON_Header _ _ _ _ _ HM).
  unfold Header_Set. apply lookup_insert_eq.
Qed.

(** On a writer to which no status was written and whose connection takes
    the bytes, [WriteJSON] returns nil, writes the status it was given and
    appends the serialised payload to the body. *)
Theorem WriteJSON_writes_status_and_body (w : ResponseWriter) (status : Z)
    (data : any) (headers : list (list (string * list string)))
    (out : string) :
  json_Marshal data = inr out ->
  rw_status w = None ->
  rw_WriteFault w = None ->
  snd (WriteJSON w status data headers) = None
  /\ rw_status (fst (WriteJSON w status data headers)) = Some status
  /\ rw_body (fst (WriteJSON w status data headers)) = rw_body w ++ out.
Proof.
  intros HM Hs Hf. unfold WriteJSON. rewrite HM.
  fold (first_headers headers w).
  destruct (first_headers_fields headers w) as (H1 & H2 & H3).
  unfold rw_Write, rw_WriteHeader, rw_Set. simpl.
  rewrite H1, Hs. simpl. rewrite H3, Hf. simpl. rewrite H2. auto.
Qed.

(** When the connection refuses the bytes, [WriteJSON] returns that error;
    a status has been written by then. *)
Theorem WriteJSON_write_error (w : ResponseWriter) (status : Z)
    (data : any) (headers : list (list (string * list string)))
    (out : string) (err : error) :
  json_Marshal data = inr out ->
  rw_WriteFault w = Some err ->
  snd (WriteJSON w status data headers) = Some err
  /\ rw_status (fst (WriteJSON w status data headers))
     = Some (match rw_status w with Some written => written | None => status end).
Proof.
  intros HM Hf. unfold WriteJSON. rewrite HM.
  fold (first_headers headers w).
  destruct (first_headers_fields headers w) as (H1 & H2 & H3).
  unfold rw_Write, rw_WriteHeader, rw_Set. simpl.
  rewrite H1. destruct (rw_status w); simpl; rewrite H3, Hf; simpl;
    rewrite ?H1; auto.
Qed.

Lemma fold_rw_Set_other k vs K : forall w,
  http_CanonicalHeaderKey k <> K ->
  rw_Header (fold_left (fun w v => rw_Set k v w) vs w) !! K = rw_Header w !! K.
Proof.
  induction vs as [|v vs IH]; intros w Hne; [reflexivity|].
  simpl. rewrite IH by exact Hne. unfold rw_Set, Header_Set. simpl.
  apply lookup_insert_ne. exact Hne.
Qed.

Lemma set_all_other hs K : forall w,
  (forall k vs, In (k, vs) hs -> vs <> [] -> http_CanonicalHeaderKey k <> K) ->
  rw_Header (set_all hs w) !! K = rw_Header w !! K.
Proof.
  unfold set_all. induction hs as [|[k vs] hs IH]; intros w Hne;
    [reflexivity|].
  simpl. rewrite IH by (intros; eapply Hne; [right|]; eauto).
  destruct vs as [|v vs]; [reflexivity|].
  apply fold_rw_Set_other. apply (Hne k (v :: vs)); [left; reflexivity|].
  discriminate.
Qed.

(** A header with several values keeps the last one only: each value is
    stored with [Set], which replaces the values stored before. *)
Theorem WriteJSON_header_last_value (w : ResponseWriter) (status : Z)
    (data : any) (out : string)
    (pre post : list (string * list string))
    (more : list (list (string * list string)))
    (k : string) (vs : list string) (v : string) :
  json_Marshal data = inr out ->
  (forall k' vs', In (k', vs') post -> vs' <> [] ->
     http_CanonicalHeaderKey k' <> http_CanonicalHeaderKey k) ->
  http_CanonicalHeaderKey "content-type" <> http_CanonicalHeaderKey k ->
  rw_Header (fst (WriteJSON w status data
                    ((pre ++ (k, (vs ++ [v])%list) :: post)%list :: more)))
    !! http_CanonicalHeaderKey k
  = Some [v].
Proof.
  intros HM Hpost Hct. rewrite (WriteJSON_Header _ _ _ _ _ HM).
  unfold Header_Set. rewrite lookup_insert_ne by exact Hct.
  cbn [first_headers].
  change ((pre ++ (k, (vs ++ [v])%list) :: post)%list)
    with ((pre ++ [(k, (vs ++ [v])%list)] ++ post)%list).
  rewrite !set_all_app, set_all_other by exact Hpost.
  unfold set_all at 1. simpl. rewrite fold_left_app. simpl.
  unfold rw_Set at 1, Header_Set. simpl. apply lookup_insert_eq.
Qed.

(** [ErrorJSON] writes the status it is given, or 400 when it is given
    none, and the serialised envelope whose error flag is set and whose
    message is the text of the error. *)
Theorem ErrorJSON_writes_envelope (w : ResponseWriter) (err : error)
    (status : list Z) (out : string) :
  json_Marshal (any_JSONResponse true (Error err) None) = inr out ->
  rw_status w = None ->
  rw_WriteFault w = None ->
  snd (ErrorJSON w err status) = None
  /\ rw_status (fst (ErrorJSON w err status))
     = Some (match status with c :: _ => c | [] => 400%Z end)
  /\ rw_body (fst (ErrorJSON w err status)) = rw_body w ++ out
  /\ rw_Header (fst (ErrorJSON w err status))
       !! http_CanonicalHeaderKey "content-type"
     = Some ["application/json"].
Proof.
  intros HM Hs Hf. unfold ErrorJSON, WriteJSON, any_of. simpl.
  rewrite HM. unfold rw_Write, rw_WriteHeader, rw_Set. simpl.
  rewrite Hs. simpl. rewrite Hf. simpl.
  repeat split; try reflexivity.
  unfold Header_Set. apply lookup_insert_eq.
Qed.


End WriteJSONProperties.

(** ** The further properties on the example platform *)

Section MoreInstances.
Import Example.
#[local] Existing Instance platform.

(** The directory [up] is created by the first call; the second call finds
    it. *)
Lemma CreateDirIfNotExists_idempotent_witness :
  CreateDirIfNotExists "up" st0 = (Ok None, set_fs_dirs {[ "up" ]} st0)
  /\ CreateDirIfNotExists "up" (set_fs_dirs {[ "up" ]} st0)
     = (Ok None, set_fs_dirs {[ "up" ]} st0).
Proof.
  assert (H : CreateDirIfNotExists "up" st0
              = (Ok None, set_fs_dirs {[ "up" ]} st0))
    by (vm_compute; reflexivity).
  split; [exact H|].
  apply (CreateDirIfNotExists_idempotent "up" st0 _ H).
Defined.

(** [up] is a regular file: the call accepts it. *)
Lemma CreateDirIfNotExists_existing_witness :
  String.length (strings_TrimSpace "up") <> 0%nat
  /\ exists_path st_file "up"
  /\ CreateDirIfNotExists "up" st_file = (Ok None, st_file).
Proof.
  assert (H1 : String.length (strings_TrimSpace "up") <> 0%nat)
    by (vm_compute; discriminate).
  assert (H2 : exists_path st_file "up")
    by (right; exists "data"; vm_compute; reflexivity).
  split; [exact H1|]. split; [exact H2|].
  apply (CreateDirIfNotExists_existing "up" st_file H1 H2).
Defined.

(** [up] is created in the empty file system. *)
Lemma CreateDirIfNotExists_creates_witness :
  os_Stat_fault "up" = None
  /\ CreateDirIfNotExists "up" st0 = (Ok None, set_fs_dirs {[ "up" ]} st0)
  /\ exists_path (set_fs_dirs {[ "up" ]} st0) "up"
  /\ fs_dirs st0 ⊆ fs_dirs (set_fs_dirs {[ "up" ]} st0)
  /\ fs_files (set_fs_dirs {[ "up" ]} st0) = fs_files st0
  /\ this (set_fs_dirs {[ "up" ]} st0) = this st0
  /\ rand_Reader (set_fs_dirs {[ "up" ]} st0) = rand_Reader st0.
Proof.
  assert (H : CreateDirIfNotExists "up" st0
              = (Ok None, set_fs_dirs {[ "up" ]} st0))
    by (vm_compute; reflexivity).
  split; [reflexivity|]. split; [exact H|].
  apply (CreateDirIfNotExists_creates "up" st0);
    [reflexivity|exact H].
Defined.

(** The example source holds four primes: five characters cannot be
    drawn. *)
Lemma RandomString_source_dry_witness :
  (length (draws 64 (rand_Reader st_source)) < Z.to_nat 5)%nat
  /\ exists st',
       RandomString 5 st_source = (Fatal "Unexpected error EOF", st')
       /\ this st' = this st_source /\ fs_dirs st' = fs_dirs st_source
       /\ fs_files st' = fs_files st_source.
Proof.
  assert (H : (length (draws 64 (rand_Reader st_source)) < Z.to_nat 5)%nat)
    by (vm_compute; lia).
  split; [exact H|].
  apply (RandomString_source_dry 5 st_source H).
Defined.

(** One character, then two, from the example source. *)
Lemma RandomString_append_witness :
  RandomString 1 st_source
    = (Ok "r", set_rand_Reader [40; 76; 18446744073709551557; 90]%Z st_source)
  /\ RandomString 2
       (set_rand_Reader [40; 76; 18446744073709551557; 90]%Z st_source)
     = (Ok "nf", set_rand_Reader [90%Z] st_source)
  /\ RandomString (1 + 2) st_source
     = (Ok ("r" ++ "nf"), set_rand_Reader [90%Z] st_source).
Proof.
  assert (H1 : RandomString 1 st_source
               = (Ok "r",
                  set_rand_Reader [40; 76; 18446744073709551557; 90]%Z
                    st_source))
    by (vm_compute; reflexivity).
  assert (H2 : RandomString 2
                 (set_rand_Reader [40; 76; 18446744073709551557; 90]%Z
                    st_source)
               = (Ok "nf", set_rand_Reader [90%Z] st_source))
    by (vm_compute; reflexivity).
  split; [exact H1|]. split; [exact H2|].
  apply (RandomString_append 1 2 st_source _ _ "r" "nf" H1 H2).
Defined.

(** The first case of the repository's test table. *)
Lemma Slugify_shape_witness :
  Slugify "Now is the time" = ("now-is-the-time", None)
  /\ "now-is-the-time" <> ""
  /\ starts_with "-" "now-is-the-time" = false
  /\ ends_with "-" "now-is-the-time" = false
  /\ has_double "-" "now-is-the-time" = false
  /\ forall c, In c (list_ascii_of_string "now-is-the-time") ->
       inRange "a" "z" c = true \/ c = "/"%char \/ c = "-"%char.
Proof.
  assert (H : Slugify "Now is the time" = ("now-is-the-time", None))
    by (vm_compute; reflexivity).
  split; [exact H|].
  apply (Slugify_shape "Now is the time" "now-is-the-time" H).
Defined.

Lemma Slugify_idempotent_witness :
  Slugify "Now is the time" = ("now-is-the-time", None)
  /\ Slugify "now-is-the-time" = ("now-is-the-time", None).
Proof.
  assert (H : Slugify "Now is the time" = ("now-is-the-time", None))
    by (vm_compute; reflexivity).
  split; [exact H|].
  apply (Slugify_idempotent "Now is the time" "now-is-the-time" H).
Defined.

(** Two parts, two records, in the order of the parts. *)
Lemma UploadFile_one_record_per_part_witness :
  ParseMultipartForm (uploadRequest twoParts)
    (MaxFileSize (this (defaulted st0))) = inr twoParts_form
  /\ UploadFile (uploadRequest twoParts) "up" [false] st0
     = (Ok (twoParts_files, None), st0_hello)
  /\ map OriginalFileName twoParts_files
     = map Filename (concat (map snd twoParts_form)).
Proof.
  assert (HP : ParseMultipartForm (uploadRequest twoParts)
                 (MaxFileSize (this (defaulted st0))) = inr twoParts_form)
    by (vm_compute; reflexivity).
  assert (HU : UploadFile (uploadRequest twoParts) "up" [false] st0
               = (Ok (twoParts_files, None), st0_hello))
    by (vm_compute; reflexivity).
  split; [exact HP|]. split; [exact HU|].
  apply (UploadFile_one_record_per_part (uploadRequest twoParts) "up" [false]
           st0 st0_hello twoParts_form twoParts_files HP HU).
Defined.

(** The sizes 7 and 5 of the two parts. *)
Lemma UploadFile_record_sizes_witness :
  ParseMultipartForm (uploadRequest twoParts)
    (MaxFileSize (this (defaulted st0))) = inr twoParts_form
  /\ UploadFile (uploadRequest twoParts) "up" [false] st0
     = (Ok (twoParts_files, None), st0_hello)
  /\ Forall2 (fun hdrs rec =>
                exists f, Open hdrs = inr f
                          /\ FileSize rec = Z.of_nat (String.length (Data f))
                          /\ (1 <= FileSize rec)%Z)
       (concat (map snd twoParts_form)) twoParts_files.
Proof.
  assert (HP : ParseMultipartForm (uploadRequest twoParts)
                 (MaxFileSize (this (defaulted st0))) = inr twoParts_form)
    by (vm_compute; reflexivity).
  assert (HU : UploadFile (uploadRequest twoParts) "up" [false] st0
               = (Ok (twoParts_files, None), st0_hello))
    by (vm_compute; reflexivity).
  split; [exact HP|]. split; [exact HU|].
  apply (UploadFile_record_sizes (uploadRequest twoParts) "up" [false]
           st0 st0_hello twoParts_form twoParts_files HP HU).
Defined.

(** An image stored under a random name: 25 characters and [.bin]. *)
Lemma UploadFile_stored_names_witness :
  ParseMultipartForm (uploadRequest onePart)
    (MaxFileSize (this (defaulted st_source25))) = inr onePart_form
  /\ UploadFile (uploadRequest onePart) "up" [] st_source25
     = (Ok ([renamed], None), st25_stored)
  /\ if renameFile_of []
     then Forall2 (fun hdrs rec =>
                     exists s,
                       NewFileName rec = s ++ filepath_Ext (Filename hdrs)
                       /\ String.length s = 25%nat
                       /\ Forall (fun c => In c alphabet)
                            (list_ascii_of_string s))
            (concat (map snd onePart_form)) [renamed]
     else map NewFileName [renamed]
          = map Filename (concat (map snd onePart_form)).
Proof.
  assert (HP : ParseMultipartForm (uploadRequest onePart)
                 (MaxFileSize (this (defaulted st_source25)))
               = inr onePart_form)
    by (vm_compute; reflexivity).
  assert (HU : UploadFile (uploadRequest onePart) "up" [] st_source25
               = (Ok ([renamed], None), st25_stored))
    by (vm_compute; reflexivity).
  split; [exact HP|]. split; [exact HU|].
  apply (UploadFile_stored_names (uploadRequest onePart) "up" []
           st_source25 st25_stored onePart_form [renamed] HP HU).
Defined.

(** The renamed image is in the upload directory. *)
Lemma UploadFile_files_exist_witness :
  UploadFile (uploadRequest onePart) "up" [] st_source25
    = (Ok ([renamed], None), st25_stored)
  /\ In renamed [renamed]
  /\ is_Some (fs_files st25_stored
                !! filepath_Join "up" (NewFileName renamed)).
Proof.
  assert (HU : UploadFile (uploadRequest onePart) "up" [] st_source25
               = (Ok ([renamed], None), st25_stored))
    by (vm_compute; reflexivity).
  assert (HI : In renamed [renamed]) by (simpl; auto).
  split; [exact HU|]. split; [exact HI|].
  apply (UploadFile_files_exist (uploadRequest onePart) "up" []
           st_source25 st25_stored [renamed] HU renamed HI).
Defined.

(** [UploadOneFile] on the request with one image. *)
Lemma UploadOneFile_stores_the_part_witness :
  ParseMultipartForm (uploadRequest onePart)
    (MaxFileSize (this (defaulted st_source25))) = inr onePart_form
  /\ concat (map snd onePart_form) = [part jpegData]
  /\ UploadOneFile (uploadRequest onePart) "up" [] st_source25
     = (Ok (Some renamed, None), st25_stored)
  /\ exists f,
       Open (part jpegData) = inr f
       /\ OriginalFileName renamed = Filename (part jpegData)
       /\ FileSize renamed = Z.of_nat (String.length (Data f))
       /\ fs_files st25_stored !! filepath_Join "up" (NewFileName renamed)
          = Some (Data f)
       /\ forall name, name <> filepath_Join "up" (NewFileName renamed) ->
            fs_files st25_stored !! name = fs_files st_source25 !! name.
Proof.
  assert (HP : ParseMultipartForm (uploadRequest onePart)
                 (MaxFileSize (this (defaulted st_source25)))
               = inr onePart_form)
    by (vm_compute; reflexivity).
  assert (HU : UploadOneFile (uploadRequest onePart) "up" [] st_source25
               = (Ok (Some renamed, None), st25_stored))
    by (vm_compute; reflexivity).
  split; [exact HP|]. split; [reflexivity|]. split; [exact HU|].
  apply (UploadOneFile_stores_the_part (uploadRequest onePart) "up" []
           st_source25 st25_stored onePart_form (part jpegData) renamed);
    [exact HP|reflexivity|exact HU].
Defined.

(** An upload directory of two spaces. *)
Lemma UploadFile_invalid_path_witness :
  ParseMultipartForm (uploadRequest onePart)
    (MaxFileSize (this (defaulted st0))) = inr onePart_form
  /\ String.length (strings_TrimSpace "  ") = 0%nat
  /\ UploadFile (uploadRequest onePart) "  " [false] st0
     = (Ok ([], Some (errorString "invalid path")), defaulted st0).
Proof.
  assert (HP : ParseMultipartForm (uploadRequest onePart)
                 (MaxFileSize (this (defaulted st0))) = inr onePart_form)
    by (vm_compute; reflexivity).
  assert (HT : String.length (strings_TrimSpace "  ") = 0%nat)
    by (vm_compute; reflexivity).
  split; [exact HP|]. split; [exact HT|].
  apply (UploadFile_invalid_path (uploadRequest onePart) "  " [false] st0
           onePart_form HP HT).
Defined.

(** The directory [up] exists after the upload of the two parts. *)
Lemma UploadFile_directory_exists_witness :
  os_Stat_fault "up" = None
  /\ UploadFile (uploadRequest twoParts) "up" [false] st0
     = (Ok (twoParts_files, None), st0_hello)
  /\ exists_path st0_hello "up".
Proof.
  assert (HU : UploadFile (uploadRequest twoParts) "up" [false] st0
               = (Ok (twoParts_files, None), st0_hello))
    by (vm_compute; reflexivity).
  split; [reflexivity|]. split; [exact HU|].
  apply (UploadFile_directory_exists (uploadRequest twoParts) "up" [false]
           st0 st0_hello twoParts_files); [reflexivity|exact HU].
Defined.

(** Of the two parts named [upload.bin], the text is what the file holds. *)
Lemma UploadFile_last_part_wins_witness :
  ParseMultipartForm (uploadRequest twoParts)
    (MaxFileSize (this (defaulted st0))) = inr twoParts_form
  /\ concat (map snd twoParts_form)
     = ([part jpegData] ++ part "hello" :: [])%list
  /\ renameFile_of [false] = false
  /\ UploadFile (uploadRequest twoParts) "up" [false] st0
     = (Ok (twoParts_files, None), st0_hello)
  /\ exists f,
       Open (part "hello") = inr f
       /\ fs_files st0_hello !! filepath_Join "up" (Filename (part "hello"))
          = Some (Data f).
Proof.
  assert (HP : ParseMultipartForm (uploadRequest twoParts)
                 (MaxFileSize (this (defaulted st0))) = inr twoParts_form)
    by (vm_compute; reflexivity).
  assert (HU : UploadFile (uploadRequest twoParts) "up" [false] st0
               = (Ok (twoParts_files, None), st0_hello))
    by (vm_compute; reflexivity).
  split; [exact HP|]. split; [reflexivity|]. split; [reflexivity|].
  split; [exact HU|].
  apply (UploadFile_last_part_wins (uploadRequest twoParts) "up" [false]
           st0 st0_hello twoParts_form [part jpegData] [] (part "hello")
           twoParts_files).
  - exact HP.
  - reflexivity.
  - reflexivity.
  - intros h [].
  - exact HU.
Defined.

(** A part without bytes between two images. *)
Lemma UploadFile_with_empty_part_witness :
  ParseMultipartForm (uploadRequest (jpegData ++ ";;" ++ jpegData ++ ";"))
    (MaxFileSize (this (defaulted st0)))
    = inr [("file", [part jpegData]); ("file", [part ""]);
           ("file", [part jpegData])]
  /\ In (part "")
       (concat (map snd [("file", [part jpegData]); ("file", [part ""]);
                         ("file", [part jpegData])]))
  /\ Open (part "") = inr (mkFile "" None None)
  /\ Data (mkFile "" None None) = ""
  /\ UploadFile (uploadRequest (jpegData ++ ";;" ++ jpegData ++ ";")) "up"
       [false] st0
     = (Ok ([], Some io_EOF), st0_stored)
  /\ fst (@nil UploadedFile, Some io_EOF) = []
  /\ snd (@nil UploadedFile, Some io_EOF) <> None.
Proof.
  assert (HP : ParseMultipartForm
                 (uploadRequest (jpegData ++ ";;" ++ jpegData ++ ";"))
                 (MaxFileSize (this (defaulted st0)))
               = inr [("file", [part jpegData]); ("file", [part ""]);
                      ("file", [part jpegData])])
    by (vm_compute; reflexivity).
  assert (HI : In (part "")
                 (concat (map snd [("file", [part jpegData]);
                                   ("file", [part ""]);
                                   ("file", [part jpegData])])))
    by (simpl; auto).
  assert (HU : UploadFile
                 (uploadRequest (jpegData ++ ";;" ++ jpegData ++ ";")) "up"
                 [false] st0
               = (Ok ([], Some io_EOF), st0_stored))
    by (vm_compute; reflexivity).
  split; [exact HP|]. split; [exact HI|]. split; [reflexivity|].
  split; [reflexivity|]. split; [exact HU|].
  apply (UploadFile_with_empty_part
           (uploadRequest (jpegData ++ ";;" ++ jpegData ++ ";")) "up" [false]
           st0 [("file", [part jpegData]); ("file", [part ""]);
                ("file", [part jpegData])]
           (part "") (mkFile "" None None)) with (st' := st0_stored);
    [exact HP|exact HI|reflexivity|reflexivity|exact HU].
Defined.

(** A text between two images, for a receiver that allows JPEG images
    only. *)
Lemma UploadFile_with_rejected_part_witness :
  ParseMultipartForm (uploadRequest threeParts)
    (MaxFileSize (this (defaulted stJPEG)))
    = inr [("file", [part jpegData]); ("file", [part "hello"]);
           ("file", [part jpegData])]
  /\ In (part "hello")
       (concat (map snd [("file", [part jpegData]); ("file", [part "hello"]);
                         ("file", [part jpegData])]))
  /\ Open (part "hello") = inr (mkFile "hello" None None)
  /\ File_Read (mkFile "hello" None None) 512 = inr ("hello" ++ zeros 507)
  /\ AllowedTypes (this stJPEG) <> []
  /\ UploadFile (uploadRequest threeParts) "up" [false] stJPEG
     = (Ok ([], Some errNotPermitted), stJPEG_stored)
  /\ fst (@nil UploadedFile, Some errNotPermitted) = []
  /\ snd (@nil UploadedFile, Some errNotPermitted) <> None.
Proof.
  assert (HP : ParseMultipartForm (uploadRequest threeParts)
                 (MaxFileSize (this (defaulted stJPEG)))
               = inr [("file", [part jpegData]); ("file", [part "hello"]);
                      ("file", [part jpegData])])
    by (vm_compute; reflexivity).
  assert (HI : In (part "hello")
                 (concat (map snd [("file", [part jpegData]);
                                   ("file", [part "hello"]);
                                   ("file", [part jpegData])])))
    by (simpl; auto).
  assert (HR : File_Read (mkFile "hello" None None) 512
               = inr ("hello" ++ zeros 507))
    by (vm_compute; reflexivity).
  assert (HA : AllowedTypes (this stJPEG) <> []) by discriminate.
  assert (HU : UploadFile (uploadRequest threeParts) "up" [false] stJPEG
               = (Ok ([], Some errNotPermitted), stJPEG_stored))
    by (vm_compute; reflexivity).
  split; [exact HP|]. split; [exact HI|]. split; [reflexivity|].
  split; [exact HR|]. split; [exact HA|]. split; [exact HU|].
  apply (UploadFile_with_rejected_part (uploadRequest threeParts) "up" [false]
           stJPEG
           [("file", [part jpegData]); ("file", [part "hello"]);
            ("file", [part jpegData])]
           (part "hello") (mkFile "hello" None None)
           ("hello" ++ zeros 507)) with (st' := stJPEG_stored).
  - exact HP.
  - exact HI.
  - reflexivity.
  - exact HR.
  - exact HA.
  - intros x [<-|[]]. vm_compute. reflexivity.
  - exact HU.
Defined.

(** The body of the repository's test is accepted: it is 14 bytes long,
    within the limit of 1024. *)
Lemma ReadJSON_nil_only_within_limit_witness :
  ReadJSON tJSON w0 (jsonRequest foo_bar) anyDest = None
  /\ Header_Get (Header (jsonRequest foo_bar)) "content-type"
     = "application/json"
  /\ (Z.of_nat (String.length (fst (Body (jsonRequest foo_bar))))
      <= maxJSONSize_of tJSON)%Z
  /\ snd (Body (jsonRequest foo_bar)) = io_EOF.
Proof.
  assert (H : ReadJSON tJSON w0 (jsonRequest foo_bar) anyDest = None)
    by (vm_compute; reflexivity).
  split; [exact H|].
  apply (ReadJSON_nil_only_within_limit tJSON w0 (jsonRequest foo_bar)
           anyDest H).
Defined.

(** A body of two spaces. *)
Lemma ReadJSON_blank_body_witness :
  Header_Get (Header (jsonRequest "  ")) "content-type" = "application/json"
  /\ nonSpace (fst (Body (jsonRequest "  "))) = false
  /\ snd (Body (jsonRequest "  ")) = io_EOF
  /\ (Z.of_nat (String.length (fst (Body (jsonRequest "  "))))
      <= maxJSONSize_of tJSON)%Z
  /\ ReadJSON tJSON w0 (jsonRequest "  ") anyDest
     = Some (errorString "body must not be empty").
Proof.
  assert (H1 : Header_Get (Header (jsonRequest "  ")) "content-type"
               = "application/json")
    by (vm_compute; reflexivity).
  assert (H4 : (Z.of_nat (String.length (fst (Body (jsonRequest "  "))))
                <= maxJSONSize_of tJSON)%Z)
    by (vm_compute; discriminate).
  split; [exact H1|]. split; [reflexivity|]. split; [reflexivity|].
  split; [exact H4|].
  apply (ReadJSON_blank_body tJSON w0 (jsonRequest "  ") anyDest
           H1); [reflexivity|reflexivity|exact H4].
Defined.

(** An empty body: the [io.EOF] of the decoder becomes a message. *)
Lemma ReadJSON_wraps_decoder_errors_witness :
  ReadJSON tJSON w0 (jsonRequest "") anyDest
    = Some (errorString "body must not be empty")
  /\ is_raw_decoder_error (errorString "body must not be empty") = false.
Proof.
  assert (H : ReadJSON tJSON w0 (jsonRequest "") anyDest
              = Some (errorString "body must not be empty"))
    by (vm_compute; reflexivity).
  split; [exact H|].
  apply (ReadJSON_wraps_decoder_errors tJSON w0 (jsonRequest "") anyDest _ H).
Defined.

(** A destination that refuses the field [fooXYZ]. *)
Lemma ReadJSON_unknown_field_witness :
  Header_Get (Header (jsonRequest foo_bar)) "content-type"
    = "application/json"
  /\ fst (Decode (ReadJSON_decoder tJSON (jsonRequest foo_bar)) fooDest)
     = Some (errorString ("json: unknown field " ++ strconv_Quote "fooXYZ"))
  /\ ReadJSON tJSON w0 (jsonRequest foo_bar) fooDest
     = Some (errorString ("body contains unknown field "
                            ++ strconv_Quote (" " ++ strconv_Quote "fooXYZ"))).
Proof.
  assert (H1 : Header_Get (Header (jsonRequest foo_bar)) "content-type"
               = "application/json")
    by (vm_compute; reflexivity).
  assert (H2 : fst (Decode (ReadJSON_decoder tJSON (jsonRequest foo_bar))
                      fooDest)
               = Some (errorString ("json: unknown field "
                                      ++ strconv_Quote "fooXYZ")))
    by (vm_compute; reflexivity).
  split; [exact H1|]. split; [exact H2|].
  apply (ReadJSON_unknown_field tJSON w0 (jsonRequest foo_bar) fooDest
           "fooXYZ" H1 H2).
Defined.

(** The caller's [text/plain] is replaced. *)
Lemma WriteJSON_content_type_wins_witness :
  @json_Marshal platform (VString "hi") = inr (Quote "hi")
  /\ rw_Header (fst (WriteJSON (P:=platform) w0 201 (VString "hi")
                       [callerHeaders]))
       !! http_CanonicalHeaderKey "content-type"
     = Some ["application/json"].
Proof.
  split; [reflexivity|].
  apply (WriteJSON_content_type_wins (P:=platform) w0 201 (VString "hi")
           [callerHeaders] (Quote "hi")).
  reflexivity.
Defined.

(** Status 201 and the quoted text on a fresh writer. *)
Lemma WriteJSON_writes_status_and_body_witness :
  @json_Marshal platform (VString "hi") = inr (Quote "hi")
  /\ rw_status w0 = None
  /\ rw_WriteFault w0 = None
  /\ snd (WriteJSON (P:=platform) w0 201 (VString "hi") [callerHeaders])
     = None
  /\ rw_status (fst (WriteJSON (P:=platform) w0 201 (VString "hi")
                       [callerHeaders])) = Some 201%Z
  /\ rw_body (fst (WriteJSON (P:=platform) w0 201 (VString "hi")
                     [callerHeaders])) = rw_body w0 ++ Quote "hi".
Proof.
  split; [reflexivity|]. split; [reflexivity|]. split; [reflexivity|].
  apply (WriteJSON_writes_status_and_body (P:=platform) w0 201 (VString "hi")
           [callerHeaders] (Quote "hi")); reflexivity.
Defined.

(** A closed connection. *)
Lemma WriteJSON_write_error_witness :
  @json_Marshal platform (VString "hi") = inr (Quote "hi")
  /\ rw_WriteFault w_closed = Some errClosed
  /\ snd (WriteJSON (P:=platform) w_closed 201 (VString "hi") [])
     = Some errClosed
  /\ rw_status (fst (WriteJSON (P:=platform) w_closed 201 (VString "hi") []))
     = Some (match rw_status w_closed with
             | Some written => written
             | None => 201%Z
             end).
Proof.
  split; [reflexivity|]. split; [reflexivity|].
  apply (WriteJSON_write_error (P:=platform) w_closed 201 (VString "hi") []
           (Quote "hi") errClosed); reflexivity.
Defined.

(** Of the values 1 and 2 for [x-trace], the response carries 2. *)
Lemma WriteJSON_header_last_value_witness :
  @json_Marshal platform (VString "hi") = inr (Quote "hi")
  /\ http_CanonicalHeaderKey "content-type" <> http_CanonicalHeaderKey "x-trace"
  /\ rw_Header (fst (WriteJSON (P:=platform) w0 201 (VString "hi")
                       [([("content-type", ["text/plain"])]
                           ++ ("x-trace", (["1"] ++ ["2"])%list)
                           :: [("x-other", ["a"])])%list]))
       !! http_CanonicalHeaderKey "x-trace"
     = Some ["2"].
Proof.
  assert (HC : http_CanonicalHeaderKey "content-type"
               <> http_CanonicalHeaderKey "x-trace")
    by (vm_compute; discriminate).
  split; [reflexivity|]. split; [exact HC|].
  apply (WriteJSON_header_last_value (P:=platform) w0 201 (VString "hi")
           (Quote "hi") [("content-type", ["text/plain"])]
           [("x-other", ["a"])] [] "x-trace" ["1"] "2").
  - reflexivity.
  - intros k' vs' [H|[]] _. injection H as <- <-. vm_compute. discriminate.
  - exact HC.
Defined.

(** An error without a status: 400 and the text of the error. *)
Lemma ErrorJSON_writes_envelope_witness :
  @json_Marshal platform
    (@any_JSONResponse platform true (Error (errorString "boom")) None)
    = inr (Quote "boom")
  /\ rw_status w0 = None
  /\ rw_WriteFault w0 = None
  /\ snd (ErrorJSON (P:=platform) w0 (errorString "boom") []) = None
  /\ rw_status (fst (ErrorJSON (P:=platform) w0 (errorString "boom") []))
     = Some (match @nil Z with c :: _ => c | [] => 400%Z end)
  /\ rw_body (fst (ErrorJSON (P:=platform) w0 (errorString "boom") []))
     = rw_body w0 ++ Quote "boom"
  /\ rw_Header (fst (ErrorJSON (P:=platform) w0 (errorString "boom") []))
       !! http_CanonicalHeaderKey "content-type"
     = Some ["application/json"].
Proof.
  split; [reflexivity|]. split; [reflexivity|]. split; [reflexivity|].
  apply (ErrorJSON_writes_envelope (P:=platform) w0 (errorString "boom") []
           (Quote "boom")); reflexivity.
Defined.

End MoreInstances.
